(** * Scope privacy engine: the detection-and-scoring pipeline

    A shallow embedding of the TypeScript sources of the privacy engine
    (constants, the Helius data model, the CEX, clustering and identity-asset
    detectors, the Range compliance mock and the aggregating engine), followed
    by the properties the specification states about them.

    Conventions of the embedding.
    - A JavaScript [number] that carries an amount or a percentage is a
      binary64 [float] (the kernel's primitive floats round exactly as
      JavaScript does).  Counters, scores, point deductions and timestamps are
      whole numbers far below 2^53 and are kept in [Z].
    - A JavaScript string is a [string]: a sequence of code units, here
      restricted to code units below 256.  [undefined] strings behave like the
      empty string at every use the detectors make of them (both are falsy),
      so an absent string is the empty string.
    - A [Map] or [Set] is a list in insertion order, as JavaScript iterates it.
    - An array built by [push] is a list extended at its end.
    - [console] output is not modelled. *)

From Stdlib Require Import ZArith List String Ascii Bool Lia Floats.
From Stdlib Require Import DecimalString.
From Stdlib Require Import Permutation Sorted.
Import ListNotations.
Local Open Scope Z_scope.
Local Open Scope list_scope.

(* ================================================================= *)
(** ** JavaScript primitives used by the sources *)

Module JS.

(** [!!s] for a string: the empty string is the only falsy one. *)
Definition truthy (s : string) : bool := negb (String.eqb s "").

(** [s.length] *)
Definition strlen (s : string) : Z := Z.of_nat (String.length s).

(** [s.charCodeAt(i)] of one code unit. *)
Definition charCode (c : ascii) : Z := Z.of_N (N_of_ascii c).

Definition lowerChar (c : ascii) : ascii :=
  let n := charCode c in
  if ((65 <=? n) && (n <=? 90))
     || ((192 <=? n) && (n <=? 222) && negb (n =? 215))
  then ascii_of_N (Z.to_N (n + 32))
  else c.

(** [s.toLowerCase()] on code units below 256. *)
Fixpoint toLowerCase (s : string) : string :=
  match s with
  | EmptyString => EmptyString
  | String c rest => String (lowerChar c) (toLowerCase rest)
  end.

(** [hay.includes(needle)] *)
Fixpoint includes (hay needle : string) : bool :=
  String.prefix needle hay
  || match hay with
     | EmptyString => false
     | String _ rest => includes rest needle
     end.

(** A whole number as a [number]. *)
Definition ofZ (z : Z) : float :=
  if z <? 0 then PrimFloat.opp (PrimFloat.of_uint63 (Uint63.of_Z (- z)))
  else PrimFloat.of_uint63 (Uint63.of_Z z).

(** [a >= b] on numbers. *)
Definition geb (a b : float) : bool := PrimFloat.leb b a.

(** A whole number in a template literal: its decimal digits. *)
Definition showZ (z : Z) : string := NilZero.string_of_int (Z.to_int z).

(** The double-quote character. *)
Definition quote : string := String (ascii_of_N 34) EmptyString.

(** [arr.push(x)] *)
Definition push {A : Type} (arr : list A) (x : A) : list A := arr ++ [x].

(** [arr.includes(s)] on an array of strings. *)
Definition arrIncludes (arr : list string) (s : string) : bool :=
  existsb (String.eqb s) arr.

(** [Array.prototype.sort(cmp)]: the sort is stable, so for a consistent
    comparator the result is determined; [cmp a b <= 0] keeps [a] first. *)
Section Sort.
Context {A : Type} (cmp : A -> A -> Z).

Fixpoint insert (x : A) (l : list A) : list A :=
  match l with
  | [] => [x]
  | y :: ys => if cmp x y <=? 0 then x :: y :: ys else y :: insert x ys
  end.

Fixpoint sort (l : list A) : list A :=
  match l with
  | [] => []
  | x :: xs => insert x (sort xs)
  end.

End Sort.

(** An insertion-ordered [Map<string, V>]. *)
Module Map.

Definition t (V : Type) : Type := list (string * V).

Definition empty {V : Type} : t V := [].

Fixpoint get {V : Type} (m : t V) (k : string) : option V :=
  match m with
  | [] => None
  | (k', v) :: rest => if String.eqb k' k then Some v else get rest k
  end.

(** [m.set(k, v)]: an existing key keeps its place, a new one goes last. *)
Fixpoint set {V : Type} (m : t V) (k : string) (v : V) : t V :=
  match m with
  | [] => [(k, v)]
  | (k', v') :: rest =>
      if String.eqb k' k then (k', v) :: rest else (k', v') :: set rest k v
  end.

Definition size {V : Type} (m : t V) : Z := Z.of_nat (List.length m).

Definition keys {V : Type} (m : t V) : list string := map fst m.

End Map.

(** An insertion-ordered [Set<string>]. *)
Module StrSet.

Definition t : Type := list string.

Definition add (s : t) (x : string) : t :=
  if arrIncludes s x then s else s ++ [x].

End StrSet.

End JS.

(* ================================================================= *)
(** ** services/helius: the transaction data model *)

Module NativeTransfer.
Record t := mk {
  fromUserAccount : string;
  toUserAccount : string;
  amount : float
}.
End NativeTransfer.

Module TokenTransfer.
Record t := mk {
  mint : string;
  tokenAmount : float;
  fromUserAccount : string;
  toUserAccount : string;
  tokenStandard : string
}.
End TokenTransfer.

Module NftRef.
Record t := mk {
  mint : string;
  tokenStandard : string
}.
End NftRef.

(** [events.nft]; of its fields the detectors read [buyer] and [nfts]
    (an absent [nfts] is iterated as the empty array). *)
Module NftEvent.
Record t := mk {
  description : string;
  buyer : option string;
  nfts : list NftRef.t
}.
End NftEvent.

(** Of [ParsedTransaction] the pipeline reads the fields below; [type],
    [source], [fee], the balance changes of [accountData] and [events.swap]
    are never read by it.  [accountData] is the list of its [account]s. *)
Module Tx.
Record t := mk {
  signature : string;
  timestamp : Z;
  description : string;
  feePayer : string;
  accountData : list string;
  tokenTransfers : list TokenTransfer.t;
  nativeTransfers : list NativeTransfer.t;
  nft : option NftEvent.t
}.
End Tx.

(* ================================================================= *)
(** ** utils/constants *)

Module Constants.

Record CexEntry := mkCex { address : string; name : string }.

Definition KNOWN_CEX : list CexEntry :=
  [ mkCex "5tzFkiKscXHK5ZXCGbXZxdw7gTjjD1mBwuoFbhUvuAi9" "Binance";
    mkCex "9WzDXwBbmkg8ZTbNMqUxvQRAyrZzDsGYdLVL9zYtAWWM" "Binance";
    mkCex "2ojv9BAiHUrvsm9gxDe7fJSzbNZSJcxZvf8dqmWGHG8S" "Binance";
    mkCex "H8sMJSCQxfKiFTCfDR3DUMLPwcRbM61LGFJ8N4dK3WjS" "Coinbase";
    mkCex "GJRs4FwHtemZ5ZE9x3FNvJ8TMwitKTh21yxdRPqn7npE" "Coinbase";
    mkCex "2AQdpHJ2JpcEgPiATUXjQxA8QmafFegfQwSLWSprPicm" "Coinbase";
    mkCex "FWznbcNXWQuHTawe9RxvQ2LdCENssh12dsznf4RiouN5" "Kraken";
    mkCex "7hUdUTkJLwdcmt3jSEeqx4ep91sm1XwBxMDaJae6bD5D" "Kraken";
    mkCex "CuieVDEDtLo7FypA9SbLM9saXFdb1dsshEkyErMqkRQq" "FTX (defunct)";
    mkCex "5VCwKtCXgCJ6kit5FybXjvriW3xELsFDhYrPSqtJNmcD" "OKX";
    mkCex "BmFdpraQhkiDQE6SnfG5omcA1VwzqfXrwtNYBwWTymy6" "KuCoin" ].

Inductive RiskLevel := LOW | MEDIUM | HIGH | CRITICAL.

Module SCORE_THRESHOLDS.
Definition CRITICAL : Z := 25.
Definition HIGH : Z := 50.
Definition MEDIUM : Z := 75.
Definition LOW : Z := 100.
End SCORE_THRESHOLDS.

Module POINT_DEDUCTIONS.
Definition CEX_DEPOSIT : Z := 15.
Definition CEX_WITHDRAWAL : Z := 10.
Definition CLUSTER_DETECTED : Z := 20.
Definition NFT_POAP_EXPOSED : Z := 5.
Definition SOL_DOMAIN_EXPOSED : Z := 10.
Definition SANCTIONED_INTERACTION : Z := 50.
Definition HIGH_FREQUENCY_SAME_ADDR : Z := 8.
End POINT_DEDUCTIONS.

Module ANALYSIS_CONFIG.
Definition MAX_TRANSACTIONS_TO_ANALYZE : Z := 100.
Definition CLUSTER_THRESHOLD_PERCENTAGE : Z := 50.
Definition MIN_TRANSACTIONS_FOR_PATTERN : Z := 5.
End ANALYSIS_CONFIG.

End Constants.

(* ================================================================= *)
(** ** detectors/cex *)

Module Cex.
Import Constants.

Inductive Direction := deposit | withdrawal.

(** [amount] is optional in the source: the records made from the fee payer
    carry none. *)
Record CEXTransaction := mkCexTx {
  signature : string;
  timestamp : Z;
  exchangeName : string;
  exchangeAddress : string;
  direction : Direction;
  amount : option float
}.

Record CEXDetectionResult := mkResult {
  detected : bool;
  deposits : list CEXTransaction;
  withdrawals : list CEXTransaction;
  totalCEXTransactions : Z;
  exchangesInvolved : list string;
  riskContribution : Z
}.

Definition findCEXAddress (address : string) : option CexEntry :=
  if negb (JS.truthy address) then None
  else find (fun cex => String.eqb (Constants.address cex) address) KNOWN_CEX.

Definition isKnownCEX (address : string) : bool :=
  existsb (fun cex => String.eqb (Constants.address cex) address) KNOWN_CEX.

Definition getCEXName (address : string) : option string :=
  match findCEXAddress address with
  | Some cex => Some (Constants.name cex)
  | None => None
  end.

(** The three accumulators of [detectCEXTransactions]. *)
Record Acc := mkAcc {
  acc_deposits : list CEXTransaction;
  acc_withdrawals : list CEXTransaction;
  exchangesSet : JS.StrSet.t
}.

Definition acc0 : Acc := mkAcc [] [] [].

Definition pushDeposit (st : Acc) (tx : Tx.t) (m : CexEntry)
  (amt : option float) : Acc :=
  mkAcc
    (JS.push (acc_deposits st)
       (mkCexTx (Tx.signature tx) (Tx.timestamp tx) (Constants.name m)
          (Constants.address m) deposit amt))
    (acc_withdrawals st)
    (JS.StrSet.add (exchangesSet st) (Constants.name m)).

Definition pushWithdrawal (st : Acc) (tx : Tx.t) (m : CexEntry)
  (amt : option float) : Acc :=
  mkAcc
    (acc_deposits st)
    (JS.push (acc_withdrawals st)
       (mkCexTx (Tx.signature tx) (Tx.timestamp tx) (Constants.name m)
          (Constants.address m) withdrawal amt))
    (JS.StrSet.add (exchangesSet st) (Constants.name m)).

(** The body shared by the native-transfer and the token-transfer loop; the
    two differ in the amount they record only. *)
Definition scanTransfer (tx : Tx.t) (walletAddress : string)
  (from to : string) (amt : float) (st : Acc) : Acc :=
  let st1 :=
    match findCEXAddress from with
    | Some cexMatch =>
        if String.eqb to walletAddress
        then pushDeposit st tx cexMatch (Some amt) else st
    | None => st
    end in
  match findCEXAddress to with
  | Some cexMatchTo =>
      if String.eqb from walletAddress
      then pushWithdrawal st1 tx cexMatchTo (Some amt) else st1
  | None => st1
  end.

Definition scanNative (tx : Tx.t) (walletAddress : string) (st : Acc)
  (transfer : NativeTransfer.t) : Acc :=
  scanTransfer tx walletAddress
    (NativeTransfer.fromUserAccount transfer)
    (NativeTransfer.toUserAccount transfer)
    (PrimFloat.div (NativeTransfer.amount transfer) 1e9%float) st.

Definition scanToken (tx : Tx.t) (walletAddress : string) (st : Acc)
  (transfer : TokenTransfer.t) : Acc :=
  scanTransfer tx walletAddress
    (TokenTransfer.fromUserAccount transfer)
    (TokenTransfer.toUserAccount transfer)
    (TokenTransfer.tokenAmount transfer) st.

(** The two transfer loops of one transaction. *)
Definition scanTransfers (walletAddress : string) (st : Acc) (tx : Tx.t)
  : Acc :=
  fold_left (scanToken tx walletAddress) (Tx.tokenTransfers tx)
    (fold_left (scanNative tx walletAddress) (Tx.nativeTransfers tx) st).

Definition scanFeePayer (walletAddress : string) (st : Acc) (tx : Tx.t)
  : Acc :=
  match findCEXAddress (Tx.feePayer tx) with
  | Some feePayerMatch =>
      if negb (String.eqb (Tx.feePayer tx) walletAddress) then
        let alreadyTracked :=
          existsb (fun d => String.eqb (signature d) (Tx.signature tx))
            (acc_deposits st) in
        if negb alreadyTracked
        then pushDeposit st tx feePayerMatch None else st
      else st
  | None => st
  end.

Definition scanTx (walletAddress : string) (st : Acc) (tx : Tx.t) : Acc :=
  scanFeePayer walletAddress (scanTransfers walletAddress st tx) tx.

Definition len {A : Type} (l : list A) : Z := Z.of_nat (List.length l).

(** The [try] body raises nothing on transactions of the declared type, so
    the [catch] default is never taken and is not part of the model. *)
Definition detectCEXTransactions (transactions : list Tx.t)
  (walletAddress : string) : CEXDetectionResult :=
  let st := fold_left (scanTx walletAddress) transactions acc0 in
  let deposits := acc_deposits st in
  let withdrawals := acc_withdrawals st in
  let depositRisk := len deposits * 15 in
  let withdrawalRisk := len withdrawals * 10 in
  let riskContribution := Z.min (depositRisk + withdrawalRisk) 50 in
  mkResult
    ((len deposits >? 0) || (len withdrawals >? 0))
    deposits
    withdrawals
    (len deposits + len withdrawals)
    (exchangesSet st)
    riskContribution.

(** The default result of the [catch] branch and of the engine's error
    report. *)
Definition emptyResult : CEXDetectionResult := mkResult false [] [] 0 [] 0.

(** *** Vocabulary of the fee-payer rule *)

(** Deposit records the transfer loops alone make for [tx]. *)
Definition transferDeposits (walletAddress : string) (tx : Tx.t)
  : list CEXTransaction :=
  acc_deposits (scanTransfers walletAddress acc0 tx).

Definition transferWithdrawals (walletAddress : string) (tx : Tx.t)
  : list CEXTransaction :=
  acc_withdrawals (scanTransfers walletAddress acc0 tx).

(** [tx] is captured by the transfer scan: it made a record of either kind. *)
Definition capturedByTransfers (walletAddress : string) (tx : Tx.t) : bool :=
  match transferDeposits walletAddress tx,
        transferWithdrawals walletAddress tx with
  | [], [] => false
  | _, _ => true
  end.

(** The record the fee-payer rule makes; it is the only kind without an
    amount. *)
Definition feePayerRecord (tx : Tx.t) (m : CexEntry) : CEXTransaction :=
  mkCexTx (Tx.signature tx) (Tx.timestamp tx) (Constants.name m)
    (Constants.address m) deposit None.

Definition isFeePayerRecord (d : CEXTransaction) : bool :=
  match amount d with None => true | Some _ => false end.

Definition sameSignature (tx : Tx.t) (d : CEXTransaction) : bool :=
  String.eqb (signature d) (Tx.signature tx).

(** The deposit records of a result that belong to [tx]. *)
Definition depositsOf (r : CEXDetectionResult) (tx : Tx.t)
  : list CEXTransaction :=
  filter (sameSignature tx) (deposits r).

(** The fee payer of [tx] is a registry address other than the target. *)
Definition feePayerIsCEX (walletAddress : string) (tx : Tx.t)
  : option CexEntry :=
  match findCEXAddress (Tx.feePayer tx) with
  | Some m =>
      if negb (String.eqb (Tx.feePayer tx) walletAddress)
      then Some m else None
  | None => None
  end.

(** [generateCEXWarnings] *)
Definition generateCEXWarnings (result : CEXDetectionResult) : list string :=
  map (fun d =>
         ("Direct deposit from " ++ exchangeName d ++ " detected. "
          ++ "This links your CEX KYC identity to this wallet.")%string)
    (deposits result)
  ++ map (fun d =>
            ("Withdrawal to " ++ exchangeName d ++ " detected. "
             ++ "Your wallet activity is now linked to your exchange account.")%string)
       (withdrawals result).

End Cex.

(* ================================================================= *)
(** ** detectors/clustering *)

Module Clustering.
Import Constants.

Record AddressFrequency := mkFreq {
  address : string;
  count : Z;
  percentage : float
}.

Inductive ClusterPattern :=
  | none
  | single_counterparty
  | small_cluster
  | wash_trading
  | funnel.

Definition pattern_eqb (a b : ClusterPattern) : bool :=
  match a, b with
  | none, none | single_counterparty, single_counterparty
  | small_cluster, small_cluster | wash_trading, wash_trading
  | funnel, funnel => true
  | _, _ => false
  end.

Record ClusteringResult := mkResult {
  detected : bool;
  clusteringPercentage : float;
  topAddresses : list AddressFrequency;
  dominantAddress : option string;
  totalUniqueAddresses : Z;
  totalTransactions : Z;
  riskContribution : Z;
  pattern : ClusterPattern
}.

Definition len {A : Type} (l : list A) : Z := Z.of_nat (List.length l).

(** [Math.floor] of a finite number, as a whole number. *)
Definition floor (f : float) : Z :=
  match Prim2SF f with
  | S754_finite s m e =>
      let v := if s then Z.neg m else Z.pos m in
      if 0 <=? e then v * 2 ^ e else v / 2 ^ (- e)
  | _ => 0
  end.

(** The side of a transfer that is taken as the counterparty. *)
Definition otherAddress (walletAddress from to : string) : string :=
  if String.eqb from walletAddress then to else from.

(** [addressCounts] and [totalInteractions]. *)
Definition Counts : Type := (JS.Map.t Z * Z)%type.

Definition countTransfer (walletAddress : string) (from to : string)
  (st : Counts) : Counts :=
  let '(addressCounts, totalInteractions) := st in
  let other := otherAddress walletAddress from to in
  if JS.truthy other && negb (String.eqb other walletAddress) then
    (JS.Map.set addressCounts other
       (match JS.Map.get addressCounts other with
        | Some n => n
        | None => 0
        end + 1),
     totalInteractions + 1)
  else st.

Definition countNative (walletAddress : string) (st : Counts)
  (transfer : NativeTransfer.t) : Counts :=
  countTransfer walletAddress (NativeTransfer.fromUserAccount transfer)
    (NativeTransfer.toUserAccount transfer) st.

Definition countToken (walletAddress : string) (st : Counts)
  (transfer : TokenTransfer.t) : Counts :=
  countTransfer walletAddress (TokenTransfer.fromUserAccount transfer)
    (TokenTransfer.toUserAccount transfer) st.

Definition countTx (walletAddress : string) (st : Counts) (tx : Tx.t)
  : Counts :=
  fold_left (countToken walletAddress) (Tx.tokenTransfers tx)
    (fold_left (countNative walletAddress) (Tx.nativeTransfers tx) st).

Definition countInteractions (transactions : list Tx.t)
  (walletAddress : string) : Counts :=
  fold_left (countTx walletAddress) transactions (JS.Map.empty, 0).

(** [arr.reduce((sum, a) => sum + a.percentage, 0)] *)
Definition sumPercentage (l : list AddressFrequency) : float :=
  fold_left (fun sum a => PrimFloat.add sum (percentage a)) l 0%float.

Definition detectPattern (sortedAddresses : list AddressFrequency)
  (totalInteractions : Z) : ClusterPattern :=
  match sortedAddresses with
  | [] => none
  | firstAddress :: _ =>
      if JS.geb (percentage firstAddress) 50%float then single_counterparty
      else if (len sortedAddresses >=? 3)
              && JS.geb (sumPercentage (firstn 3 sortedAddresses)) 80%float
      then small_cluster
      else if (len sortedAddresses >=? 10)
              && JS.geb (sumPercentage (firstn 5 sortedAddresses)) 70%float
      then funnel
      else none
  end.

(** [(count / totalInteractions) * 100] *)
Definition percentageOf (count totalInteractions : Z) : float :=
  PrimFloat.mul (PrimFloat.div (JS.ofZ count) (JS.ofZ totalInteractions))
    100%float.

Definition sortedAddressesOf (addressCounts : JS.Map.t Z)
  (totalInteractions : Z) : list AddressFrequency :=
  map (fun e => mkFreq (fst e) (snd e) (percentageOf (snd e) totalInteractions))
    (JS.sort (fun a b : string * Z => snd b - snd a) addressCounts).

(** The risk contribution by pattern; [0x1.6666666666666p-1] is the binary64
    value of the literal [0.7]. *)
Definition riskOf (clusteringDetected : bool) (pattern : ClusterPattern) : Z :=
  if clusteringDetected then
    match pattern with
    | single_counterparty => POINT_DEDUCTIONS.CLUSTER_DETECTED
    | wash_trading => POINT_DEDUCTIONS.CLUSTER_DETECTED + 10
    | small_cluster =>
        floor (PrimFloat.mul (JS.ofZ POINT_DEDUCTIONS.CLUSTER_DETECTED)
                 0x1.6666666666666p-1%float)
    | funnel =>
        floor (PrimFloat.mul (JS.ofZ POINT_DEDUCTIONS.CLUSTER_DETECTED)
                 0.5%float)
    | none => POINT_DEDUCTIONS.HIGH_FREQUENCY_SAME_ADDR
    end
  else 0.

(** The [try] body raises nothing on transactions of the declared type; the
    [catch] default is [emptyResult] below with the transaction count. *)
Definition detectClustering (transactions : list Tx.t)
  (walletAddress : string) : ClusteringResult :=
  let '(addressCounts, totalInteractions) :=
    countInteractions transactions walletAddress in
  if totalInteractions <? ANALYSIS_CONFIG.MIN_TRANSACTIONS_FOR_PATTERN then
    mkResult false 0%float [] None (JS.Map.size addressCounts)
      (len transactions) 0 none
  else
    let sortedAddresses := sortedAddressesOf addressCounts totalInteractions in
    let topAddresses := firstn 5 sortedAddresses in
    let firstAddress := hd_error topAddresses in
    let dominantAddress :=
      match firstAddress with Some a => Some (address a) | None => None end in
    let highestPercentage :=
      match firstAddress with Some a => percentage a | None => 0%float end in
    let pattern := detectPattern sortedAddresses totalInteractions in
    let clusteringDetected :=
      JS.geb highestPercentage
        (JS.ofZ ANALYSIS_CONFIG.CLUSTER_THRESHOLD_PERCENTAGE)
      || negb (pattern_eqb pattern none) in
    mkResult clusteringDetected highestPercentage topAddresses
      dominantAddress (JS.Map.size addressCounts) (len transactions)
      (riskOf clusteringDetected pattern) pattern.

Definition emptyResult : ClusteringResult :=
  mkResult false 0%float [] None 0 0 0 none.

(** *** Wash trading *)

Record Timeline := mkTimeline { sent : list Z; received : list Z }.

Definition newTimeline : Timeline := mkTimeline [] [].

Record WashTradePair := mkPair {
  pair_address : string;
  sendCount : Z;
  receiveCount : Z;
  pair_alternations : Z
}.

Record WashTradingResult := mkWash {
  wash_detected : bool;
  pairs : list WashTradePair
}.

Definition timelineAt (m : JS.Map.t Timeline) (k : string) : Timeline :=
  match JS.Map.get m k with Some t => t | None => newTimeline end.

Definition recordTransfer (walletAddress : string) (timestamp : Z)
  (addressTimelines : JS.Map.t Timeline) (transfer : NativeTransfer.t)
  : JS.Map.t Timeline :=
  let from := NativeTransfer.fromUserAccount transfer in
  let to := NativeTransfer.toUserAccount transfer in
  let m1 :=
    if String.eqb from walletAddress && JS.truthy to then
      let timeline := timelineAt addressTimelines to in
      JS.Map.set addressTimelines to
        (mkTimeline (JS.push (sent timeline) timestamp) (received timeline))
    else addressTimelines in
  if String.eqb to walletAddress && JS.truthy from then
    let timeline := timelineAt m1 from in
    JS.Map.set m1 from
      (mkTimeline (sent timeline) (JS.push (received timeline) timestamp))
  else m1.

Definition recordTx (walletAddress : string)
  (addressTimelines : JS.Map.t Timeline) (tx : Tx.t) : JS.Map.t Timeline :=
  fold_left (recordTransfer walletAddress (Tx.timestamp tx))
    (Tx.nativeTransfers tx) addressTimelines.

Definition buildTimelines (transactions : list Tx.t) (walletAddress : string)
  : JS.Map.t Timeline :=
  fold_left (recordTx walletAddress) transactions JS.Map.empty.

Inductive Kind := Sent | Received.

Definition kind_eqb (a b : Kind) : bool :=
  match a, b with
  | Sent, Sent | Received, Received => true
  | _, _ => false
  end.

(** [{ t, type }] *)
Definition Stamp : Type := (Z * Kind)%type.

(** The merged timeline: sent stamps, then received ones, sorted by time. *)
Definition allTimestamps (timeline : Timeline) : list Stamp :=
  JS.sort (fun a b : Stamp => fst a - fst b)
    (map (fun t => (t, Sent)) (sent timeline)
     ++ map (fun t => (t, Received)) (received timeline)).

(** Adjacent stamps of differing type. *)
Fixpoint alternations (l : list Stamp) : Z :=
  match l with
  | previous :: (current :: _) as rest =>
      (if kind_eqb (snd current) (snd previous) then 0 else 1)
      + alternations rest
  | _ => 0
  end.

Definition checkPair (pairs : list WashTradePair)
  (entry : string * Timeline) : list WashTradePair :=
  let '(address, timeline) := entry in
  if (len (sent timeline) >=? 2) && (len (received timeline) >=? 2) then
    let alternations := alternations (allTimestamps timeline) in
    if alternations >=? 3 then
      JS.push pairs
        (mkPair address (len (sent timeline)) (len (received timeline))
           alternations)
    else pairs
  else pairs.

Definition detectWashTrading (transactions : list Tx.t)
  (walletAddress : string) : WashTradingResult :=
  let addressTimelines := buildTimelines transactions walletAddress in
  let pairs := fold_left checkPair addressTimelines [] in
  mkWash (len pairs >? 0) pairs.

(** [generateClusteringWarnings]; [toFixed] is [Number.prototype.toFixed],
    whose decimal rendering of a binary64 is taken as given. *)
Definition generateClusteringWarnings (toFixed : float -> Z -> string)
  (result : ClusteringResult) : list string :=
  if negb (detected result) then []
  else
    match pattern result with
    | single_counterparty =>
        [(toFixed (clusteringPercentage result) 1
          ++ "% of transactions are with a single address. "
          ++ "This creates a clear link between your wallets.")%string]
    | small_cluster =>
        [("Your transactions are concentrated among just "
          ++ JS.showZ (len (topAddresses result)) ++ " addresses. "
          ++ "This clustering pattern can be used to link your wallets.")%string]
    | wash_trading =>
        [("Suspicious back-and-forth transaction pattern detected. "
          ++ "This behavior is easily identifiable on-chain.")%string]
    | funnel =>
        [("Funnel pattern detected: many sources funneling to few destinations. "
          ++ "This pattern suggests wallet consolidation.")%string]
    | none => []
    end.

End Clustering.

(* ================================================================= *)
(** ** detectors/assets *)

Module Assets.
Import Constants.

Inductive AssetType := nft | poap | badge | domain.

Record NFTAsset := mkAsset {
  mint : string;
  type : AssetType;
  name : option string;
  receivedTimestamp : option Z
}.

Inductive ExposureLevel := none | low | medium | high.

Record AssetsDetectionResult := mkResult {
  detected : bool;
  nftsDetected : list NFTAsset;
  solDomainsDetected : list string;
  poapsDetected : list NFTAsset;
  identityExposureLevel : ExposureLevel;
  riskContribution : Z
}.

Definition POAP_INDICATORS : list string :=
  [ "poap"; "proof of attendance"; "event"; "badge"; "attendance";
    "participated"; "hackathon"; "conference"; "meetup" ]%string.

Definition SNS_PROGRAM_ID : string :=
  "namesLPneVptA9Z5rqUDD9tMTWEJwofgaYwp8cawRkX".
Definition BONFIDA_PROGRAM_ID : string :=
  "jCebN34bUfdeUYJT13J1yG16XWQpt5PDx6Mse9GUqhR".

Definition len {A : Type} (l : list A) : Z := Z.of_nat (List.length l).

Definition isPOAPorBadge (description : string) : bool :=
  let lowerDesc := JS.toLowerCase description in
  existsb (fun indicator => JS.includes lowerDesc indicator) POAP_INDICATORS.

Definition isSOLDomainTransaction (tx : Tx.t) : bool :=
  let description := JS.toLowerCase (Tx.description tx) in
  JS.includes description ".sol"
  || JS.includes description "domain"
  || JS.includes description "name service"
  || existsb (fun account => String.eqb account SNS_PROGRAM_ID
                             || String.eqb account BONFIDA_PROGRAM_ID)
       (Tx.accountData tx).

(** The character class [[a-zA-Z0-9_-]]. *)
Definition isDomainChar (c : ascii) : bool :=
  let n := JS.charCode c in
  ((97 <=? n) && (n <=? 122)) || ((65 <=? n) && (n <=? 90))
  || ((48 <=? n) && (n <=? 57)) || (n =? 95) || (n =? 45).

(** The longest prefix of class characters, and what follows it. *)
Fixpoint spanDomainChars (s : string) : string * string :=
  match s with
  | EmptyString => (EmptyString, EmptyString)
  | String c rest =>
      if isDomainChar c
      then let '(run, after) := spanDomainChars rest in (String c run, after)
      else (EmptyString, s)
  end.

(** [description.match(/([a-zA-Z0-9_-]+\.sol)/)]: the leftmost match.  The
    dot is outside the class, so at each start only the longest run of class
    characters can be followed by ".sol". *)
Fixpoint matchSolDomain (s : string) : option string :=
  match s with
  | EmptyString => None
  | String _ rest =>
      let '(run, after) := spanDomainChars s in
      if negb (String.eqb run "") && String.prefix ".sol" after
      then Some (run ++ ".sol")%string
      else matchSolDomain rest
  end.

Definition extractDomainName (tx : Tx.t) : option string :=
  matchSolDomain (Tx.description tx).

Definition calculateExposureLevel (nftCount poapCount domainCount : Z)
  : ExposureLevel :=
  let totalScore := nftCount + (poapCount * 2) + (domainCount * 3) in
  if totalScore =? 0 then none
  else if totalScore <=? 2 then low
  else if totalScore <=? 5 then medium
  else high.

(** The three accumulators of [detectIdentityAssets]. *)
Record Acc := mkAcc {
  acc_nfts : list NFTAsset;
  acc_domains : list string;
  acc_poaps : list NFTAsset
}.

Definition acc0 : Acc := mkAcc [] [] [].

Definition hasMint (m : string) (l : list NFTAsset) : bool :=
  existsb (fun a => String.eqb (mint a) m) l.

Section Detector.

(** [extractNFTName] picks a display name out of the description with three
    regular expressions; the name is never read again by the pipeline, and
    the function is taken as given. *)
Variable extractNFTName : string -> option string.

(** The loop over [nftEvent.nfts]: every entry is pushed. *)
Definition pushEventNft (tx : Tx.t) (st : Acc) (n : NftRef.t) : Acc :=
  let isPOAP := isPOAPorBadge (Tx.description tx) in
  if isPOAP then
    mkAcc (acc_nfts st) (acc_domains st)
      (JS.push (acc_poaps st)
         (mkAsset (NftRef.mint n) poap (extractNFTName (Tx.description tx))
            (Some (Tx.timestamp tx))))
  else
    mkAcc
      (JS.push (acc_nfts st)
         (mkAsset (NftRef.mint n) nft (extractNFTName (Tx.description tx))
            (Some (Tx.timestamp tx))))
      (acc_domains st) (acc_poaps st).

Definition scanNftEvent (walletAddress : string) (st : Acc) (tx : Tx.t)
  : Acc :=
  match Tx.nft tx with
  | Some nftEvent =>
      if match NftEvent.buyer nftEvent with
         | Some b => String.eqb b walletAddress
         | None => false
         end
         || JS.includes (JS.toLowerCase (Tx.description tx)) "received"
      then fold_left (pushEventNft tx) (NftEvent.nfts nftEvent) st
      else st
  | None => st
  end.

Definition scanDomain (st : Acc) (tx : Tx.t) : Acc :=
  if isSOLDomainTransaction tx then
    match extractDomainName tx with
    | Some domainName =>
        if JS.truthy domainName
           && negb (JS.arrIncludes (acc_domains st) domainName)
        then mkAcc (acc_nfts st) (JS.push (acc_domains st) domainName)
               (acc_poaps st)
        else st
    | None => st
    end
  else st.

(** The loop over token transfers: a mint already listed is skipped. *)
Definition scanTokenTransfer (walletAddress : string) (tx : Tx.t) (st : Acc)
  (transfer : TokenTransfer.t) : Acc :=
  if String.eqb (TokenTransfer.toUserAccount transfer) walletAddress
     && PrimFloat.eqb (TokenTransfer.tokenAmount transfer) 1%float
     && String.eqb (TokenTransfer.tokenStandard transfer) "NonFungible"
  then
    let isPOAP := isPOAPorBadge (Tx.description tx) in
    if isPOAP then
      let existing := hasMint (TokenTransfer.mint transfer) (acc_poaps st) in
      if negb existing then
        mkAcc (acc_nfts st) (acc_domains st)
          (JS.push (acc_poaps st)
             (mkAsset (TokenTransfer.mint transfer) poap None
                (Some (Tx.timestamp tx))))
      else st
    else
      let existing := hasMint (TokenTransfer.mint transfer) (acc_nfts st) in
      if negb existing then
        mkAcc
          (JS.push (acc_nfts st)
             (mkAsset (TokenTransfer.mint transfer) nft None
                (Some (Tx.timestamp tx))))
          (acc_domains st) (acc_poaps st)
      else st
  else st.

Definition scanTx (walletAddress : string) (st : Acc) (tx : Tx.t) : Acc :=
  fold_left (scanTokenTransfer walletAddress tx) (Tx.tokenTransfers tx)
    (scanDomain (scanNftEvent walletAddress st tx) tx).

(** The [try] body raises nothing on transactions of the declared type; the
    [catch] default is [emptyResult] below. *)
Definition detectIdentityAssets (transactions : list Tx.t)
  (walletAddress : string) : AssetsDetectionResult :=
  let st := fold_left (scanTx walletAddress) transactions acc0 in
  let nftsDetected := acc_nfts st in
  let solDomainsDetected := acc_domains st in
  let poapsDetected := acc_poaps st in
  let identityExposureLevel :=
    calculateExposureLevel (len nftsDetected) (len poapsDetected)
      (len solDomainsDetected) in
  let riskContribution :=
    Z.min
      (0 + len poapsDetected * POINT_DEDUCTIONS.NFT_POAP_EXPOSED
       + len solDomainsDetected * POINT_DEDUCTIONS.SOL_DOMAIN_EXPOSED)
      30 in
  let detected :=
    (len nftsDetected >? 0) || (len poapsDetected >? 0)
    || (len solDomainsDetected >? 0) in
  mkResult detected nftsDetected solDomainsDetected poapsDetected
    identityExposureLevel riskContribution.

End Detector.

Definition emptyResult : AssetsDetectionResult :=
  mkResult false [] [] [] none 0.

(** How many entries of a list carry the mint [m]. *)
Definition occurrences (m : string) (l : list NFTAsset) : Z :=
  len (filter (fun a => String.eqb (mint a) m) l).

(** [generateAssetWarnings] *)
Definition generateAssetWarnings (result : AssetsDetectionResult)
  : list string :=
  (if len (poapsDetected result) >? 0
   then [(JS.showZ (len (poapsDetected result))
          ++ " POAPs/event badges detected. "
          ++ "These can reveal your real-world identity and event attendance.")%string]
   else [])
  ++ map (fun domain =>
            (".sol domain " ++ JS.quote ++ domain ++ JS.quote
             ++ " linked to this wallet. "
             ++ "Domains are public and can deanonymize your wallet.")%string)
       (solDomainsDetected result)
  ++ (if len (nftsDetected result) >=? 5
      then [(JS.showZ (len (nftsDetected result)) ++ " NFTs detected. "
             ++ "NFT ownership patterns can be used for fingerprinting.")%string]
      else []).

End Assets.

(* ================================================================= *)
(** ** services/range: the compliance mock *)

Module Range.

Inductive RiskStatus := Clean | Sanctioned | Flagged | Unknown.

Record Details := mkDetails {
  sanctionLists : list string;
  flags : list string;
  linkedToMixer : bool;
  linkedToExploit : bool
}.

(** [checkedAt] is [new Date()]: the clock at the time of the call. *)
Record RangeCheckResult := mkResult {
  address : string;
  status : RiskStatus;
  riskScore : Z;
  checkedAt : Z;
  details : Details
}.

Definition MOCK_SANCTIONED_ADDRESSES : list string :=
  [ "7eEqn3zGpQqq8fYjzqhfvwRRRVrBe3D3P4YfZ12GsAC1";
    "CnK9VjRNgSJcq1UR89J8RmMNPSYKe2qkM4eRLmWMKPxn";
    "Hp9SQbMoEhN9GwK1fY8xEyJBpDHZtCxXhpKA5KZjKekW" ]%string.

Definition MOCK_FLAGGED_ADDRESSES : list string :=
  [ "E6tYH8TcVpzWS7YfcM9cKH8NbxRcPQjKJqvUTWKD9FqN";
    "3JQRMn5sFjE7M3YPdCkL8KZKvN2qnhXTxmRYJWPsZKaB" ]%string.

(** [ToInt32]: wrap-around to a signed 32-bit integer. *)
Definition toInt32 (z : Z) : Z := (z + 2 ^ 31) mod 2 ^ 32 - 2 ^ 31.

(** [a << n] *)
Definition shl (a n : Z) : Z := toInt32 (Z.shiftl (toInt32 a) n).

(** [a & b] *)
Definition band (a b : Z) : Z := Z.land (toInt32 a) (toInt32 b).

Definition hashStep (hash : Z) (c : ascii) : Z :=
  let char := JS.charCode c in
  let hash := shl hash 5 - hash + char in
  band hash hash.

Definition hashAddress (address : string) : Z :=
  Z.abs (fold_left hashStep (list_ascii_of_string address) 0).

(** The clock is an argument: [now] is what [new Date()] reads during the
    call.  The simulated latency changes no result, and the [try] body raises
    nothing, so the [catch] default is not part of the model. *)
Definition checkRisk (now : Z) (address : string) : RangeCheckResult :=
  if negb (JS.truthy address) || (JS.strlen address <? 32)
     || (JS.strlen address >? 44) then
    mkResult address Unknown 0 now
      (mkDetails [] ["Invalid address format"%string] false false)
  else if JS.arrIncludes MOCK_SANCTIONED_ADDRESSES address then
    mkResult address Sanctioned 100 now
      (mkDetails ["OFAC SDN"; "EU Sanctions List"]%string
         ["Linked to illicit activities"; "On government watchlist"]%string
         true false)
  else if JS.arrIncludes MOCK_FLAGGED_ADDRESSES address then
    mkResult address Flagged 65 now
      (mkDetails []
         ["Suspicious activity patterns"; "Under investigation"]%string
         false false)
  else
    let deterministicSeed := hashAddress address in
    let baseRiskScore := Z.rem deterministicSeed 30 in
    mkResult address Clean baseRiskScore now (mkDetails [] [] false false).

Record AddressRisks := mkRisks {
  sanctionedAddresses : list string;
  flaggedAddresses : list string;
  totalChecked : Z
}.

Definition checkOne (now : Z) (acc : list string * list string)
  (entry : string * Z) : list string * list string :=
  let '(sanctionedAddresses, flaggedAddresses) := acc in
  let address := fst entry in
  let result := checkRisk now address in
  match status result with
  | Sanctioned => (JS.push sanctionedAddresses address, flaggedAddresses)
  | Flagged => (sanctionedAddresses, JS.push flaggedAddresses address)
  | _ => acc
  end.

Definition checkInteractingAddresses (now : Z) (addresses : JS.Map.t Z)
  : AddressRisks :=
  let '(sanctionedAddresses, flaggedAddresses) :=
    fold_left (checkOne now) addresses ([], []) in
  mkRisks sanctionedAddresses flaggedAddresses (JS.Map.size addresses).

End Range.

(* ================================================================= *)
(** ** services/helius: what the engine asks of the service *)

Module Helius.

(** The collaborators behind [HeliusService]: whether the API key was
    loaded, the fetched history, and the balance lookup.  The two lookups
    catch their own failures in the source and always answer. *)
Record Service := mkService {
  isReady : bool;
  getHistory : string -> Z -> list Tx.t;
  getBalance : string -> float
}.

Definition countAddress (walletAddress : string) (from to : string)
  (addressCounts : JS.Map.t Z) : JS.Map.t Z :=
  let otherAddress := if String.eqb from walletAddress then to else from in
  if JS.truthy otherAddress && negb (String.eqb otherAddress walletAddress)
  then
    JS.Map.set addressCounts otherAddress
      (match JS.Map.get addressCounts otherAddress with
       | Some n => n
       | None => 0
       end + 1)
  else addressCounts.

Definition countTxAddresses (walletAddress : string)
  (addressCounts : JS.Map.t Z) (tx : Tx.t) : JS.Map.t Z :=
  fold_left
    (fun m tr => countAddress walletAddress
                   (TokenTransfer.fromUserAccount tr)
                   (TokenTransfer.toUserAccount tr) m)
    (Tx.tokenTransfers tx)
    (fold_left
       (fun m tr => countAddress walletAddress
                      (NativeTransfer.fromUserAccount tr)
                      (NativeTransfer.toUserAccount tr) m)
       (Tx.nativeTransfers tx) addressCounts).

Definition getInteractingAddresses (transactions : list Tx.t)
  (walletAddress : string) : JS.Map.t Z :=
  fold_left (countTxAddresses walletAddress) transactions JS.Map.empty.

End Helius.

(* ================================================================= *)
(** ** engine *)

Module Engine.
Import Constants.

Inductive Severity := low | medium | high | critical.

Record Warning := mkWarning {
  severity : Severity;
  category : string;
  message : string
}.

Record DetectorResults := mkDetectors {
  cex : Cex.CEXDetectionResult;
  clustering : Clustering.ClusteringResult;
  assets : Assets.AssetsDetectionResult;
  compliance : Range.RangeCheckResult;
  interactingAddressRisks : Range.AddressRisks
}.

(** Of [PrivacyReport] the model keeps the fields below; the recommended
    actions, the timing metadata and the financial-exposure display figures
    are left out. *)
Record PrivacyReport := mkReport {
  walletAddress : string;
  analyzedAt : Z;
  balance : float;
  transactionsAnalyzed : Z;
  score : Z;
  riskLevel : RiskLevel;
  riskDescription : string;
  warnings : list Warning;
  detectorResults : DetectorResults
}.

Record ScoreInput := mkInput {
  cexResult : Cex.CEXDetectionResult;
  clusteringResult : Clustering.ClusteringResult;
  assetsResult : Assets.AssetsDetectionResult;
  complianceResult : Range.RangeCheckResult;
  addressRisks : Range.AddressRisks;
  washTradingDetected : bool
}.

Record Deduction := mkDeduction { reason : string; points : Z }.

Record ScoreOutput := mkOutput {
  out_score : Z;
  deductions : list Deduction
}.

Definition len {A : Type} (l : list A) : Z := Z.of_nat (List.length l).

Definition patternName (p : Clustering.ClusterPattern) : string :=
  match p with
  | Clustering.none => "none"
  | Clustering.single_counterparty => "single_counterparty"
  | Clustering.small_cluster => "small_cluster"
  | Clustering.wash_trading => "wash_trading"
  | Clustering.funnel => "funnel"
  end.

(** [score -= points; deductions.push({ reason, points })] *)
Definition deduct (st : ScoreOutput) (reason : string) (points : Z)
  : ScoreOutput :=
  mkOutput (out_score st - points)
    (JS.push (deductions st) (mkDeduction reason points)).

Definition calculatePrivacyScore (input : ScoreInput) : ScoreOutput :=
  let st := mkOutput 100 [] in
  let st :=
    if Cex.riskContribution (cexResult input) >? 0 then
      deduct st
        ("CEX activity ("
         ++ JS.showZ (Cex.totalCEXTransactions (cexResult input))
         ++ " transactions)")%string
        (Cex.riskContribution (cexResult input))
    else st in
  let st :=
    if Clustering.riskContribution (clusteringResult input) >? 0 then
      deduct st
        ("Clustering pattern: "
         ++ patternName (Clustering.pattern (clusteringResult input)))%string
        (Clustering.riskContribution (clusteringResult input))
    else st in
  let st :=
    if Assets.riskContribution (assetsResult input) >? 0 then
      deduct st "Identity-revealing assets"
        (Assets.riskContribution (assetsResult input))
    else st in
  let st :=
    match Range.status (complianceResult input) with
    | Range.Sanctioned => deduct st "Wallet on sanctions list" 50
    | Range.Flagged => deduct st "Wallet flagged for suspicious activity" 25
    | _ => st
    end in
  let st :=
    if len (Range.sanctionedAddresses (addressRisks input)) >? 0 then
      let penalty :=
        Z.min (len (Range.sanctionedAddresses (addressRisks input)) * 20) 40 in
      deduct st
        ("Interacted with "
         ++ JS.showZ (len (Range.sanctionedAddresses (addressRisks input)))
         ++ " sanctioned address(es)")%string
        penalty
    else st in
  let st :=
    if washTradingDetected input then
      deduct st "Wash trading pattern detected" 15
    else st in
  mkOutput (Z.max 0 (Z.min 100 (out_score st))) (deductions st).

Definition determineRiskLevel (score : Z) : RiskLevel :=
  if score <=? SCORE_THRESHOLDS.CRITICAL then CRITICAL
  else if score <=? SCORE_THRESHOLDS.HIGH then HIGH
  else if score <=? SCORE_THRESHOLDS.MEDIUM then MEDIUM
  else LOW.

Definition getRiskDescription (level : RiskLevel) : string :=
  match level with
  | CRITICAL =>
      "Critical privacy risk. Your wallet is highly traceable and may be linked to your identity."
  | HIGH =>
      "High privacy risk. Significant linkages exist that could compromise your anonymity."
  | MEDIUM =>
      "Moderate privacy risk. Some patterns could be used to link your activities."
  | LOW => "Good privacy posture. Minimal identifiable patterns detected."
  end.

(** The character class [[1-9A-HJ-NP-Za-km-z]]. *)
Definition isBase58Char (c : ascii) : bool :=
  let n := JS.charCode c in
  ((49 <=? n) && (n <=? 57))
  || ((65 <=? n) && (n <=? 72)) || ((74 <=? n) && (n <=? 78))
  || ((80 <=? n) && (n <=? 90))
  || ((97 <=? n) && (n <=? 107)) || ((109 <=? n) && (n <=? 122)).

(** [/^[1-9A-HJ-NP-Za-km-z]{32,44}$/.test(address)] *)
Definition isValidSolanaAddress (address : string) : bool :=
  forallb isBase58Char (list_ascii_of_string address)
  && (32 <=? JS.strlen address) && (JS.strlen address <=? 44).

(** [generateMockTransactions]; every [Date.now()] reads [now]. *)
Definition generateMockTransactions (now : Z) (walletAddress : string)
  : list Tx.t :=
  [ Tx.mk "mock_sig_1" (now - 86400000) "Transferred 1 SOL" walletAddress
      [] []
      [NativeTransfer.mk "5tzFkiKscXHK5ZXCGbXZxdw7gTjjD1mBwuoFbhUvuAi9"
         walletAddress 1000000000%float]
      None;
    Tx.mk "mock_sig_2" (now - 172800000) "Transferred 0.5 SOL" walletAddress
      [] []
      [NativeTransfer.mk walletAddress
         "RandomAddr123456789012345678901234567890123" 500000000%float]
      None;
    Tx.mk "mock_sig_3" (now - 259200000) "Received Hackathon POAP Badge"
      walletAddress []
      [TokenTransfer.mk "MockMint123456789012345678901234567890" 1%float
         "MinterAddress12345678901234567890123456" walletAddress
         "NonFungible"]
      []
      (Some (NftEvent.mk "Minted Hackathon POAP Badge" (Some walletAddress)
               [NftRef.mk "MockMint123456789012345678901234567890"
                  "NonFungible"])) ].

Section Analysis.

(** The parts of the host taken as given: [Number.prototype.toFixed], the
    name extraction of the asset detector, the Helius service, and the clock
    (one reading per analysis). *)
Variable toFixed : float -> Z -> string.
Variable extractNFTName : string -> option string.
Variable heliusService : Helius.Service.
Variable now : Z.

(** [collectWarnings]; the warning-sign emoji that opens the sanctions
    message lies outside the code units of the model and is left out. *)
Definition collectWarnings (cexResult : Cex.CEXDetectionResult)
  (clusteringResult : Clustering.ClusteringResult)
  (assetsResult : Assets.AssetsDetectionResult)
  (complianceResult : Range.RangeCheckResult)
  (addressRisks : Range.AddressRisks) : list Warning :=
  map (mkWarning high "CEX") (Cex.generateCEXWarnings cexResult)
  ++ map (mkWarning medium "Clustering")
       (Clustering.generateClusteringWarnings toFixed clusteringResult)
  ++ map (mkWarning medium "Identity")
       (Assets.generateAssetWarnings assetsResult)
  ++ match Range.status complianceResult with
     | Range.Sanctioned =>
         [mkWarning critical "Compliance"
            "CRITICAL: This wallet is on a sanctions list!"]
     | Range.Flagged =>
         [mkWarning high "Compliance"
            "This wallet has been flagged for suspicious activity."]
     | _ => []
     end
  ++ (if len (Range.sanctionedAddresses addressRisks) >? 0
      then [mkWarning critical "Compliance"
              ("This wallet has interacted with "
               ++ JS.showZ (len (Range.sanctionedAddresses addressRisks))
               ++ " sanctioned address(es).")%string]
      else []).

(** What the [catch] block returns for the message of the error caught. *)
Definition errorReport (address errorMessage : string) : PrivacyReport :=
  mkReport address now 0%float 0 0 CRITICAL
    "Analysis failed - unable to assess privacy risk"
    [mkWarning critical "error" ("Analysis error: " ++ errorMessage)%string]
    (mkDetectors Cex.emptyResult Clustering.emptyResult Assets.emptyResult
       (Range.mkResult address Range.Unknown 0 now
          (Range.mkDetails [] [] false false))
       (Range.mkRisks [] [] 0)).

(** The [try] block: [inl message] is [throw new Error(message)]. *)
Definition analysis (address : string) : string + PrivacyReport :=
  if negb (isValidSolanaAddress address) then
    inl ("Invalid Solana address: " ++ address)%string
  else
    let heliusEnabled := Helius.isReady heliusService in
    let transactions :=
      if heliusEnabled
      then Helius.getHistory heliusService address
             ANALYSIS_CONFIG.MAX_TRANSACTIONS_TO_ANALYZE
      else generateMockTransactions now address in
    let realBalance := Helius.getBalance heliusService address in
    let complianceResult := Range.checkRisk now address in
    let cexResult := Cex.detectCEXTransactions transactions address in
    let clusteringResult := Clustering.detectClustering transactions address in
    let washTradingResult :=
      Clustering.detectWashTrading transactions address in
    let assetsResult :=
      Assets.detectIdentityAssets extractNFTName transactions address in
    let interactingAddresses :=
      Helius.getInteractingAddresses transactions address in
    let addressRisks :=
      Range.checkInteractingAddresses now interactingAddresses in
    let out :=
      calculatePrivacyScore
        (mkInput cexResult clusteringResult assetsResult complianceResult
           addressRisks (Clustering.wash_detected washTradingResult)) in
    let score := out_score out in
    let riskLevel := determineRiskLevel score in
    let riskDescription := getRiskDescription riskLevel in
    let warnings :=
      collectWarnings cexResult clusteringResult assetsResult
        complianceResult addressRisks in
    inr (mkReport address now realBalance (len transactions) score riskLevel
           riskDescription warnings
           (mkDetectors cexResult clusteringResult assetsResult
              complianceResult addressRisks)).

(** [analyzeWallet]: the [catch] block turns every error of the [try] block
    into a report, so the caller always gets a report. *)
Definition analyzeWallet (address : string) : PrivacyReport :=
  match analysis address with
  | inr report => report
  | inl errorMessage => errorReport address errorMessage
  end.

End Analysis.

(** The tiers from least to most severe. *)
Definition severityRank (level : RiskLevel) : Z :=
  match level with
  | LOW => 0
  | MEDIUM => 1
  | HIGH => 2
  | CRITICAL => 3
  end.

(** [clamp(x, 0, 100)] *)
Definition clamp (x : Z) : Z := Z.max 0 (Z.min 100 x).

Definition totalPoints (ds : list Deduction) : Z :=
  fold_right (fun d acc => points d + acc) 0 ds.

End Engine.

(* ================================================================= *)
(** ** The remaining functions of the detectors, the compliance mock and
       the engine *)

(** [generateCEXActions] of detectors/cex. *)
Module CexActions.
Import Cex.

Definition generateCEXActions (result : CEXDetectionResult) : list string :=
  (if len (deposits result) >? 0 then
     [ "Consider using Privacy Cash to create a clean wallet for future DeFi activities.";
       "Use intermediate wallets between CEX and your main DeFi wallet." ]%string
   else [])
  ++ (if len (withdrawals result) >? 0 then
        [ "Before depositing to CEX, route through an intermediate wallet.";
          "Consider using compliant privacy solutions like Elusiv for future transactions." ]%string
      else [])
  ++ (if len (exchangesInvolved result) >? 1 then
        [ "Multiple exchanges linked to this wallet - consider compartmentalizing with separate wallets."%string ]
      else []).

End CexActions.

(** [generateClusteringActions] of detectors/clustering. *)
Module ClusteringActions.
Import Clustering.

Definition generateClusteringActions (result : ClusteringResult)
  : list string :=
  if negb (detected result) then []
  else
    [ "Use Radr Labs to break wallet clustering patterns and obfuscate your transaction graph."%string ]
    ++ (if pattern_eqb (pattern result) single_counterparty then
          [ "Diversify your transaction patterns - use multiple intermediate wallets."%string ]
        else [])
    ++ (if pattern_eqb (pattern result) wash_trading then
          [ "Avoid repetitive back-and-forth transactions with the same address."%string ]
        else [])
    ++ [ "Consider using Elusiv for private transactions that don't create linkable patterns."%string ].

End ClusteringActions.

(** [generateAssetActions] of detectors/assets. *)
Module AssetsActions.
Import Assets.

Definition generateAssetActions (result : AssetsDetectionResult)
  : list string :=
  (if len (poapsDetected result) >? 0 then
     [ "Transfer POAPs and event badges to a separate public-facing wallet."%string ]
   else [])
  ++ (if len (solDomainsDetected result) >? 0 then
        [ "Use a dedicated public wallet for .sol domains, separate from your DeFi wallet."%string ]
      else [])
  ++ (match identityExposureLevel result with
      | high =>
          [ "Consider creating a new anonymous wallet for privacy-sensitive activities."%string ]
      | _ => []
      end).

End AssetsActions.

(** [batchCheckRisk], [quickCheck] and [shortenAddress] of services/range. *)
Module RangeBatch.
Import Range.

Definition batchCheckRisk (now : Z) (addresses : list string)
  : list RangeCheckResult :=
  fold_left (fun results address => JS.push results (checkRisk now address))
    addresses [].

Definition quickCheck (now : Z) (address : string) : RiskStatus :=
  status (checkRisk now address).

(** [address.slice(0, 6)] and [address.slice(-4)] are the first six and the
    last four code units. *)
Definition shortenAddress (address : string) : string :=
  if JS.strlen address <=? 12 then address
  else
    (substring 0 6 address ++ "..."
     ++ substring (String.length address - 4) 4 address)%string.

End RangeBatch.

(** [RECOMMENDED_TOOLS] of utils/constants and [generateRecommendations] of
    the engine. *)
Module Recommendations.
Import Constants.

Record RecommendedTool := mkTool {
  tool_name : string;
  tool_description : string;
  url : string;
  useCase : string
}.

Definition RECOMMENDED_TOOLS : list RecommendedTool :=
  [ mkTool "Privacy Cash"
      "Break the on-chain link between your wallets using Privacy Cash mixer"
      "https://privacycash.io" "CEX_DEPOSIT";
    mkTool "Radr Labs"
      "Advanced wallet obfuscation and privacy-preserving transactions"
      "https://radrlabs.io" "CLUSTER_DETECTED";
    mkTool "Range Protocol"
      "Compliance-friendly privacy layer with regulatory clarity"
      "https://range.org" "SANCTIONED_INTERACTION";
    mkTool "Elusiv"
      "Zero-knowledge private transactions on Solana"
      "https://elusiv.io" "GENERAL_PRIVACY";
    mkTool "Light Protocol"
      "ZK compression for private state on Solana"
      "https://lightprotocol.com" "GENERAL_PRIVACY" ].

Inductive Priority := low | medium | high.

Record Recommendation := mkRecommendation {
  priority : Priority;
  category : string;
  action : string;
  tool : option string;
  toolUrl : option string
}.

(** [RECOMMENDED_TOOLS.find(t => t.useCase === useCase)] *)
Definition findTool (wanted : string) : option RecommendedTool :=
  find (fun t => String.eqb (useCase t) wanted) RECOMMENDED_TOOLS.

(** [{ priority, category, action, tool: tool?.name, toolUrl: tool?.url }] *)
Definition withTool (p : Priority) (cat : string)
  (t : option RecommendedTool) (act : string) : Recommendation :=
  mkRecommendation p cat act
    (match t with Some x => Some (tool_name x) | None => None end)
    (match t with Some x => Some (url x) | None => None end).

Definition generateRecommendations (cexResult : Cex.CEXDetectionResult)
  (clusteringResult : Clustering.ClusteringResult)
  (assetsResult : Assets.AssetsDetectionResult)
  (complianceResult : Range.RangeCheckResult) (score : Z)
  : list Recommendation :=
  map (withTool high "CEX" (findTool "CEX_DEPOSIT"))
    (CexActions.generateCEXActions cexResult)
  ++ map (withTool medium "Clustering" (findTool "CLUSTER_DETECTED"))
       (ClusteringActions.generateClusteringActions clusteringResult)
  ++ map (fun act => mkRecommendation medium "Identity" act None None)
       (AssetsActions.generateAssetActions assetsResult)
  ++ (match Range.status complianceResult with
      | Range.Clean => []
      | _ =>
          [ withTool high "Compliance" (findTool "SANCTIONED_INTERACTION")
              "Consult Range Protocol for compliance review and remediation options." ]
      end)
  ++ (if score <? 50 then
        [ withTool high "General" (findTool "GENERAL_PRIVACY")
            "Consider creating a fresh wallet and using privacy-preserving tools for future transactions." ]
      else []).

End Recommendations.

(* ================================================================= *)
(** * Properties *)

(* ================================================================= *)
(** ** Properties of insertion-ordered maps and of the stable sort *)

Module JSFacts.
Import JS.

Section MapLemmas.
Context {V : Type}.
Implicit Types (m : Map.t V) (k : string) (v : V).

Lemma get_set_same m k v : Map.get (Map.set m k v) k = Some v.
Proof.
  induction m as [|[k' v'] m IH]; simpl.
  - now rewrite String.eqb_refl.
  - destruct (String.eqb k' k) eqn:E; simpl; rewrite E; [reflexivity|exact IH].
Qed.

Lemma get_set_other m k k' v :
  k <> k' -> Map.get (Map.set m k v) k' = Map.get m k'.
Proof.
  intros Hne. induction m as [|[k0 v0] m IH]; simpl.
  - apply String.eqb_neq in Hne. now rewrite Hne.
  - destruct (String.eqb_spec k0 k) as [->|Hk]; simpl.
    + apply String.eqb_neq in Hne. now rewrite Hne.
    + now rewrite IH.
Qed.

Lemma get_set m k k' v :
  Map.get (Map.set m k v) k'
  = if String.eqb k k' then Some v else Map.get m k'.
Proof.
  destruct (String.eqb_spec k k') as [<-|Hne].
  - apply get_set_same.
  - now apply get_set_other.
Qed.

Lemma keys_set m k v :
  Map.keys (Map.set m k v)
  = if existsb (String.eqb k) (Map.keys m) then Map.keys m
    else Map.keys m ++ [k].
Proof.
  unfold Map.keys. induction m as [|[k0 v0] m IH]; simpl; [reflexivity|].
  rewrite (String.eqb_sym k k0).
  destruct (String.eqb k0 k); simpl; [reflexivity|].
  rewrite IH. now destruct (existsb _ _).
Qed.

Lemma existsb_eqb_In k (l : list string) :
  existsb (String.eqb k) l = true <-> In k l.
Proof.
  rewrite existsb_exists. split.
  - intros [x [Hin Hx]]. apply String.eqb_eq in Hx. now subst.
  - intros H. exists k. split; [assumption|apply String.eqb_refl].
Qed.

Lemma in_keys_set m k v k' :
  In k' (Map.keys (Map.set m k v)) <-> k' = k \/ In k' (Map.keys m).
Proof.
  rewrite keys_set. destruct (existsb _ _) eqn:E.
  - apply existsb_eqb_In in E. split; [now right|].
    intros [->|H]; assumption.
  - rewrite in_app_iff. simpl. split.
    + intros [H|[H|[]]]; [now right|now left].
    + intros [H|H]; [right; now left|now left].
Qed.

Lemma NoDup_keys_set m k v :
  NoDup (Map.keys m) -> NoDup (Map.keys (Map.set m k v)).
Proof.
  intros Hnd. rewrite keys_set. destruct (existsb _ _) eqn:E; [assumption|].
  apply NoDup_app; [assumption|repeat constructor; intros []|].
  intros x Hx [<-|[]].
  apply existsb_eqb_In in Hx. congruence.
Qed.

Lemma get_In m k v : Map.get m k = Some v -> In (k, v) m.
Proof.
  induction m as [|[k0 v0] m IH]; simpl; [discriminate|].
  destruct (String.eqb_spec k0 k) as [->|Hk].
  - intros H. injection H as ->. now left.
  - intros H. right. now apply IH.
Qed.

Lemma In_get m k v : NoDup (Map.keys m) -> In (k, v) m -> Map.get m k = Some v.
Proof.
  unfold Map.keys.
  induction m as [|[k0 v0] m IH]; simpl; intros Hnd Hin; [destruct Hin|].
  apply NoDup_cons_iff in Hnd as [Hnot Hnd].
  destruct Hin as [H|H].
  - injection H as -> ->. now rewrite String.eqb_refl.
  - destruct (String.eqb_spec k0 k) as [->|Hk].
    + exfalso. apply Hnot. apply in_map_iff. now exists (k, v).
    + now apply IH.
Qed.

End MapLemmas.

Section SortLemmas.
Context {A : Type} (cmp : A -> A -> Z).
Hypothesis cmp_total : forall x y, 0 < cmp x y -> cmp y x <= 0.

Let le (x y : A) : Prop := cmp x y <= 0.

Lemma insert_perm x l : Permutation (x :: l) (insert cmp x l).
Proof.
  induction l as [|y l IH]; simpl; [reflexivity|].
  destruct (cmp x y <=? 0); [reflexivity|].
  rewrite perm_swap. now apply perm_skip.
Qed.

Lemma sort_perm l : Permutation l (sort cmp l).
Proof.
  induction l as [|x l IH]; simpl; [constructor|].
  rewrite <- insert_perm. now apply perm_skip.
Qed.

Lemma insert_sorted x l : Sorted le l -> Sorted le (insert cmp x l).
Proof.
  induction l as [|y l IH]; intros Hs; simpl.
  - repeat constructor.
  - destruct (Z.leb_spec (cmp x y) 0) as [Hxy|Hxy].
    + constructor; [assumption|]. now constructor.
    + apply Sorted_inv in Hs as [Hs Hhd]. constructor; [now apply IH|].
      destruct l as [|z l]; simpl.
      * constructor. now apply cmp_total.
      * destruct (cmp x z <=? 0); constructor.
        -- now apply cmp_total.
        -- now apply HdRel_inv in Hhd.
Qed.

Lemma sort_sorted l : Sorted le (sort cmp l).
Proof.
  induction l as [|x l IH]; simpl; [constructor|now apply insert_sorted].
Qed.

End SortLemmas.

End JSFacts.

(* ================================================================= *)
(** ** Properties of the CEX detector *)

Module CexFacts.
Import Constants Cex.

Lemma findCEXAddress_address (a : string) (m : CexEntry) :
  findCEXAddress a = Some m -> Constants.address m = a.
Proof.
  unfold findCEXAddress.
  destruct (negb (JS.truthy a)); [discriminate|].
  intros H. apply find_some in H. destruct H as [_ H].
  now apply String.eqb_eq.
Qed.

Lemma getCEXName_find (a n : string) :
  getCEXName a = Some n -> findCEXAddress a = Some (mkCex a n).
Proof.
  unfold getCEXName. destruct (findCEXAddress a) as [m|] eqn:E; [|discriminate].
  intros H. injection H as <-. apply findCEXAddress_address in E.
  destruct m as [a' n']. simpl in *. now subst.
Qed.

(** Deposit record one transfer contributes. *)
Definition depositDelta (tx : Tx.t) (w from to : string) (amt : float)
  : list CEXTransaction :=
  match findCEXAddress from with
  | Some m =>
      if String.eqb to w
      then [mkCexTx (Tx.signature tx) (Tx.timestamp tx) (Constants.name m)
              (Constants.address m) deposit (Some amt)]
      else []
  | None => []
  end.

Lemma scanTransfer_deposits tx w from to amt st :
  acc_deposits (scanTransfer tx w from to amt st)
  = acc_deposits st ++ depositDelta tx w from to amt.
Proof.
  unfold scanTransfer, depositDelta.
  destruct (findCEXAddress from) as [m|];
    destruct (findCEXAddress to) as [m'|];
    destruct (String.eqb to w); destruct (String.eqb from w);
    simpl; unfold JS.push; now rewrite ?app_nil_r.
Qed.

Definition nativeDelta tx w (tr : NativeTransfer.t) :=
  depositDelta tx w (NativeTransfer.fromUserAccount tr)
    (NativeTransfer.toUserAccount tr)
    (PrimFloat.div (NativeTransfer.amount tr) 1e9%float).

Definition tokenDelta tx w (tr : TokenTransfer.t) :=
  depositDelta tx w (TokenTransfer.fromUserAccount tr)
    (TokenTransfer.toUserAccount tr) (TokenTransfer.tokenAmount tr).

Lemma fold_native_deposits tx w l : forall st,
  acc_deposits (fold_left (scanNative tx w) l st)
  = acc_deposits st ++ flat_map (nativeDelta tx w) l.
Proof.
  induction l as [|tr l IH]; intros st; simpl.
  - now rewrite app_nil_r.
  - rewrite IH. unfold scanNative. rewrite scanTransfer_deposits.
    now rewrite <- app_assoc.
Qed.

Lemma fold_token_deposits tx w l : forall st,
  acc_deposits (fold_left (scanToken tx w) l st)
  = acc_deposits st ++ flat_map (tokenDelta tx w) l.
Proof.
  induction l as [|tr l IH]; intros st; simpl.
  - now rewrite app_nil_r.
  - rewrite IH. unfold scanToken. rewrite scanTransfer_deposits.
    now rewrite <- app_assoc.
Qed.

Lemma scanTransfers_deposits w st tx :
  acc_deposits (scanTransfers w st tx)
  = acc_deposits st ++ transferDeposits w tx.
Proof.
  unfold transferDeposits, scanTransfers.
  rewrite !fold_token_deposits, !fold_native_deposits. simpl.
  now rewrite app_assoc.
Qed.

Lemma depositDelta_shape tx w from to amt d :
  In d (depositDelta tx w from to amt) ->
  signature d = Tx.signature tx /\ isFeePayerRecord d = false.
Proof.
  unfold depositDelta.
  destruct (findCEXAddress from); [|intros []].
  destruct (String.eqb to w); [|intros []].
  intros [<-|[]]. now split.
Qed.

Lemma transferDeposits_shape w tx d :
  In d (transferDeposits w tx) ->
  signature d = Tx.signature tx /\ isFeePayerRecord d = false.
Proof.
  unfold transferDeposits, scanTransfers.
  rewrite fold_token_deposits, fold_native_deposits. simpl.
  intros H. apply in_app_or in H.
  destruct H as [H|H]; apply in_flat_map in H; destruct H as [tr [_ H]];
    eapply depositDelta_shape; exact H.
Qed.

(** What the fee-payer rule appends, given the deposits tracked so far. *)
Definition feePayerDelta (w : string) (tracked : list CEXTransaction)
  (tx : Tx.t) : list CEXTransaction :=
  match feePayerIsCEX w tx with
  | Some m => if existsb (sameSignature tx) tracked then []
              else [feePayerRecord tx m]
  | None => []
  end.

Lemma scanFeePayer_deposits w st tx :
  acc_deposits (scanFeePayer w st tx)
  = acc_deposits st ++ feePayerDelta w (acc_deposits st) tx.
Proof.
  unfold scanFeePayer, feePayerDelta, feePayerIsCEX, sameSignature.
  destruct (findCEXAddress (Tx.feePayer tx)) as [m|];
    [|now rewrite app_nil_r].
  destruct (String.eqb (Tx.feePayer tx) w); simpl; [now rewrite app_nil_r|].
  destruct (existsb _ (acc_deposits st)); simpl; [now rewrite app_nil_r|].
  reflexivity.
Qed.

Lemma scanTx_deposits w st tx :
  acc_deposits (scanTx w st tx)
  = acc_deposits st ++ transferDeposits w tx
    ++ feePayerDelta w (acc_deposits st ++ transferDeposits w tx) tx.
Proof.
  unfold scanTx. rewrite scanFeePayer_deposits, scanTransfers_deposits.
  now rewrite app_assoc.
Qed.

Definition hasSig (s : string) (d : CEXTransaction) : bool :=
  String.eqb (signature d) s.

Lemma filter_none {A} (f : A -> bool) l :
  (forall x, In x l -> f x = false) -> filter f l = [].
Proof.
  induction l as [|x l IH]; intros H; simpl; [reflexivity|].
  rewrite (H x (or_introl eq_refl)). apply IH. intros y Hy. apply H. now right.
Qed.

Lemma filter_all {A} (f : A -> bool) l :
  (forall x, In x l -> f x = true) -> filter f l = l.
Proof.
  induction l as [|x l IH]; intros H; simpl; [reflexivity|].
  rewrite (H x (or_introl eq_refl)). f_equal. apply IH. intros y Hy.
  apply H. now right.
Qed.

Lemma feePayerDelta_sig w tracked tx d :
  In d (feePayerDelta w tracked tx) -> signature d = Tx.signature tx.
Proof.
  unfold feePayerDelta. destruct (feePayerIsCEX w tx); [|intros []].
  destruct (existsb _ tracked); [intros []|]. now intros [<-|[]].
Qed.

(** Records a transaction adds all carry its own signature. *)
Lemma scanTx_other_sig w st tx s :
  Tx.signature tx <> s ->
  filter (hasSig s) (acc_deposits (scanTx w st tx))
  = filter (hasSig s) (acc_deposits st).
Proof.
  intros Hs. rewrite scanTx_deposits, !filter_app.
  rewrite (filter_none _ (transferDeposits w tx)).
  2:{ intros d Hd. apply transferDeposits_shape in Hd as [Hd _].
      unfold hasSig. rewrite Hd. now apply String.eqb_neq. }
  rewrite (filter_none _ (feePayerDelta _ _ _)).
  2:{ intros d Hd. apply feePayerDelta_sig in Hd.
      unfold hasSig. rewrite Hd. now apply String.eqb_neq. }
  now rewrite !app_nil_r.
Qed.

Lemma fold_other_sig w txs s : forall st,
  ~ In s (map Tx.signature txs) ->
  filter (hasSig s) (acc_deposits (fold_left (scanTx w) txs st))
  = filter (hasSig s) (acc_deposits st).
Proof.
  induction txs as [|tx txs IH]; intros st Hs; simpl; [reflexivity|].
  rewrite IH by (intros H; apply Hs; now right).
  apply scanTx_other_sig. intros H. apply Hs. now left.
Qed.

(** The fee-payer record of [tx], made when no transfer deposit was. *)
Definition feePayerDeposit (w : string) (tx : Tx.t) : list CEXTransaction :=
  match feePayerIsCEX w tx, transferDeposits w tx with
  | Some m, [] => [feePayerRecord tx m]
  | _, _ => []
  end.

Lemma scanTx_own_sig w st tx :
  filter (hasSig (Tx.signature tx)) (acc_deposits st) = [] ->
  filter (hasSig (Tx.signature tx)) (acc_deposits (scanTx w st tx))
  = transferDeposits w tx ++ feePayerDeposit w tx.
Proof.
  intros Hst. rewrite scanTx_deposits, !filter_app, Hst. simpl.
  rewrite (filter_all _ (transferDeposits w tx)).
  2:{ intros d Hd. apply transferDeposits_shape in Hd as [Hd _].
      unfold hasSig. rewrite Hd. apply String.eqb_refl. }
  f_equal.
  assert (Hex : existsb (sameSignature tx)
                  (acc_deposits st ++ transferDeposits w tx)
                = match transferDeposits w tx with [] => false | _ => true end).
  { rewrite existsb_app.
    replace (existsb (sameSignature tx) (acc_deposits st)) with false.
    - simpl. destruct (transferDeposits w tx) as [|d l] eqn:E; [reflexivity|].
      simpl. assert (Hd : In d (transferDeposits w tx)) by (rewrite E; now left).
      apply transferDeposits_shape in Hd as [Hd _].
      unfold sameSignature. rewrite Hd, String.eqb_refl. reflexivity.
    - symmetry. apply not_true_is_false. intros H.
      apply existsb_exists in H as [d [Hin Hd]].
      assert (In d (filter (hasSig (Tx.signature tx)) (acc_deposits st)))
        by (apply filter_In; split; assumption).
      rewrite Hst in H. contradiction. }
  unfold feePayerDelta, feePayerDeposit. rewrite Hex.
  destruct (feePayerIsCEX w tx) as [m|]; [|reflexivity].
  destruct (transferDeposits w tx); [|reflexivity].
  simpl. unfold hasSig, feePayerRecord. simpl. now rewrite String.eqb_refl.
Qed.

Lemma fold_own_sig w txs : forall st tx,
  NoDup (map Tx.signature txs) ->
  In tx txs ->
  (forall s, In s (map Tx.signature txs) ->
             filter (hasSig s) (acc_deposits st) = []) ->
  filter (hasSig (Tx.signature tx))
    (acc_deposits (fold_left (scanTx w) txs st))
  = transferDeposits w tx ++ feePayerDeposit w tx.
Proof.
  induction txs as [|t txs IH]; intros st tx Hnd Hin Hst; [destruct Hin|].
  simpl in Hnd. apply NoDup_cons_iff in Hnd as [Hnot Hnd]. simpl.
  destruct Hin as [->|Hin].
  - rewrite fold_other_sig by assumption.
    apply scanTx_own_sig. apply Hst. now left.
  - apply IH; try assumption.
    intros s Hs. rewrite scanTx_other_sig.
    + apply Hst. now right.
    + intros E. apply Hnot. now rewrite E.
Qed.

(** The deposit records of a transaction, among transactions of distinct
    signatures: those of its transfers, and the fee payer's when there is
    none of those. *)
Lemma depositsOf_detect (txs : list Tx.t) (w : string) (tx : Tx.t) :
  NoDup (map Tx.signature txs) ->
  In tx txs ->
  depositsOf (detectCEXTransactions txs w) tx
  = transferDeposits w tx ++ feePayerDeposit w tx.
Proof.
  intros Hnd Hin. unfold depositsOf, detectCEXTransactions. simpl.
  change (sameSignature tx) with (hasSig (Tx.signature tx)).
  now apply fold_own_sig.
Qed.


(** *** Scenario inputs *)

Definition wallet0 : string := "vines1vzrYbzLMRdu58ou5XTby4qAqVRLmqo36NKPTg".
Definition binance0 : string := "5tzFkiKscXHK5ZXCGbXZxdw7gTjjD1mBwuoFbhUvuAi9".
Definition coinbase0 : string := "2AQdpHJ2JpcEgPiATUXjQxA8QmafFegfQwSLWSprPicm".

(** One native transfer of 2,500,000,000 lamports from [w] to [cex]. *)
Definition withdrawalTx (sig : string) (ts : Z) (desc feePayer : string)
  (accounts : list string) (nft : option NftEvent.t) (w cex : string)
  : Tx.t :=
  Tx.mk sig ts desc feePayer accounts []
    [NativeTransfer.mk w cex 2500000000%float] nft.

(** A withdrawal to Binance whose fee is paid by a Coinbase hot wallet. *)
Definition withdrawalPaidByExchange : Tx.t :=
  withdrawalTx "sig_w1" 1700000000 "Transferred 2.5 SOL" coinbase0 [] None
    wallet0 binance0.

Lemma scanFeePayer_withdrawals w st tx :
  acc_withdrawals (scanFeePayer w st tx) = acc_withdrawals st.
Proof.
  unfold scanFeePayer. destruct (findCEXAddress (Tx.feePayer tx)); [|easy].
  destruct (negb (String.eqb (Tx.feePayer tx) w)); [|easy].
  now destruct (negb (existsb _ (acc_deposits st))).
Qed.

Lemma scanFeePayer_skip w st tx :
  feePayerIsCEX w tx = None -> scanFeePayer w st tx = st.
Proof.
  unfold feePayerIsCEX, scanFeePayer.
  destruct (findCEXAddress (Tx.feePayer tx)); [|easy].
  now destruct (negb (String.eqb (Tx.feePayer tx) w)).
Qed.

(** The transfer scan of one withdrawal to a Binance address. *)
Lemma scanTransfers_withdrawalTx sig ts desc feePayer accounts nft w cex :
  getCEXName cex = Some "Binance"%string ->
  cex <> w ->
  scanTransfers w acc0 (withdrawalTx sig ts desc feePayer accounts nft w cex)
  = mkAcc []
      [mkCexTx sig ts "Binance" cex withdrawal (Some 2.5%float)]
      ["Binance"%string].
Proof.
  intros Hname Hne. apply getCEXName_find in Hname.
  apply String.eqb_neq in Hne.
  unfold scanTransfers, withdrawalTx.
  cbn [Tx.nativeTransfers Tx.tokenTransfers fold_left].
  unfold scanNative, scanTransfer.
  cbn [NativeTransfer.fromUserAccount NativeTransfer.toUserAccount
       NativeTransfer.amount].
  rewrite Hname, Hne, String.eqb_refl.
  now destruct (findCEXAddress w).
Qed.

(** C5. The risk contribution of the CEX detector is
    [min(deposits*15 + withdrawals*10, 50)] for every transaction list and
    target.  A single native transfer of 2,500,000,000 lamports from the
    target to a Binance registry address (another address than the target's)
    yields exactly one withdrawal record, of exchange "Binance" and amount
    2.5; with the fee paid by the target or from outside the registry that
    record is the whole finding, and the risk contribution is 10. *)
Theorem cex_risk_formula_and_scenario_A :
  (forall (txs : list Tx.t) (w : string),
     let r := detectCEXTransactions txs w in
     riskContribution r
     = Z.min (len (deposits r) * 15 + len (withdrawals r) * 10) 50)
  /\
  (forall sig ts desc feePayer accounts nft (w cex : string),
     getCEXName cex = Some "Binance"%string ->
     cex <> w ->
     let tx := withdrawalTx sig ts desc feePayer accounts nft w cex in
     let r := detectCEXTransactions [tx] w in
     withdrawals r
     = [mkCexTx sig ts "Binance" cex withdrawal (Some 2.5%float)]
     /\ (feePayerIsCEX w tx = None ->
         r = mkResult true []
               [mkCexTx sig ts "Binance" cex withdrawal (Some 2.5%float)]
               1 ["Binance"%string] 10)).
Proof.
  split; [reflexivity|].
  intros sig ts desc feePayer accounts nft w cex Hname Hne tx r.
  pose proof (scanTransfers_withdrawalTx sig ts desc feePayer accounts nft
                w cex Hname Hne) as Hscan.
  fold tx in Hscan. subst r. unfold detectCEXTransactions.
  cbn [fold_left]. unfold scanTx. split.
  - cbn [withdrawals]. now rewrite scanFeePayer_withdrawals, Hscan.
  - intros Hfee. rewrite (scanFeePayer_skip _ _ _ Hfee), Hscan. reflexivity.
Qed.

Lemma cex_risk_formula_and_scenario_A_witness :
  let tx := withdrawalTx "sig_a" 1700000000 "Transferred 2.5 SOL to Binance"
              wallet0 [] None wallet0 binance0 in
  let r := detectCEXTransactions [tx] wallet0 in
  withdrawals r
  = [mkCexTx "sig_a" 1700000000 "Binance" binance0 withdrawal
       (Some 2.5%float)]
  /\ r = mkResult true []
           [mkCexTx "sig_a" 1700000000 "Binance" binance0 withdrawal
              (Some 2.5%float)]
           1 ["Binance"%string] 10.
Proof.
  intros tx r.
  destruct (proj2 cex_risk_formula_and_scenario_A "sig_a"%string 1700000000
              "Transferred 2.5 SOL to Binance"%string wallet0 [] None
              wallet0 binance0 eq_refl) as [Hw Hr].
  - discriminate.
  - split; [exact Hw|]. apply Hr. reflexivity.
Defined.

(** C6, as the code has it. Among transactions of distinct signatures, a
    transaction whose fee payer is a registry address other than the target
    and for which the transfer scan recorded no deposit is counted exactly
    once as a deposit, by the fee payer's record (also when the scan recorded
    it as a withdrawal); a transaction for which the transfer scan recorded a
    deposit gets no fee-payer record besides. *)
Theorem feePayer_deposit_guarded_by_deposit_signature
  (txs : list Tx.t) (w : string) (tx : Tx.t) :
  NoDup (map Tx.signature txs) ->
  In tx txs ->
  (forall m, feePayerIsCEX w tx = Some m ->
             transferDeposits w tx = [] ->
             depositsOf (detectCEXTransactions txs w) tx
             = [feePayerRecord tx m])
  /\
  (transferDeposits w tx <> [] ->
   forall d, In d (depositsOf (detectCEXTransactions txs w) tx) ->
             isFeePayerRecord d = false).
Proof.
  intros Hnd Hin. rewrite (depositsOf_detect txs w tx Hnd Hin).
  unfold feePayerDeposit. split.
  - intros m Hm Htd. now rewrite Hm, Htd.
  - intros Htd d Hd.
    destruct (transferDeposits w tx) as [|d0 l] eqn:E; [now elim Htd|].
    assert (Hd' : In d (transferDeposits w tx)).
    { rewrite E. destruct (feePayerIsCEX w tx);
        now rewrite app_nil_r in Hd. }
    now apply transferDeposits_shape in Hd'.
Qed.

Lemma feePayer_deposit_guarded_by_deposit_signature_witness :
  depositsOf (detectCEXTransactions [withdrawalPaidByExchange] wallet0)
    withdrawalPaidByExchange
  = [feePayerRecord withdrawalPaidByExchange (mkCex coinbase0 "Coinbase")].
Proof.
  refine (proj1 (feePayer_deposit_guarded_by_deposit_signature
                   [withdrawalPaidByExchange] wallet0
                   withdrawalPaidByExchange _ _) _ _ _).
  - repeat constructor. intros [].
  - left. reflexivity.
  - reflexivity.
  - reflexivity.
Defined.

(** C6 as stated fails: a transaction the transfer scan captured as a
    withdrawal, with an exchange as fee payer, also gets the fee payer's
    deposit record. *)
Lemma feePayer_deposit_added_to_captured_withdrawal :
  capturedByTransfers wallet0 withdrawalPaidByExchange = true
  /\ len (transferWithdrawals wallet0 withdrawalPaidByExchange) = 1
  /\ exists d,
       In d (depositsOf
               (detectCEXTransactions [withdrawalPaidByExchange] wallet0)
               withdrawalPaidByExchange)
       /\ isFeePayerRecord d = true.
Proof.
  split; [reflexivity|]. split; [reflexivity|].
  exists (feePayerRecord withdrawalPaidByExchange (mkCex coinbase0 "Coinbase")).
  split; [left|]; reflexivity.
Qed.

End CexFacts.

(* ================================================================= *)
(** ** Properties of the clustering detector *)

Module ClusteringFacts.
Import Constants Clustering.

(** *** Counterparty interactions *)

(** A transfer counts when its counterparty side exists and is not the
    target. *)
Definition isInteraction (w from to : string) : bool :=
  let other := otherAddress w from to in
  JS.truthy other && negb (String.eqb other w).

Definition nativeInteractions (w : string) (tx : Tx.t) : Z :=
  len (filter (fun tr => isInteraction w (NativeTransfer.fromUserAccount tr)
                           (NativeTransfer.toUserAccount tr))
         (Tx.nativeTransfers tx)).

Definition tokenInteractions (w : string) (tx : Tx.t) : Z :=
  len (filter (fun tr => isInteraction w (TokenTransfer.fromUserAccount tr)
                           (TokenTransfer.toUserAccount tr))
         (Tx.tokenTransfers tx)).

(** Total counterparty interactions of a transaction list: native plus token
    transfers that count. *)
Fixpoint counterpartyInteractions (txs : list Tx.t) (w : string) : Z :=
  match txs with
  | [] => 0
  | tx :: rest =>
      nativeInteractions w tx + tokenInteractions w tx
      + counterpartyInteractions rest w
  end.

Lemma countTransfer_total w from to st :
  snd (countTransfer w from to st)
  = snd st + (if isInteraction w from to then 1 else 0).
Proof.
  destruct st as [m n]. unfold countTransfer, isInteraction. simpl.
  destruct (JS.truthy _ && negb _); simpl; lia.
Qed.

Lemma len_cons {A} (x : A) l : len (x :: l) = 1 + len l.
Proof. unfold len. cbn [List.length]. lia. Qed.

Lemma fold_native_total w l : forall st,
  snd (fold_left (countNative w) l st)
  = snd st
    + len (filter (fun tr => isInteraction w
                               (NativeTransfer.fromUserAccount tr)
                               (NativeTransfer.toUserAccount tr)) l).
Proof.
  induction l as [|tr l IH]; intros st; simpl.
  - unfold len. simpl. lia.
  - rewrite IH. unfold countNative. rewrite countTransfer_total.
    destruct (isInteraction _ _ _); [rewrite len_cons|]; lia.
Qed.

Lemma fold_token_total w l : forall st,
  snd (fold_left (countToken w) l st)
  = snd st
    + len (filter (fun tr => isInteraction w
                               (TokenTransfer.fromUserAccount tr)
                               (TokenTransfer.toUserAccount tr)) l).
Proof.
  induction l as [|tr l IH]; intros st; simpl.
  - unfold len. simpl. lia.
  - rewrite IH. unfold countToken. rewrite countTransfer_total.
    destruct (isInteraction _ _ _); [rewrite len_cons|]; lia.
Qed.

Lemma fold_countTx_total w txs : forall st,
  snd (fold_left (countTx w) txs st) = snd st + counterpartyInteractions txs w.
Proof.
  induction txs as [|tx txs IH]; intros st; simpl; [lia|].
  rewrite IH. unfold countTx. rewrite fold_token_total, fold_native_total.
  unfold nativeInteractions, tokenInteractions. lia.
Qed.

(** [totalInteractions] is the number of counterparty interactions. *)
Lemma totalInteractions_count txs w :
  snd (countInteractions txs w) = counterpartyInteractions txs w.
Proof. unfold countInteractions. now rewrite fold_countTx_total. Qed.

(** C7. With fewer than 5 counterparty interactions in total, whatever their
    distribution, [detectClustering] answers pattern "none", not detected,
    risk contribution 0. *)
Theorem clustering_needs_five_interactions (txs : list Tx.t) (w : string) :
  counterpartyInteractions txs w < 5 ->
  let r := detectClustering txs w in
  pattern r = none /\ detected r = false /\ riskContribution r = 0.
Proof.
  intros Hlt. rewrite <- totalInteractions_count in Hlt.
  unfold detectClustering.
  destruct (countInteractions txs w) as [m total]. simpl in Hlt.
  unfold ANALYSIS_CONFIG.MIN_TRANSACTIONS_FOR_PATTERN.
  apply Z.ltb_lt in Hlt. rewrite Hlt. simpl. auto.
Qed.

(** Four transfers, all with one and the same counterparty. *)
Definition fourWithOneFriend : list Tx.t :=
  let friend := "FriendWallet1xxxxxxxxxxxxxxxxxxxxxxxxxxxxxxx"%string in
  let w := CexFacts.wallet0 in
  [ Tx.mk "s1" 100 "Transferred 0.5 SOL" w [] []
      [NativeTransfer.mk w friend 500000000%float;
       NativeTransfer.mk friend w 100000000%float] None;
    Tx.mk "s2" 200 "Transferred 0.1 SOL" w [] []
      [NativeTransfer.mk w friend 100000000%float;
       NativeTransfer.mk w friend 100000000%float] None ].

Lemma clustering_needs_five_interactions_witness :
  let r := detectClustering fourWithOneFriend CexFacts.wallet0 in
  pattern r = none /\ detected r = false /\ riskContribution r = 0.
Proof.
  apply (clustering_needs_five_interactions fourWithOneFriend CexFacts.wallet0).
  vm_compute. reflexivity.
Defined.

(** *** The pattern classifier and the risk contribution *)

Lemma detectPattern_range sorted total :
  detectPattern sorted total = none
  \/ detectPattern sorted total = single_counterparty
  \/ detectPattern sorted total = small_cluster
  \/ detectPattern sorted total = funnel.
Proof.
  unfold detectPattern. destruct sorted as [|a l]; [now left|].
  destruct (JS.geb (percentage a) 50%float); [now right; left|].
  destruct (_ && _); [now right; right; left|].
  destruct (_ && _); [now right; right; right|now left].
Qed.

Lemma hd_error_firstn {A} (n : nat) (l : list A) :
  hd_error (firstn (S n) l) = hd_error l.
Proof. now destruct l. Qed.

Lemma riskOf_values (d : bool) (p : ClusterPattern) :
  p <> wash_trading -> (d = true -> p <> none) ->
  In (riskOf d p) [0; 10; 14; 20].
Proof.
  intros Hw Hn. destruct d.
  - destruct p; try (now elim Hw); try (now elim Hn); vm_compute; tauto.
  - simpl. tauto.
Qed.

(** C10. The risk contribution of [detectClustering] is 0, 10, 14 or 20 on
    every input: [detectPattern] never answers "wash_trading", and it answers
    "single_counterparty" whenever the top share is at least 50, so neither
    the 30-point branch nor the 8-point fallback is taken. *)
Theorem clustering_risk_values :
  (forall (txs : list Tx.t) (w : string),
     In (riskContribution (detectClustering txs w)) [0; 10; 14; 20])
  /\ (forall sorted total, detectPattern sorted total <> wash_trading)
  /\ (forall first rest total,
        JS.geb (percentage first) 50%float = true ->
        detectPattern (first :: rest) total = single_counterparty)
  /\ (forall (txs : list Tx.t) (w : string),
        detected (detectClustering txs w) = true ->
        pattern (detectClustering txs w) <> none).
Proof.
  assert (Hw : forall sorted total, detectPattern sorted total <> wash_trading).
  { intros sorted total H.
    destruct (detectPattern_range sorted total) as [E|[E|[E|E]]];
      rewrite E in H; discriminate. }
  assert (Hs : forall first rest total,
             JS.geb (percentage first) 50%float = true ->
             detectPattern (first :: rest) total = single_counterparty).
  { intros first rest total H. unfold detectPattern. now rewrite H. }
  assert (Hd : forall txs w,
             detected (detectClustering txs w) = true ->
             pattern (detectClustering txs w) <> none).
  { intros txs w. unfold detectClustering.
    destruct (countInteractions txs w) as [m total].
    destruct (total <? _); [simpl; discriminate|].
    cbn [detected pattern]. rewrite hd_error_firstn.
    destruct (sortedAddressesOf m total) as [|a l] eqn:E.
    - vm_compute. discriminate.
    - cbn [hd_error].
      change (JS.ofZ ANALYSIS_CONFIG.CLUSTER_THRESHOLD_PERCENTAGE)
        with 50%float.
      destruct (JS.geb (percentage a) 50%float) eqn:G.
      + rewrite (Hs a l total G). discriminate.
      + cbn [orb]. destruct (detectPattern (a :: l) total);
          simpl; congruence. }
  repeat split; try assumption.
  intros txs w. specialize (Hd txs w). revert Hd.
  unfold detectClustering.
  destruct (countInteractions txs w) as [m total].
  destruct (total <? _); [simpl; tauto|].
  cbn [detected pattern riskContribution]. intros Hd.
  apply riskOf_values; [apply Hw|exact Hd].
Qed.


Lemma clustering_risk_values_witness :
  detectPattern
    [mkFreq "FriendWallet1xxxxxxxxxxxxxxxxxxxxxxxxxxxxxxx" 6 60%float;
     mkFreq "Other1xxxxxxxxxxxxxxxxxxxxxxxxxxxxxxxxxxxxxx" 4 40%float] 10
  = single_counterparty.
Proof.
  apply (proj1 (proj2 (proj2 clustering_risk_values))). reflexivity.
Defined.

(** *** Wash trading *)

(** The timestamps at which the target sent to [addr], over native transfers
    only, in transaction order. *)
Definition sentBy (w addr : string) (ts : Z) (tr : NativeTransfer.t)
  : list Z :=
  if String.eqb (NativeTransfer.fromUserAccount tr) w
     && String.eqb (NativeTransfer.toUserAccount tr) addr
  then [ts] else [].

Definition receivedBy (w addr : string) (ts : Z) (tr : NativeTransfer.t)
  : list Z :=
  if String.eqb (NativeTransfer.toUserAccount tr) w
     && String.eqb (NativeTransfer.fromUserAccount tr) addr
  then [ts] else [].

Definition sentTimestamps (txs : list Tx.t) (w addr : string) : list Z :=
  flat_map (fun tx => flat_map (sentBy w addr (Tx.timestamp tx))
                        (Tx.nativeTransfers tx)) txs.

Definition receivedTimestamps (txs : list Tx.t) (w addr : string) : list Z :=
  flat_map (fun tx => flat_map (receivedBy w addr (Tx.timestamp tx))
                        (Tx.nativeTransfers tx)) txs.

(** The merged, chronologically sorted sequence of the two lists, each stamp
    tagged by its type. *)
Definition mergedTimeline (txs : list Tx.t) (w addr : string) : list Stamp :=
  allTimestamps
    (mkTimeline (sentTimestamps txs w addr) (receivedTimestamps txs w addr)).

(** [addr] is flagged: it is the address of one of the returned pairs. *)
Definition flagged (txs : list Tx.t) (w addr : string) : Prop :=
  In addr (map pair_address (pairs (detectWashTrading txs w))).

Definition chronological (a b : Stamp) : Prop := fst a <= fst b.

(** Two stamps of differing type: one sent, the other received. *)
Definition differingType (a b : Stamp) : bool :=
  match snd a, snd b with
  | Sent, Received | Received, Sent => true
  | _, _ => false
  end.

(** The alternations of a sequence as the specification has them: every
    stamp is paired with its successor, and the pairs of differing type are
    counted.  Nothing of the detector's counting loop is used. *)
Definition differingPairs (l : list Stamp) : Z :=
  Z.of_nat
    (List.length
       (filter (fun p => differingType (fst p) (snd p)) (combine l (tl l)))).

Lemma timelineAt_set m k v addr :
  timelineAt (JS.Map.set m k v) addr
  = if String.eqb k addr then v else timelineAt m addr.
Proof.
  unfold timelineAt. rewrite JSFacts.get_set. now destruct (String.eqb k addr).
Qed.

Lemma truthy_eqb (a b : string) :
  JS.truthy b = true -> String.eqb a b = true -> JS.truthy a = true.
Proof. intros Hb E. apply String.eqb_eq in E. now subst. Qed.

Lemma timeline_eta (t : Timeline) : mkTimeline (sent t) (received t) = t.
Proof. now destruct t. Qed.

Lemma pushSent_at m k ts addr (c : bool) :
  JS.truthy addr = true ->
  timelineAt
    (if c && JS.truthy k
     then JS.Map.set m k
            (mkTimeline (JS.push (sent (timelineAt m k)) ts)
               (received (timelineAt m k)))
     else m) addr
  = mkTimeline
      (sent (timelineAt m addr)
       ++ (if c && String.eqb k addr then [ts] else []))
      (received (timelineAt m addr)).
Proof.
  intros Ht. destruct (String.eqb_spec k addr) as [->|Hne].
  - rewrite Ht, !andb_true_r. destruct c.
    + rewrite timelineAt_set, String.eqb_refl. reflexivity.
    + now rewrite app_nil_r, timeline_eta.
  - rewrite andb_false_r, app_nil_r, timeline_eta.
    destruct (c && JS.truthy k); [|reflexivity].
    rewrite timelineAt_set. apply String.eqb_neq in Hne. now rewrite Hne.
Qed.

Lemma pushReceived_at m k ts addr (c : bool) :
  JS.truthy addr = true ->
  timelineAt
    (if c && JS.truthy k
     then JS.Map.set m k
            (mkTimeline (sent (timelineAt m k))
               (JS.push (received (timelineAt m k)) ts))
     else m) addr
  = mkTimeline
      (sent (timelineAt m addr))
      (received (timelineAt m addr)
       ++ (if c && String.eqb k addr then [ts] else [])).
Proof.
  intros Ht. destruct (String.eqb_spec k addr) as [->|Hne].
  - rewrite Ht, !andb_true_r. destruct c.
    + rewrite timelineAt_set, String.eqb_refl. reflexivity.
    + now rewrite app_nil_r, timeline_eta.
  - rewrite andb_false_r, app_nil_r, timeline_eta.
    destruct (c && JS.truthy k); [|reflexivity].
    rewrite timelineAt_set. apply String.eqb_neq in Hne. now rewrite Hne.
Qed.

Lemma recordTransfer_at w ts m tr addr :
  JS.truthy addr = true ->
  timelineAt (recordTransfer w ts m tr) addr
  = mkTimeline (sent (timelineAt m addr) ++ sentBy w addr ts tr)
      (received (timelineAt m addr) ++ receivedBy w addr ts tr).
Proof.
  intros Ht. unfold recordTransfer, sentBy, receivedBy.
  cbv zeta. rewrite pushReceived_at, pushSent_at by assumption.
  reflexivity.
Qed.

Lemma recordTx_at w m tx addr :
  JS.truthy addr = true ->
  timelineAt (recordTx w m tx) addr
  = mkTimeline
      (sent (timelineAt m addr)
       ++ flat_map (sentBy w addr (Tx.timestamp tx)) (Tx.nativeTransfers tx))
      (received (timelineAt m addr)
       ++ flat_map (receivedBy w addr (Tx.timestamp tx))
            (Tx.nativeTransfers tx)).
Proof.
  intros Ht. unfold recordTx. generalize (Tx.timestamp tx) as ts. intros ts.
  generalize dependent m.
  induction (Tx.nativeTransfers tx) as [|tr l IH]; intros m; simpl.
  - rewrite !app_nil_r. now destruct (timelineAt m addr).
  - rewrite IH, recordTransfer_at by assumption. simpl.
    now rewrite <- !app_assoc.
Qed.

Lemma fold_recordTx_at w txs addr : forall m,
  JS.truthy addr = true ->
  timelineAt (fold_left (recordTx w) txs m) addr
  = mkTimeline (sent (timelineAt m addr) ++ sentTimestamps txs w addr)
      (received (timelineAt m addr) ++ receivedTimestamps txs w addr).
Proof.
  unfold sentTimestamps, receivedTimestamps.
  induction txs as [|tx txs IH]; intros m Ht; simpl.
  - rewrite !app_nil_r. now destruct (timelineAt m addr).
  - rewrite IH, recordTx_at by assumption. simpl.
    now rewrite <- !app_assoc.
Qed.

(** The timeline the loop builds for a counterparty holds exactly its sent
    and received timestamps. *)
Lemma buildTimelines_at txs w addr :
  JS.truthy addr = true ->
  timelineAt (buildTimelines txs w) addr
  = mkTimeline (sentTimestamps txs w addr) (receivedTimestamps txs w addr).
Proof.
  intros Ht. unfold buildTimelines. now rewrite fold_recordTx_at.
Qed.

(** Keys of the timeline map: distinct, and none empty. *)
Definition goodKeys (m : JS.Map.t Timeline) : Prop :=
  NoDup (JS.Map.keys m)
  /\ forall k, In k (JS.Map.keys m) -> JS.truthy k = true.

Lemma goodKeys_set m k v :
  goodKeys m -> JS.truthy k = true -> goodKeys (JS.Map.set m k v).
Proof.
  intros [Hnd Hk] Ht. split.
  - now apply JSFacts.NoDup_keys_set.
  - intros k' H. apply JSFacts.in_keys_set in H as [->|H]; auto.
Qed.

Lemma goodKeys_cond_set m k v (c : bool) :
  goodKeys m -> goodKeys (if c && JS.truthy k then JS.Map.set m k v else m).
Proof.
  intros Hm. destruct c; simpl; [|assumption].
  destruct (JS.truthy k) eqn:E; [now apply goodKeys_set|assumption].
Qed.

Lemma recordTransfer_keys w ts m tr :
  goodKeys m -> goodKeys (recordTransfer w ts m tr).
Proof.
  intros Hm. unfold recordTransfer. cbv zeta.
  now repeat apply goodKeys_cond_set.
Qed.

Lemma buildTimelines_keys txs w : goodKeys (buildTimelines txs w).
Proof.
  unfold buildTimelines.
  assert (H0 : goodKeys (@JS.Map.empty Timeline))
    by (split; [constructor|intros k []]).
  revert H0. generalize (@JS.Map.empty Timeline) as m.
  induction txs as [|tx txs IH]; intros m Hm; simpl; [assumption|].
  apply IH. unfold recordTx.
  revert m Hm. induction (Tx.nativeTransfers tx) as [|tr l IHl];
    intros m Hm; simpl; [assumption|].
  apply IHl. now apply recordTransfer_keys.
Qed.

(** The test [checkPair] applies to a timeline. *)
Definition backAndForth (timeline : Timeline) : bool :=
  (len (sent timeline) >=? 2) && (len (received timeline) >=? 2)
  && (alternations (allTimestamps timeline) >=? 3).

Lemma checkPair_spec acc k timeline :
  checkPair acc (k, timeline)
  = acc ++ (if backAndForth timeline
            then [mkPair k (len (sent timeline)) (len (received timeline))
                    (alternations (allTimestamps timeline))]
            else []).
Proof.
  unfold checkPair, backAndForth.
  destruct (_ && _); simpl; [|now rewrite app_nil_r].
  destruct (_ >=? 3); [reflexivity|now rewrite app_nil_r].
Qed.

Lemma fold_checkPair_addresses entries : forall acc,
  map pair_address (fold_left checkPair entries acc)
  = map pair_address acc
    ++ map fst (filter (fun e => backAndForth (snd e)) entries).
Proof.
  induction entries as [|[k timeline] entries IH]; intros acc.
  - simpl. now rewrite app_nil_r.
  - cbn [fold_left filter snd]. rewrite IH, checkPair_spec, map_app.
    destruct (backAndForth timeline); simpl.
    + now rewrite <- app_assoc.
    + now rewrite app_nil_r.
Qed.

Lemma flagged_iff_backAndForth txs w addr :
  flagged txs w addr
  <-> JS.truthy addr = true
      /\ backAndForth (mkTimeline (sentTimestamps txs w addr)
                         (receivedTimestamps txs w addr)) = true.
Proof.
  unfold flagged, detectWashTrading. cbn [pairs].
  rewrite fold_checkPair_addresses. simpl.
  destruct (buildTimelines_keys txs w) as [Hnd Hk].
  rewrite in_map_iff. split.
  - intros [[k timeline] [Hfst Hin]]. simpl in Hfst. subst k.
    apply filter_In in Hin as [Hin Hb]. simpl in Hb.
    assert (Ht : JS.truthy addr = true).
    { apply Hk. apply in_map_iff. now exists (addr, timeline). }
    split; [assumption|].
    rewrite <- (buildTimelines_at txs w addr Ht).
    unfold timelineAt. now rewrite (JSFacts.In_get _ _ _ Hnd Hin).
  - intros [Ht Hb]. rewrite <- (buildTimelines_at txs w addr Ht) in Hb.
    unfold timelineAt in Hb.
    destruct (JS.Map.get (buildTimelines txs w) addr) as [timeline|] eqn:E.
    + exists (addr, timeline). split; [reflexivity|].
      apply filter_In. split; [now apply JSFacts.get_In|assumption].
    + discriminate.
Qed.

Lemma Sorted_weaken {A} (R S : A -> A -> Prop) (l : list A) :
  (forall x y, R x y -> S x y) -> Sorted R l -> Sorted S l.
Proof.
  intros HRS Hl. induction Hl as [|x l Hl IH Hhd]; constructor.
  - exact IH.
  - destruct Hhd; constructor. now apply HRS.
Qed.

Lemma allTimestamps_chronological timeline :
  Sorted chronological (allTimestamps timeline)
  /\ Permutation
       (map (fun t => (t, Sent)) (sent timeline)
        ++ map (fun t => (t, Received)) (received timeline))
       (allTimestamps timeline).
Proof.
  unfold allTimestamps. split.
  - eapply Sorted_weaken;
      [|apply (JSFacts.sort_sorted (fun a b : Stamp => fst a - fst b))].
    + intros a b H. unfold chronological. simpl in H. lia.
    + intros x y H. lia.
  - apply JSFacts.sort_perm.
Qed.

Lemma differingType_iff (a b : Stamp) :
  differingType a b = true <-> snd a <> snd b.
Proof.
  unfold differingType. destruct (snd a), (snd b); split;
    congruence || (intros H; now elim H).
Qed.

Lemma differingPairs_cons (a b : Stamp) (l : list Stamp) :
  differingPairs (a :: b :: l)
  = (if differingType a b then 1 else 0) + differingPairs (b :: l).
Proof.
  unfold differingPairs.
  change (combine (a :: b :: l) (tl (a :: b :: l)))
    with ((a, b) :: combine (b :: l) (tl (b :: l))).
  cbn [filter fst snd]. destruct (differingType a b); [|lia].
  cbn [List.length]. lia.
Qed.

(** The counting loop of the detector counts the adjacent pairs of differing
    type, on every sequence. *)
Lemma alternations_differingPairs (l : list Stamp) :
  alternations l = differingPairs l.
Proof.
  induction l as [|a l IH]; [reflexivity|].
  destruct l as [|b l]; [reflexivity|].
  change (alternations (a :: b :: l))
    with ((if kind_eqb (snd b) (snd a) then 0 else 1)
          + alternations (b :: l)).
  rewrite IH, differingPairs_cons. f_equal.
  unfold differingType. now destruct (snd a), (snd b).
Qed.

(** C8. [detectWashTrading] flags a counterparty exactly when, over native
    transfers only, the target has at least 2 sent and at least 2 received
    timestamps with it and their merged, chronologically sorted sequence has
    at least 3 adjacent pairs of differing type; and it reports detection
    exactly when some counterparty is flagged.  The pairs of differing type
    are counted by [differingPairs], which pairs every stamp with its
    successor and owes nothing to the detector; the counting loop of the
    detector gives that very number on every sequence.  (A counterparty is a
    non-empty address; stamps of equal time keep sent before received.) *)
Theorem washTrading_flags_back_and_forth (txs : list Tx.t) (w : string) :
  (forall addr,
     flagged txs w addr
     <-> JS.truthy addr = true
         /\ 2 <= len (sentTimestamps txs w addr)
         /\ 2 <= len (receivedTimestamps txs w addr)
         /\ 3 <= differingPairs (mergedTimeline txs w addr))
  /\ (forall addr,
        Sorted chronological (mergedTimeline txs w addr)
        /\ Permutation
             (map (fun t => (t, Sent)) (sentTimestamps txs w addr)
              ++ map (fun t => (t, Received)) (receivedTimestamps txs w addr))
             (mergedTimeline txs w addr))
  /\ (wash_detected (detectWashTrading txs w) = true
      <-> exists addr, flagged txs w addr)
  /\ (forall l : list Stamp, alternations l = differingPairs l).
Proof.
  split; [|split; [|split]].
  - intros addr. rewrite flagged_iff_backAndForth.
    unfold backAndForth, mergedTimeline. cbn [sent received].
    rewrite !andb_true_iff, !Z.geb_le, alternations_differingPairs. tauto.
  - intros addr. apply (allTimestamps_chronological (mkTimeline _ _)).
  - unfold flagged. unfold detectWashTrading at 1. cbn [wash_detected].
    cbn [pairs detectWashTrading].
    destruct (fold_left checkPair (buildTimelines txs w) []) as [|p l].
    + split; [discriminate|]. intros [addr []].
    + split; [|reflexivity]. intros _. exists (pair_address p). now left.
  - exact alternations_differingPairs.
Qed.

End ClusteringFacts.

(* ================================================================= *)
(** ** Properties of the identity-asset detector *)

Module AssetsFacts.
Import Assets.

Definition distinctMints (st : Acc) : Prop :=
  NoDup (map mint (acc_nfts st)) /\ NoDup (map mint (acc_poaps st)).

Lemma hasMint_false m l : hasMint m l = false -> ~ In m (map mint l).
Proof.
  unfold hasMint. intros H Hin. apply in_map_iff in Hin as [a [Ha Hin]].
  apply not_true_iff_false in H. apply H. apply existsb_exists.
  exists a. split; [assumption|]. now apply String.eqb_eq.
Qed.

Lemma NoDup_push_mint l a :
  NoDup (map mint l) -> hasMint (mint a) l = false ->
  NoDup (map mint (JS.push l a)).
Proof.
  intros Hnd Hm. unfold JS.push. rewrite map_app. simpl.
  apply NoDup_app; [assumption|repeat constructor; intros []|].
  intros x Hx [<-|[]]. now apply (hasMint_false _ _ Hm).
Qed.

(** The token-transfer pass keeps the mints of each list distinct. *)
Lemma scanTokenTransfer_distinct w tx st tr :
  distinctMints st -> distinctMints (scanTokenTransfer w tx st tr).
Proof.
  intros [Hn Hp]. unfold scanTokenTransfer.
  destruct (_ && _); [|now split].
  destruct (isPOAPorBadge _).
  - destruct (hasMint _ (acc_poaps st)) eqn:E; [now split|].
    split; [assumption|]. now apply NoDup_push_mint.
  - destruct (hasMint _ (acc_nfts st)) eqn:E; [now split|].
    split; [|assumption]. now apply NoDup_push_mint.
Qed.

Lemma scanDomain_distinct st tx :
  distinctMints st -> distinctMints (scanDomain st tx).
Proof.
  intros H. unfold scanDomain.
  destruct (isSOLDomainTransaction tx); [|assumption].
  destruct (extractDomainName tx); [|assumption].
  destruct (_ && _); assumption.
Qed.

(** Without NFT events every mint is listed at most once. *)
Lemma tokenPass_mints_distinct extractNFTName (txs : list Tx.t) (w : string) :
  (forall tx, In tx txs -> Tx.nft tx = None) ->
  let r := detectIdentityAssets extractNFTName txs w in
  NoDup (map mint (nftsDetected r)) /\ NoDup (map mint (poapsDetected r)).
Proof.
  intros Hnone. unfold detectIdentityAssets. cbn [nftsDetected poapsDetected].
  change (distinctMints (fold_left (scanTx extractNFTName w) txs acc0)).
  assert (H0 : distinctMints acc0) by (split; constructor).
  revert H0. generalize acc0 as st.
  induction txs as [|tx txs IH]; intros st Hst; simpl; [assumption|].
  apply IH.
  - intros t Ht. apply Hnone. now right.
  - unfold scanTx, scanNftEvent.
    rewrite (Hnone tx (or_introl eq_refl)).
    apply (scanDomain_distinct _ tx) in Hst. revert Hst.
    generalize (scanDomain st tx) as st'.
    induction (Tx.tokenTransfers tx) as [|tr l IHl]; intros st' Hst';
      simpl; [assumption|].
    apply IHl. now apply scanTokenTransfer_distinct.
Qed.

(** The same NFT bought twice by the target (two NFT events). *)
Definition madLad : string := "MadLadMint1234567890123456789012345678901".

Definition boughtTwice : list Tx.t :=
  let w := CexFacts.wallet0 in
  let ev := NftEvent.mk "Bought Mad Lad #1" (Some w)
              [NftRef.mk madLad "NonFungible"] in
  [ Tx.mk "buy_1" 100 "Bought Mad Lad #1 for 50 SOL" w [] [] [] (Some ev);
    Tx.mk "buy_2" 300 "Bought Mad Lad #1 for 60 SOL" w [] [] [] (Some ev) ].

(** A badge minted to the target, and met again in a later NFT event whose
    description says it was received. *)
Definition badge1 : string := "HackathonBadgeMint123456789012345678901234".

Definition badgeSeenTwice : list Tx.t :=
  let w := CexFacts.wallet0 in
  [ Tx.mk "mint_1" 100 "Minted Hackathon Badge" w [] [] []
      (Some (NftEvent.mk "Minted Hackathon Badge" (Some w)
               [NftRef.mk badge1 "NonFungible"]));
    Tx.mk "recv_1" 200 "Received Hackathon Badge" w [] [] []
      (Some (NftEvent.mk "Received Hackathon Badge" None
               [NftRef.mk badge1 "NonFungible"])) ].

(** C9 fails on the code: the NFT-event pass pushes every entry without
    looking at the mints already listed, so a mint met twice there is listed
    twice, in [nftsDetected] as in [poapsDetected] (where it is charged
    twice: 10 points for one badge). *)
Theorem nftEvent_pass_lists_mint_twice (extractNFTName : string -> option string) :
  occurrences madLad
    (nftsDetected
       (detectIdentityAssets extractNFTName boughtTwice CexFacts.wallet0)) = 2
  /\ occurrences badge1
       (poapsDetected
          (detectIdentityAssets extractNFTName badgeSeenTwice
             CexFacts.wallet0)) = 2
  /\ riskContribution
       (detectIdentityAssets extractNFTName badgeSeenTwice
          CexFacts.wallet0) = 10.
Proof. repeat split. Qed.

End AssetsFacts.

(* ================================================================= *)
(** ** Properties of the compliance mock *)

Module RangeFacts.
Import Range.

Lemma hashAddress_nonneg (a : string) : 0 <= hashAddress a.
Proof. unfold hashAddress. apply Z.abs_nonneg. Qed.

(** A result with its timestamp left out. *)
Definition verdict (r : RangeCheckResult)
  : string * RiskStatus * Z * Details :=
  (address r, status r, riskScore r, details r).

(** The four ways through [checkRisk]: malformed, sanctioned, flagged,
    clean; [tac] closes the first three. *)
Ltac checkRisk_cases a tac :=
  unfold checkRisk;
  destruct (negb (JS.truthy a) || (JS.strlen a <? 32) || (JS.strlen a >? 44));
    [tac|];
  destruct (JS.arrIncludes MOCK_SANCTIONED_ADDRESSES a); [tac|];
  destruct (JS.arrIncludes MOCK_FLAGGED_ADDRESSES a); [tac|].

Lemma checkRisk_verdict now1 now2 a :
  verdict (checkRisk now1 a) = verdict (checkRisk now2 a).
Proof. checkRisk_cases a reflexivity. reflexivity. Qed.

Lemma checkRisk_clean now a :
  status (checkRisk now a) = Clean ->
  riskScore (checkRisk now a) = hashAddress a mod 30.
Proof.
  checkRisk_cases a discriminate.
  intros _. cbn [riskScore].
  apply Z.rem_mod_nonneg; [apply hashAddress_nonneg|lia].
Qed.

Lemma checkRisk_checkedAt now a : checkedAt (checkRisk now a) = now.
Proof. checkRisk_cases a reflexivity. reflexivity. Qed.

(** C4, as the code has it. Two calls of [checkRisk] on the same address
    agree on every field but [checkedAt], which is the time of each call:
    same address, status, risk score and details; and a Clean address gets
    the hash of the address reduced mod 30, a score from 0 to 29. *)
Theorem checkRisk_deterministic_up_to_timestamp (now1 now2 : Z) (a : string) :
  let r1 := checkRisk now1 a in
  let r2 := checkRisk now2 a in
  address r1 = address r2
  /\ status r1 = status r2
  /\ riskScore r1 = riskScore r2
  /\ details r1 = details r2
  /\ checkedAt r1 = now1 /\ checkedAt r2 = now2
  /\ (status r1 = Clean ->
      riskScore r1 = hashAddress a mod 30 /\ 0 <= riskScore r1 < 30).
Proof.
  intros r1 r2. pose proof (checkRisk_verdict now1 now2 a) as Hv.
  unfold verdict in Hv. injection Hv as Ha Hs Hr Hd.
  split; [exact Ha|]. split; [exact Hs|]. split; [exact Hr|].
  split; [exact Hd|].
  split; [apply checkRisk_checkedAt|]. split; [apply checkRisk_checkedAt|].
  intros Hc. subst r1. rewrite (checkRisk_clean now1 a Hc).
  split; [reflexivity|]. apply Z.mod_pos_bound. lia.
Qed.

(** C4 as stated fails: the results of two calls on the same address differ
    when the clock has moved between them. *)
Lemma checkRisk_results_differ_in_timestamp :
  checkRisk 1700000000000 CexFacts.wallet0
  <> checkRisk 1700000000101 CexFacts.wallet0.
Proof. vm_compute. discriminate. Qed.

End RangeFacts.

(* ================================================================= *)
(** ** Properties of the engine *)

Module EngineFacts.
Import Constants Engine.

(** *** The score *)

Lemma totalPoints_push ds d :
  totalPoints (JS.push ds d) = totalPoints ds + points d.
Proof.
  unfold JS.push, totalPoints. induction ds as [|x ds IH]; simpl; [lia|].
  rewrite IH. lia.
Qed.

(** The running score is 100 minus the deductions logged so far, and every
    logged deduction is positive. *)
Definition scoreInvariant (st : ScoreOutput) : Prop :=
  out_score st = 100 - totalPoints (deductions st)
  /\ Forall (fun d => 0 < points d) (deductions st).

Lemma deduct_invariant st why p :
  scoreInvariant st -> 0 < p -> scoreInvariant (deduct st why p).
Proof.
  intros [Hs Hf] Hp. unfold deduct, scoreInvariant. cbn [out_score deductions].
  rewrite totalPoints_push. cbn [points]. split; [lia|].
  unfold JS.push. apply Forall_app. split; [assumption|].
  now repeat constructor.
Qed.

Lemma calculatePrivacyScore_spec (input : ScoreInput) :
  let out := calculatePrivacyScore input in
  out_score out = clamp (100 - totalPoints (deductions out))
  /\ Forall (fun d => 0 < points d) (deductions out).
Proof.
  unfold calculatePrivacyScore.
  set (s0 := mkOutput 100 []).
  assert (H0 : scoreInvariant s0) by (split; [reflexivity|constructor]).
  set (s1 := if Cex.riskContribution _ >? 0 then _ else s0).
  assert (H1 : scoreInvariant s1).
  { subst s1. destruct (Z.gtb_spec (Cex.riskContribution (cexResult input)) 0);
      [now apply deduct_invariant|assumption]. }
  set (s2 := if Clustering.riskContribution _ >? 0 then _ else s1).
  assert (H2 : scoreInvariant s2).
  { subst s2.
    destruct (Z.gtb_spec
                (Clustering.riskContribution (clusteringResult input)) 0);
      [now apply deduct_invariant|assumption]. }
  set (s3 := if Assets.riskContribution _ >? 0 then _ else s2).
  assert (H3 : scoreInvariant s3).
  { subst s3.
    destruct (Z.gtb_spec (Assets.riskContribution (assetsResult input)) 0);
      [now apply deduct_invariant|assumption]. }
  set (s4 := match Range.status _ with
             | Range.Sanctioned => _ | Range.Flagged => _ | _ => s3 end).
  assert (H4 : scoreInvariant s4).
  { subst s4. destruct (Range.status (complianceResult input));
      try assumption; apply deduct_invariant; (assumption || lia). }
  set (s5 := if len _ >? 0 then _ else s4).
  assert (H5 : scoreInvariant s5).
  { subst s5.
    destruct (Z.gtb_spec
                (len (Range.sanctionedAddresses (addressRisks input))) 0);
      [apply deduct_invariant; [assumption|lia]|assumption]. }
  set (s6 := if washTradingDetected input then _ else s5).
  assert (H6 : scoreInvariant s6).
  { subst s6. destruct (washTradingDetected input);
      [apply deduct_invariant; [assumption|lia]|assumption]. }
  destruct H6 as [Hs Hf]. cbn [out_score deductions].
  split; [|assumption]. unfold clamp. now rewrite Hs.
Qed.

Lemma clamp_bounds (x : Z) : 0 <= clamp x <= 100.
Proof. unfold clamp. lia. Qed.

(** C1. The score the aggregator produces is [clamp(100 - sum of the logged
    deductions, 0, 100)], every logged deduction is positive, and the score
    lies in [0, 100]; the score carried in the report of [analyzeWallet]
    lies in [0, 100] for every address, whatever the service returns. *)
Theorem score_within_0_100 :
  (forall input : ScoreInput,
     let out := calculatePrivacyScore input in
     out_score out = clamp (100 - totalPoints (deductions out))
     /\ Forall (fun d => 0 <= points d) (deductions out)
     /\ 0 <= out_score out <= 100)
  /\
  (forall toFixed extractNFTName (heliusService : Helius.Service) (now : Z)
          (address : string),
     0 <= score (analyzeWallet toFixed extractNFTName heliusService now
                   address) <= 100).
Proof.
  split.
  - intros input out. destruct (calculatePrivacyScore_spec input) as [Hs Hf].
    fold out in Hs, Hf. split; [exact Hs|]. split.
    + eapply Forall_impl; [|exact Hf]. intros d Hd. simpl in Hd. lia.
    + rewrite Hs. apply clamp_bounds.
  - intros toFixed extractNFTName heliusService now address.
    unfold analyzeWallet, analysis.
    destruct (negb (isValidSolanaAddress address)).
    + simpl. lia.
    + cbn [score].
      match goal with
      | |- 0 <= out_score (calculatePrivacyScore ?i) <= 100 =>
          destruct (calculatePrivacyScore_spec i) as [Hs _]; rewrite Hs
      end.
      apply clamp_bounds.
Qed.

(** *** The risk tier *)

(** C2. The tier follows the four buckets, tried from the lowest:
    at most 25 is CRITICAL, at most 50 HIGH, at most 75 MEDIUM, above that
    LOW; 25, 50 and 75 are CRITICAL, HIGH and MEDIUM; and the tier never
    gets more severe as the score grows. *)
Theorem riskLevel_four_buckets :
  (forall score : Z,
     (score <= 25 -> determineRiskLevel score = CRITICAL)
     /\ (25 < score <= 50 -> determineRiskLevel score = HIGH)
     /\ (50 < score <= 75 -> determineRiskLevel score = MEDIUM)
     /\ (75 < score -> determineRiskLevel score = LOW))
  /\ determineRiskLevel 25 = CRITICAL
  /\ determineRiskLevel 50 = HIGH
  /\ determineRiskLevel 75 = MEDIUM
  /\ (forall s1 s2 : Z,
        s1 <= s2 ->
        severityRank (determineRiskLevel s2)
        <= severityRank (determineRiskLevel s1)).
Proof.
  assert (Hb : forall score : Z,
             (score <= 25 -> determineRiskLevel score = CRITICAL)
             /\ (25 < score <= 50 -> determineRiskLevel score = HIGH)
             /\ (50 < score <= 75 -> determineRiskLevel score = MEDIUM)
             /\ (75 < score -> determineRiskLevel score = LOW)).
  { intros score. unfold determineRiskLevel, SCORE_THRESHOLDS.CRITICAL,
      SCORE_THRESHOLDS.HIGH, SCORE_THRESHOLDS.MEDIUM.
    destruct (Z.leb_spec score 25); destruct (Z.leb_spec score 50);
      destruct (Z.leb_spec score 75); repeat split; intros; try lia;
      reflexivity. }
  split; [exact Hb|]. repeat split; try reflexivity.
  intros s1 s2 Hle.
  destruct (Hb s1) as (A1 & B1 & C1 & D1), (Hb s2) as (A2 & B2 & C2 & D2).
  destruct (Z_le_gt_dec s1 25); [rewrite A1 by lia|];
    [|destruct (Z_le_gt_dec s1 50); [rewrite B1 by lia|];
      [|destruct (Z_le_gt_dec s1 75);
        [rewrite C1 by lia|rewrite D1 by lia]]];
    (destruct (Z_le_gt_dec s2 25); [rewrite A2 by lia|];
     [|destruct (Z_le_gt_dec s2 50); [rewrite B2 by lia|];
       [|destruct (Z_le_gt_dec s2 75);
         [rewrite C2 by lia|rewrite D2 by lia]]]);
    simpl; lia.
Qed.

(** *** Invalid addresses *)

(** C3. For an address the base58 32-44 test rejects, [analyzeWallet]
    returns the degraded report: score 0, tier CRITICAL, and exactly one
    warning, of critical severity, whose message names the invalid-address
    error; being a report, it is a value and no error reaches the caller. *)
Theorem invalid_address_degraded_report
  toFixed extractNFTName (heliusService : Helius.Service) (now : Z)
  (address : string) :
  isValidSolanaAddress address = false ->
  let report :=
    analyzeWallet toFixed extractNFTName heliusService now address in
  report
  = errorReport now address ("Invalid Solana address: " ++ address)%string
  /\ score report = 0
  /\ riskLevel report = CRITICAL
  /\ warnings report
     = [mkWarning critical "error"
          ("Analysis error: Invalid Solana address: " ++ address)%string].
Proof.
  intros Hbad report. subst report. unfold analyzeWallet, analysis.
  rewrite Hbad. simpl. repeat split.
Qed.

(** A service that is not ready: the engine falls back to mock data. *)
Definition offlineService : Helius.Service :=
  Helius.mkService false (fun _ _ => []) (fun _ => 0%float).

Definition noName : string -> option string := fun _ => None.
Definition noDigits : float -> Z -> string := fun _ _ => "?"%string.

Lemma invalid_address_degraded_report_witness :
  let report :=
    analyzeWallet noDigits noName offlineService 1700000000000 "short_addr" in
  report
  = errorReport 1700000000000 "short_addr"
      "Invalid Solana address: short_addr"
  /\ score report = 0
  /\ riskLevel report = CRITICAL
  /\ warnings report
     = [mkWarning critical "error"
          "Analysis error: Invalid Solana address: short_addr"].
Proof.
  apply (invalid_address_degraded_report noDigits noName offlineService
           1700000000000 "short_addr").
  reflexivity.
Defined.

End EngineFacts.

(* ================================================================= *)
(** ** The scenarios of the specification, run on the embedding *)

Module Scenarios.
Import Constants.

Definition w : string := CexFacts.wallet0.
Definition friend : string := "FriendWallet1xxxxxxxxxxxxxxxxxxxxxxxxxxxxxxx".

Definition sendTo (sig : string) (ts : Z) (to : string) : Tx.t :=
  Tx.mk sig ts "Transferred 0.1 SOL" w [] []
    [NativeTransfer.mk w to 100000000%float] None.

Definition receiveFrom (sig : string) (ts : Z) (from : string) : Tx.t :=
  Tx.mk sig ts "Received 0.1 SOL" from [] []
    [NativeTransfer.mk from w 100000000%float] None.

(** Ten transfers, six of them with [friend]. *)
Definition sixOfTen : list Tx.t :=
  [ sendTo "b1" 1 friend; sendTo "b2" 2 friend; sendTo "b3" 3 friend;
    sendTo "b4" 4 friend; sendTo "b5" 5 friend; sendTo "b6" 6 friend;
    sendTo "b7" 7 "Other1xxxxxxxxxxxxxxxxxxxxxxxxxxxxxxxxxxxxxx";
    sendTo "b8" 8 "Other2xxxxxxxxxxxxxxxxxxxxxxxxxxxxxxxxxxxxxx";
    sendTo "b9" 9 "Other3xxxxxxxxxxxxxxxxxxxxxxxxxxxxxxxxxxxxxx";
    sendTo "b10" 10 "Other4xxxxxxxxxxxxxxxxxxxxxxxxxxxxxxxxxxxxxx" ].

(** Scenario B. *)
Example scenario_B_single_counterparty :
  let r := Clustering.detectClustering sixOfTen w in
  Clustering.pattern r = Clustering.single_counterparty
  /\ Clustering.detected r = true
  /\ Clustering.riskContribution r = 20
  /\ Clustering.clusteringPercentage r = 60%float
  /\ Clustering.dominantAddress r = Some friend.
Proof. vm_compute. repeat split. Qed.

(** Scenario C. *)
Example scenario_C_sanctioned :
  let r := Range.checkRisk 0 "7eEqn3zGpQqq8fYjzqhfvwRRRVrBe3D3P4YfZ12GsAC1" in
  Range.status r = Range.Sanctioned /\ Range.riskScore r = 100
  /\ Engine.out_score
       (Engine.calculatePrivacyScore
          (Engine.mkInput Cex.emptyResult Clustering.emptyResult
             Assets.emptyResult r (Range.mkRisks [] [] 0) false)) = 50.
Proof. vm_compute. repeat split. Qed.

(** A ready service with no history for any address. *)
Definition emptyHistory : Helius.Service :=
  Helius.mkService true (fun _ _ => []) (fun _ => 0%float).

(** Scenario D. *)
Example scenario_D_empty_history :
  let report :=
    Engine.analyzeWallet EngineFacts.noDigits EngineFacts.noName emptyHistory
      1700000000000 w in
  Engine.score report = 100 /\ Engine.riskLevel report = LOW
  /\ Engine.warnings report = []
  /\ Cex.detected (Engine.cex (Engine.detectorResults report)) = false
  /\ Clustering.detected
       (Engine.clustering (Engine.detectorResults report)) = false
  /\ Assets.detected (Engine.assets (Engine.detectorResults report)) = false.
Proof. vm_compute. repeat split. Qed.

(** The mock data of the engine: one Binance deposit (15 points) and one
    POAP (5 points), the badge of the NFT event not listed again by the
    token-transfer pass. *)
Example mock_data_report :
  let report :=
    Engine.analyzeWallet EngineFacts.noDigits EngineFacts.noName
      EngineFacts.offlineService 1700000000000 w in
  Engine.score report = 80 /\ Engine.riskLevel report = LOW
  /\ Engine.transactionsAnalyzed report = 3
  /\ map Assets.mint
       (Assets.poapsDetected
          (Engine.assets (Engine.detectorResults report)))
     = ["MockMint123456789012345678901234567890"%string].
Proof. vm_compute. repeat split. Qed.

(** Back and forth with [friend]: sent, received, sent, received. *)
Definition backAndForthTxs : list Tx.t :=
  [ sendTo "w1" 10 friend; receiveFrom "w2" 20 friend;
    sendTo "w3" 30 friend; receiveFrom "w4" 40 friend ].

Example washTrading_alternating :
  Clustering.detectWashTrading backAndForthTxs w
  = Clustering.mkWash true [Clustering.mkPair friend 2 2 3].
Proof. vm_compute. reflexivity. Qed.

(** Two transfers out and two back at one and the same time: the sort keeps
    the sent stamps first, which leaves a single alternation. *)
Definition sameInstantTxs : list Tx.t :=
  [ sendTo "t1" 10 friend; receiveFrom "t2" 10 friend;
    sendTo "t3" 10 friend; receiveFrom "t4" 10 friend ].

Example washTrading_same_instant :
  Clustering.detectWashTrading sameInstantTxs w = Clustering.mkWash false []
  /\ ClusteringFacts.mergedTimeline sameInstantTxs w friend
     = [(10, Clustering.Sent); (10, Clustering.Sent);
        (10, Clustering.Received); (10, Clustering.Received)].
Proof. vm_compute. split; reflexivity. Qed.

(** The pairs of differing type in the two merged sequences above: three
    in the alternating one, a single one when all stamps share a time. *)
Example differingPairs_of_the_scenarios :
  ClusteringFacts.differingPairs
    (ClusteringFacts.mergedTimeline backAndForthTxs w friend) = 3
  /\ ClusteringFacts.differingPairs
       (ClusteringFacts.mergedTimeline sameInstantTxs w friend) = 1
  /\ ClusteringFacts.differingPairs
       [(1, Clustering.Sent); (2, Clustering.Sent); (3, Clustering.Received);
        (4, Clustering.Received); (5, Clustering.Sent)] = 2.
Proof. vm_compute. repeat split. Qed.

Example hashAddress_abc : Range.hashAddress "abc" = 96354.
Proof. reflexivity. Qed.

Example hashAddress_wraps :
  Range.hashAddress "vines1vzrYbzLMRdu58ou5XTby4qAqVRLmqo36NKPTg" < 2 ^ 31 + 1.
Proof. vm_compute. reflexivity. Qed.

Example extractDomainName_leftmost :
  Assets.matchSolDomain "Registered my-name.sol and other.sol"
  = Some "my-name.sol"%string
  /\ Assets.matchSolDomain "paid .sol fee" = None.
Proof. vm_compute. split; reflexivity. Qed.

End Scenarios.


(* ================================================================= *)
(** ** Further properties of the CEX detector *)

Module CexInvariants.
Import Constants Cex.

Lemma findCEXAddress_known (a : string) (m : CexEntry) :
  findCEXAddress a = Some m -> In m KNOWN_CEX.
Proof.
  unfold findCEXAddress. destruct (negb (JS.truthy a)); [discriminate|].
  intros H. now apply find_some in H.
Qed.

Lemma existsb_find {A} (f : A -> bool) (l : list A) :
  existsb f l = true <-> exists x, find f l = Some x.
Proof.
  induction l as [|y l IH]; simpl.
  - split; [discriminate|]. intros [x H]. discriminate.
  - destruct (f y); simpl; [|exact IH].
    split; [|reflexivity]. intros _. now exists y.
Qed.

Lemma isKnownCEX_getCEXName (a : string) :
  isKnownCEX a = true <-> exists n, getCEXName a = Some n.
Proof.
  unfold isKnownCEX, getCEXName, findCEXAddress, JS.truthy.
  destruct (String.eqb_spec a "") as [->|Hne]; simpl negb; cbv iota.
  - split; [vm_compute; discriminate|]. intros [n H]. discriminate.
  - rewrite existsb_find. split.
    + intros [x Hx]. rewrite Hx. now exists (Constants.name x).
    + intros [n H].
      destruct (find _ KNOWN_CEX) as [x|]; [now exists x|discriminate].
Qed.

(** X1. [isKnownCEX] and [getCEXName] agree on every string, the empty one
    included: an address is known exactly when it has an exchange name. *)
Theorem isKnownCEX_iff_named (a : string) :
  isKnownCEX a = true <-> exists n, getCEXName a = Some n.
Proof. exact (isKnownCEX_getCEXName a). Qed.

(** *** An induction principle for the scan *)

(** Whatever holds of the empty accumulators and is kept by every push of a
    registry entry for a transaction of the list holds of the final ones. *)
Section ScanInduction.
Variable w : string.
Variable txs : list Tx.t.
Variable P : Acc -> Prop.
Hypothesis P_deposit : forall st tx m amt,
  In tx txs -> In m KNOWN_CEX -> P st -> P (pushDeposit st tx m amt).
Hypothesis P_withdrawal : forall st tx m amt,
  In tx txs -> In m KNOWN_CEX -> P st -> P (pushWithdrawal st tx m amt).

Lemma scanTransfer_keeps tx from to amt st :
  In tx txs -> P st -> P (scanTransfer tx w from to amt st).
Proof.
  intros Htx Hst. unfold scanTransfer.
  assert (H1 : P match findCEXAddress from with
                 | Some cexMatch =>
                     if String.eqb to w
                     then pushDeposit st tx cexMatch (Some amt) else st
                 | None => st
                 end).
  { destruct (findCEXAddress from) as [m|] eqn:E; [|assumption].
    destruct (String.eqb to w); [|assumption].
    apply P_deposit; eauto using findCEXAddress_known. }
  destruct (findCEXAddress to) as [m|] eqn:E; [|assumption].
  destruct (String.eqb from w); [|assumption].
  apply P_withdrawal; eauto using findCEXAddress_known.
Qed.

Lemma scanTx_keeps tx st : In tx txs -> P st -> P (scanTx w st tx).
Proof.
  intros Htx Hst. unfold scanTx, scanTransfers.
  assert (Hn : P (fold_left (scanNative tx w) (Tx.nativeTransfers tx) st)).
  { revert st Hst. induction (Tx.nativeTransfers tx) as [|tr l IH];
      intros st Hst; simpl; [assumption|].
    apply IH. now apply scanTransfer_keeps. }
  revert Hn. generalize (fold_left (scanNative tx w) (Tx.nativeTransfers tx) st).
  intros st1 Hst1.
  assert (Ht : P (fold_left (scanToken tx w) (Tx.tokenTransfers tx) st1)).
  { revert st1 Hst1. induction (Tx.tokenTransfers tx) as [|tr l IH];
      intros st1 Hst1; simpl; [assumption|].
    apply IH. now apply scanTransfer_keeps. }
  revert Ht. generalize (fold_left (scanToken tx w) (Tx.tokenTransfers tx) st1).
  intros st2 Hst2. unfold scanFeePayer.
  destruct (findCEXAddress (Tx.feePayer tx)) as [m|] eqn:E; [|assumption].
  destruct (negb (String.eqb (Tx.feePayer tx) w)); [|assumption].
  destruct (negb (existsb _ (acc_deposits st2))); [|assumption].
  apply P_deposit; eauto using findCEXAddress_known.
Qed.

Lemma scan_keeps : P acc0 -> P (fold_left (scanTx w) txs acc0).
Proof.
  intros H0.
  assert (H : forall l st, (forall tx, In tx l -> In tx txs) -> P st ->
                           P (fold_left (scanTx w) l st)).
  { induction l as [|tx l IH]; intros st Hl Hst; simpl; [assumption|].
    apply IH; [intros t Ht; apply Hl; now right|].
    apply scanTx_keeps; [apply Hl; now left|assumption]. }
  apply H; auto.
Qed.

End ScanInduction.

(** *** Shape of the records *)

(** A record of direction [dir] made for a transaction of [txs] from a
    registry entry. *)
Definition recordOf (txs : list Tx.t) (dir : Direction) (d : CEXTransaction)
  : Prop :=
  direction d = dir
  /\ In (mkCex (exchangeAddress d) (exchangeName d)) KNOWN_CEX
  /\ exists tx, In tx txs /\ signature d = Tx.signature tx
                /\ timestamp d = Tx.timestamp tx.

Lemma cexEntry_eta (m : CexEntry) :
  mkCex (Constants.address m) (Constants.name m) = m.
Proof. now destruct m. Qed.

(** X2. Every deposit record has direction deposit, every withdrawal record
    direction withdrawal; each names a registry entry (address and exchange
    name together) and carries the signature and timestamp of a transaction
    of the input. *)
Theorem cex_records_wellformed (txs : list Tx.t) (w : string) :
  let r := detectCEXTransactions txs w in
  Forall (recordOf txs deposit) (deposits r)
  /\ Forall (recordOf txs withdrawal) (withdrawals r).
Proof.
  unfold detectCEXTransactions. cbn [deposits withdrawals].
  apply (scan_keeps w txs
           (fun st => Forall (recordOf txs deposit) (acc_deposits st)
                      /\ Forall (recordOf txs withdrawal)
                           (acc_withdrawals st))).
  - intros st tx m amt Htx Hm [Hd Hw]. cbn [pushDeposit acc_deposits
      acc_withdrawals]. split; [|assumption].
    unfold JS.push. apply Forall_app. split; [assumption|].
    constructor; [|constructor]. unfold recordOf. simpl.
    rewrite cexEntry_eta. repeat split; try assumption. now exists tx.
  - intros st tx m amt Htx Hm [Hd Hw]. cbn [pushWithdrawal acc_deposits
      acc_withdrawals]. split; [assumption|].
    unfold JS.push. apply Forall_app. split; [assumption|].
    constructor; [|constructor]. unfold recordOf. simpl.
    rewrite cexEntry_eta. repeat split; try assumption. now exists tx.
  - split; constructor.
Qed.

(** *** The exchanges involved *)

Lemma StrSet_add_In (s : JS.StrSet.t) (x y : string) :
  In y (JS.StrSet.add s x) <-> y = x \/ In y s.
Proof.
  unfold JS.StrSet.add, JS.arrIncludes.
  destruct (existsb (String.eqb x) s) eqn:E.
  - apply JSFacts.existsb_eqb_In in E. split; [now right|].
    intros [->|H]; assumption.
  - rewrite in_app_iff. simpl. split.
    + intros [H|[H|[]]]; [now right|now left].
    + intros [H|H]; [right; now left|now left].
Qed.

Lemma StrSet_add_NoDup (s : JS.StrSet.t) (x : string) :
  NoDup s -> NoDup (JS.StrSet.add s x).
Proof.
  intros Hnd. unfold JS.StrSet.add, JS.arrIncludes.
  destruct (existsb (String.eqb x) s) eqn:E; [assumption|].
  apply NoDup_app; [assumption|repeat constructor; intros []|].
  intros y Hy [<-|[]]. apply JSFacts.existsb_eqb_In in Hy. congruence.
Qed.

(** The exchange names of the records made so far. *)
Definition namesOf (st : Acc) : list string :=
  map exchangeName (acc_deposits st ++ acc_withdrawals st).

Lemma exchangesInvolved_names (txs : list Tx.t) (w : string) :
  let r := detectCEXTransactions txs w in
  NoDup (exchangesInvolved r)
  /\ forall n, In n (exchangesInvolved r)
               <-> In n (map exchangeName (deposits r ++ withdrawals r)).
Proof.
  unfold detectCEXTransactions. cbn [deposits withdrawals exchangesInvolved].
  apply (scan_keeps w txs
           (fun st => NoDup (exchangesSet st)
                      /\ forall n, In n (exchangesSet st)
                                   <-> In n (namesOf st))).
  - intros st tx m amt _ _ [Hnd Hn]. cbn [pushDeposit exchangesSet].
    split; [now apply StrSet_add_NoDup|].
    intros n. rewrite StrSet_add_In, Hn. unfold namesOf.
    cbn [acc_deposits acc_withdrawals pushDeposit pushWithdrawal].
    unfold JS.push.
    rewrite !map_app, !in_app_iff. simpl.
    split; [intros [->|[H|H]]|intros [[H|[<-|[]]]|H]]; auto.
  - intros st tx m amt _ _ [Hnd Hn]. cbn [pushWithdrawal exchangesSet].
    split; [now apply StrSet_add_NoDup|].
    intros n. rewrite StrSet_add_In, Hn. unfold namesOf.
    cbn [acc_deposits acc_withdrawals pushDeposit pushWithdrawal].
    unfold JS.push.
    rewrite !map_app, !in_app_iff. simpl.
    split; [intros [->|[H|H]]|intros [H|[H|[<-|[]]]]]; auto.
  - split; [constructor|]. intros n. reflexivity.
Qed.

(** X3. [exchangesInvolved] lists, each once, exactly the exchange names that
    occur in the deposit and withdrawal records. *)
Theorem exchangesInvolved_are_the_record_names (txs : list Tx.t) (w : string) :
  let r := detectCEXTransactions txs w in
  NoDup (exchangesInvolved r)
  /\ forall n, In n (exchangesInvolved r)
               <-> In n (map exchangeName (deposits r ++ withdrawals r)).
Proof. exact (exchangesInvolved_names txs w). Qed.

(** *** Bounds of the contribution *)

Lemma len_nonneg {A} (l : list A) : 0 <= len l.
Proof. unfold len. lia. Qed.

(** X4. The contribution lies between 0 and 50; it is 0 exactly when nothing was
    detected and at least 10 otherwise. *)
Theorem cex_contribution_bounds (txs : list Tx.t) (w : string) :
  let r := detectCEXTransactions txs w in
  0 <= riskContribution r <= 50
  /\ (detected r = false <-> riskContribution r = 0)
  /\ (detected r = true <-> 10 <= riskContribution r).
Proof.
  unfold detectCEXTransactions. cbn [riskContribution detected].
  set (st := fold_left (scanTx w) txs acc0).
  pose proof (len_nonneg (acc_deposits st)) as Hd.
  pose proof (len_nonneg (acc_withdrawals st)) as Hw.
  rewrite orb_false_iff, orb_true_iff.
  destruct (Z.gtb_spec (len (acc_deposits st)) 0);
    destruct (Z.gtb_spec (len (acc_withdrawals st)) 0);
    repeat split; intros; try lia; intuition (try discriminate; lia).
Qed.


(** *** How the lists grow *)

Definition withdrawalDelta (tx : Tx.t) (w from to : string) (amt : float)
  : list CEXTransaction :=
  match findCEXAddress to with
  | Some m =>
      if String.eqb from w
      then [mkCexTx (Tx.signature tx) (Tx.timestamp tx) (Constants.name m)
              (Constants.address m) withdrawal (Some amt)]
      else []
  | None => []
  end.

Lemma scanTransfer_withdrawals tx w from to amt st :
  acc_withdrawals (scanTransfer tx w from to amt st)
  = acc_withdrawals st ++ withdrawalDelta tx w from to amt.
Proof.
  unfold scanTransfer, withdrawalDelta.
  destruct (findCEXAddress from) as [m|];
    destruct (findCEXAddress to) as [m'|];
    destruct (String.eqb to w); destruct (String.eqb from w);
    simpl; unfold JS.push; now rewrite ?app_nil_r.
Qed.

Definition nativeWithdrawal tx w (tr : NativeTransfer.t) :=
  withdrawalDelta tx w (NativeTransfer.fromUserAccount tr)
    (NativeTransfer.toUserAccount tr)
    (PrimFloat.div (NativeTransfer.amount tr) 1e9%float).

Definition tokenWithdrawal tx w (tr : TokenTransfer.t) :=
  withdrawalDelta tx w (TokenTransfer.fromUserAccount tr)
    (TokenTransfer.toUserAccount tr) (TokenTransfer.tokenAmount tr).

Lemma fold_native_withdrawals tx w l : forall st,
  acc_withdrawals (fold_left (scanNative tx w) l st)
  = acc_withdrawals st ++ flat_map (nativeWithdrawal tx w) l.
Proof.
  induction l as [|tr l IH]; intros st; simpl.
  - now rewrite app_nil_r.
  - rewrite IH. unfold scanNative. rewrite scanTransfer_withdrawals.
    now rewrite <- app_assoc.
Qed.

Lemma fold_token_withdrawals tx w l : forall st,
  acc_withdrawals (fold_left (scanToken tx w) l st)
  = acc_withdrawals st ++ flat_map (tokenWithdrawal tx w) l.
Proof.
  induction l as [|tr l IH]; intros st; simpl.
  - now rewrite app_nil_r.
  - rewrite IH. unfold scanToken. rewrite scanTransfer_withdrawals.
    now rewrite <- app_assoc.
Qed.

Lemma transferWithdrawals_eq w tx :
  transferWithdrawals w tx
  = flat_map (nativeWithdrawal tx w) (Tx.nativeTransfers tx)
    ++ flat_map (tokenWithdrawal tx w) (Tx.tokenTransfers tx).
Proof.
  unfold transferWithdrawals, scanTransfers.
  now rewrite fold_token_withdrawals, fold_native_withdrawals.
Qed.

Lemma scanTx_withdrawals w st tx :
  acc_withdrawals (scanTx w st tx)
  = acc_withdrawals st ++ transferWithdrawals w tx.
Proof.
  unfold scanTx. rewrite CexFacts.scanFeePayer_withdrawals.
  rewrite transferWithdrawals_eq. unfold scanTransfers.
  rewrite fold_token_withdrawals, fold_native_withdrawals.
  now rewrite app_assoc.
Qed.

Lemma fold_scanTx_withdrawals w txs : forall st,
  acc_withdrawals (fold_left (scanTx w) txs st)
  = acc_withdrawals st ++ flat_map (transferWithdrawals w) txs.
Proof.
  induction txs as [|tx txs IH]; intros st; simpl.
  - now rewrite app_nil_r.
  - rewrite IH, scanTx_withdrawals. now rewrite <- app_assoc.
Qed.

(** A transfer the target sends to a registry address. *)
Definition sentToCEX (w from to : string) : bool :=
  String.eqb from w && isKnownCEX to.

Definition withdrawalTransfers (w : string) (tx : Tx.t) : Z :=
  len (filter (fun tr => sentToCEX w (NativeTransfer.fromUserAccount tr)
                           (NativeTransfer.toUserAccount tr))
         (Tx.nativeTransfers tx))
  + len (filter (fun tr => sentToCEX w (TokenTransfer.fromUserAccount tr)
                             (TokenTransfer.toUserAccount tr))
           (Tx.tokenTransfers tx)).

Lemma isKnownCEX_find (a : string) :
  isKnownCEX a = match findCEXAddress a with Some _ => true | None => false end.
Proof.
  destruct (findCEXAddress a) as [m|] eqn:E.
  - apply isKnownCEX_getCEXName. unfold getCEXName. rewrite E. now eexists.
  - apply not_true_is_false. intros H. apply isKnownCEX_getCEXName in H.
    destruct H as [n H]. unfold getCEXName in H. now rewrite E in H.
Qed.

Lemma withdrawalDelta_len tx w from to amt :
  len (withdrawalDelta tx w from to amt)
  = if sentToCEX w from to then 1 else 0.
Proof.
  unfold withdrawalDelta, sentToCEX. rewrite isKnownCEX_find.
  destruct (findCEXAddress to); destruct (String.eqb from w); reflexivity.
Qed.

Lemma len_app {A} (l1 l2 : list A) : len (l1 ++ l2) = len l1 + len l2.
Proof. unfold len. rewrite length_app. lia. Qed.

Lemma len_flat_map_filter {A B} (f : A -> list B) (p : A -> bool) l :
  (forall x, len (f x) = if p x then 1 else 0) ->
  len (flat_map f l) = len (filter p l).
Proof.
  intros H. induction l as [|x l IH]; simpl; [reflexivity|].
  rewrite len_app, IH, H. destruct (p x); [|reflexivity].
  unfold len. cbn [List.length]. lia.
Qed.

Lemma withdrawals_transfers (txs : list Tx.t) (w : string) :
  withdrawals (detectCEXTransactions txs w)
  = flat_map (transferWithdrawals w) txs
  /\ forall tx, len (transferWithdrawals w tx) = withdrawalTransfers w tx.
Proof.
  split.
  - unfold detectCEXTransactions. cbn [withdrawals].
    now rewrite fold_scanTx_withdrawals.
  - intros tx. rewrite transferWithdrawals_eq, len_app.
    unfold withdrawalTransfers. f_equal;
      apply len_flat_map_filter; intros tr; apply withdrawalDelta_len.
Qed.

(** X5. Withdrawals carry no guard: the list is, in transaction order, one
    record for every native or token transfer the target sends to a registry
    address, so the same signature can occur several times. *)
Theorem withdrawals_one_per_transfer (txs : list Tx.t) (w : string) :
  withdrawals (detectCEXTransactions txs w)
  = flat_map (transferWithdrawals w) txs
  /\ forall tx, len (transferWithdrawals w tx) = withdrawalTransfers w tx.
Proof. exact (withdrawals_transfers txs w). Qed.

(** X6. The deposits and withdrawals found in a history stay, in place, when the
    history is extended; the contribution never goes down. *)
Theorem cex_records_grow_with_history (txs more : list Tx.t) (w : string) :
  let r := detectCEXTransactions txs w in
  let r' := detectCEXTransactions (txs ++ more) w in
  (exists ds, deposits r' = deposits r ++ ds)
  /\ (exists ws, withdrawals r' = withdrawals r ++ ws)
  /\ riskContribution r <= riskContribution r'.
Proof.
  unfold detectCEXTransactions.
  cbn [deposits withdrawals riskContribution].
  rewrite fold_left_app.
  set (st := fold_left (scanTx w) txs acc0).
  assert (Hd : exists ds, acc_deposits (fold_left (scanTx w) more st)
                          = acc_deposits st ++ ds).
  { generalize st. induction more as [|tx l IH]; intros s; simpl.
    - exists []. now rewrite app_nil_r.
    - destruct (IH (scanTx w s tx)) as [ds Hds]. rewrite Hds.
      rewrite CexFacts.scanTx_deposits. eexists.
      now rewrite <- !app_assoc. }
  assert (Hw : exists ws, acc_withdrawals (fold_left (scanTx w) more st)
                          = acc_withdrawals st ++ ws).
  { rewrite fold_scanTx_withdrawals. now eexists. }
  destruct Hd as [ds Hd], Hw as [ws Hw].
  split; [now exists ds|]. split; [now exists ws|].
  rewrite Hd, Hw, !len_app.
  pose proof (len_nonneg ds). pose proof (len_nonneg ws). lia.
Qed.

(** [tx] has a transfer or a fee payer the detector records. *)
Definition touchesCEX (w : string) (tx : Tx.t) : bool :=
  capturedByTransfers w tx
  || match feePayerIsCEX w tx with Some _ => true | None => false end.

Lemma fold_scanTx_deposits_grow w l : forall st,
  exists ds, acc_deposits (fold_left (scanTx w) l st) = acc_deposits st ++ ds.
Proof.
  induction l as [|tx l IH]; intros st; simpl.
  - exists []. now rewrite app_nil_r.
  - destruct (IH (scanTx w st tx)) as [ds Hds]. rewrite Hds.
    rewrite CexFacts.scanTx_deposits. eexists. now rewrite <- !app_assoc.
Qed.

Lemma scanTx_touched_deposit w st tx :
  (transferDeposits w tx <> []
   \/ exists m, feePayerIsCEX w tx = Some m) ->
  acc_deposits (scanTx w st tx) <> [].
Proof.
  intros H. rewrite CexFacts.scanTx_deposits.
  destruct (transferDeposits w tx) as [|d l] eqn:Ed.
  - destruct H as [H|[m Hm]]; [now elim H|].
    rewrite app_nil_r. unfold CexFacts.feePayerDelta. rewrite Hm.
    destruct (acc_deposits st) as [|d0 l0]; [|discriminate].
    simpl. discriminate.
  - destruct (acc_deposits st); discriminate.
Qed.

Lemma untouched_no_deposit w txs : forall st,
  (forall tx, In tx txs -> touchesCEX w tx = false) ->
  acc_deposits (fold_left (scanTx w) txs st) = acc_deposits st.
Proof.
  induction txs as [|tx txs IH]; intros st H; simpl; [reflexivity|].
  rewrite IH by (intros t Ht; apply H; now right).
  rewrite CexFacts.scanTx_deposits.
  specialize (H tx (or_introl eq_refl)). unfold touchesCEX in H.
  apply orb_false_iff in H as [Hc Hf]. unfold capturedByTransfers in Hc.
  destruct (transferDeposits w tx); [|discriminate].
  unfold CexFacts.feePayerDelta.
  destruct (feePayerIsCEX w tx); [discriminate|]. now rewrite !app_nil_r.
Qed.

Lemma untouched_no_withdrawal w txs :
  (forall tx, In tx txs -> touchesCEX w tx = false) ->
  flat_map (transferWithdrawals w) txs = [].
Proof.
  induction txs as [|tx txs IH]; intros H; simpl; [reflexivity|].
  rewrite IH by (intros t Ht; apply H; now right).
  specialize (H tx (or_introl eq_refl)). unfold touchesCEX in H.
  apply orb_false_iff in H as [Hc _]. unfold capturedByTransfers in Hc.
  destruct (transferDeposits w tx); [|discriminate].
  now destruct (transferWithdrawals w tx).
Qed.

Lemma len_gtb_nonempty {A} (l : list A) : (len l >? 0) = true <-> l <> [].
Proof.
  destruct l; unfold len; simpl; split; try discriminate; try reflexivity.
  intros H. now elim H.
Qed.

(** A transfer the target receives from a registry address. *)
Definition receivedFromCEX (w from to : string) : bool :=
  isKnownCEX from && String.eqb to w.

Definition depositTransfers (w : string) (tx : Tx.t) : Z :=
  len (filter (fun tr => receivedFromCEX w (NativeTransfer.fromUserAccount tr)
                           (NativeTransfer.toUserAccount tr))
         (Tx.nativeTransfers tx))
  + len (filter (fun tr => receivedFromCEX w
                             (TokenTransfer.fromUserAccount tr)
                             (TokenTransfer.toUserAccount tr))
           (Tx.tokenTransfers tx)).

(** [tx] involves an exchange: the target receives from or sends to a
    registry address in one of its transfers, or its fee payer is a registry
    address other than the target. *)
Definition involvesCEX (w : string) (tx : Tx.t) : bool :=
  (depositTransfers w tx + withdrawalTransfers w tx >? 0)
  || (isKnownCEX (Tx.feePayer tx) && negb (String.eqb (Tx.feePayer tx) w)).

Lemma depositDelta_len tx w from to amt :
  len (CexFacts.depositDelta tx w from to amt)
  = if receivedFromCEX w from to then 1 else 0.
Proof.
  unfold CexFacts.depositDelta, receivedFromCEX. rewrite isKnownCEX_find.
  destruct (findCEXAddress from); destruct (String.eqb to w); reflexivity.
Qed.

Lemma transferDeposits_len w tx :
  len (transferDeposits w tx) = depositTransfers w tx.
Proof.
  unfold transferDeposits, scanTransfers.
  rewrite CexFacts.fold_token_deposits, CexFacts.fold_native_deposits.
  simpl. rewrite len_app. unfold depositTransfers. f_equal;
    apply len_flat_map_filter; intros tr; apply depositDelta_len.
Qed.

Lemma touchesCEX_involves w tx : touchesCEX w tx = involvesCEX w tx.
Proof.
  unfold touchesCEX, involvesCEX, capturedByTransfers, feePayerIsCEX.
  rewrite <- transferDeposits_len.
  rewrite <- (proj2 (withdrawals_transfers [] w) tx).
  rewrite isKnownCEX_find. f_equal.
  - destruct (transferDeposits w tx) as [|d l];
      destruct (transferWithdrawals w tx) as [|x l']; unfold len;
      cbn [List.length]; try reflexivity; symmetry; apply Z.gtb_lt; lia.
  - destruct (findCEXAddress (Tx.feePayer tx)); [|reflexivity].
    now destruct (negb (String.eqb (Tx.feePayer tx) w)).
Qed.

(** X7. CEX activity is detected exactly when some transaction of the history
    involves an exchange: a transfer between the target and a registry
    address, either way, or a fee payer that is a registry address other
    than the target.  An empty history, or one among third parties only, is
    not detected. *)
Theorem cex_detected_iff_involved (txs : list Tx.t) (w : string) :
  detected (detectCEXTransactions txs w) = true
  <-> exists tx, In tx txs /\ involvesCEX w tx = true.
Proof.
  assert (Hi : (exists tx, In tx txs /\ involvesCEX w tx = true)
               <-> exists tx, In tx txs /\ touchesCEX w tx = true).
  { split; intros [tx [Hin H]]; exists tx; split; try assumption;
      [now rewrite touchesCEX_involves|now rewrite <- touchesCEX_involves]. }
  rewrite Hi. clear Hi.
  pose proof (proj1 (withdrawals_transfers txs w)) as Hw.
  unfold detectCEXTransactions in *. cbn [detected withdrawals] in *.
  rewrite orb_true_iff, !len_gtb_nonempty, Hw. split.
  - intros H.
    destruct (existsb (touchesCEX w) txs) eqn:E.
    + apply existsb_exists in E. exact E.
    + exfalso.
      assert (Hall : forall tx, In tx txs -> touchesCEX w tx = false).
      { intros tx Htx. apply not_true_is_false. intros Ht.
        apply not_true_iff_false in E. apply E. apply existsb_exists.
        now exists tx. }
      destruct H as [H|H]; apply H.
      * now rewrite untouched_no_deposit.
      * now apply untouched_no_withdrawal.
  - intros [tx [Hin Ht]]. unfold touchesCEX in Ht.
    destruct (transferWithdrawals w tx) as [|x l] eqn:Ew.
    + left. apply in_split in Hin as [l1 [l2 ->]].
      rewrite fold_left_app. simpl.
      destruct (fold_scanTx_deposits_grow w l2
                  (scanTx w (fold_left (scanTx w) l1 acc0) tx)) as [ds Hds].
      rewrite Hds. intros Hnil. apply app_eq_nil in Hnil as [Hnil _].
      revert Hnil. apply scanTx_touched_deposit.
      unfold capturedByTransfers in Ht. rewrite Ew in Ht.
      destruct (transferDeposits w tx); [|left; discriminate].
      simpl in Ht. right.
      destruct (feePayerIsCEX w tx) as [m|]; [now exists m|discriminate].
    + right. intros Hnil.
      assert (Hx : In x (flat_map (transferWithdrawals w) txs)).
      { apply in_flat_map. exists tx. split; [assumption|].
        rewrite Ew. now left. }
      rewrite Hnil in Hx. destruct Hx.
Qed.

(** *** Warnings and actions *)

(** X8. On a result of the detector there is one warning per record, deposits
    first, and the list of recommended actions is empty exactly when nothing
    was detected. *)
Theorem cex_warnings_and_actions (txs : list Tx.t) (w : string) :
  let r := detectCEXTransactions txs w in
  len (generateCEXWarnings r) = totalCEXTransactions r
  /\ (CexActions.generateCEXActions r = [] <-> detected r = false).
Proof.
  intros r. split.
  - unfold generateCEXWarnings. rewrite len_app. unfold len.
    rewrite !length_map. reflexivity.
  - destruct (exchangesInvolved_names txs w) as [_ Hn].
    fold r in Hn. unfold CexActions.generateCEXActions.
    assert (Hdet : detected r = (len (deposits r) >? 0)
                                || (len (withdrawals r) >? 0))
      by reflexivity.
    rewrite Hdet, orb_false_iff.
    destruct (len (deposits r) >? 0) eqn:Ed; [split; [discriminate|]|].
    { intros [H _]. discriminate. }
    destruct (len (withdrawals r) >? 0) eqn:Ew; [split; [discriminate|]|].
    { intros [_ H]. discriminate. }
    split; [auto|]. intros _.
    destruct (exchangesInvolved r) as [|n l] eqn:En; [reflexivity|].
    exfalso. assert (Hin : In n (n :: l)) by now left.
    apply Hn in Hin.
    apply not_true_iff_false in Ed, Ew.
    rewrite len_gtb_nonempty in Ed, Ew.
    destruct (deposits r); [|apply Ed; discriminate].
    destruct (withdrawals r); [|apply Ew; discriminate].
    destruct Hin.
Qed.

End CexInvariants.


(* ================================================================= *)
(** ** Further properties of the clustering detector *)

Module ClusteringInvariants.
Import Constants Clustering.

(** *** The counter map *)

(** The count of [k]: [addressCounts.get(k) || 0]. *)
Definition countOf (m : JS.Map.t Z) (k : string) : Z :=
  match JS.Map.get m k with Some n => n | None => 0 end.

Definition sumCounts (m : JS.Map.t Z) : Z :=
  fold_right (fun e acc => snd e + acc) 0 m.

Lemma sumCounts_set m k v :
  sumCounts (JS.Map.set m k v) = sumCounts m - countOf m k + v.
Proof.
  unfold countOf. induction m as [|[k0 v0] m IH]; simpl; [lia|].
  destruct (String.eqb k0 k); simpl; lia.
Qed.

Lemma In_set (m : JS.Map.t Z) k v k' v' :
  In (k', v') (JS.Map.set m k v) -> (k' = k /\ v' = v) \/ In (k', v') m.
Proof.
  induction m as [|[k0 v0] m IH]; simpl.
  - intros [H|[]]. injection H as <- <-. now left.
  - destruct (String.eqb_spec k0 k) as [->|Hne]; simpl.
    + intros [H|H]; [injection H as <- <-; now left|right; now right].
    + intros [H|H]; [right; now left|].
      destruct (IH H) as [?|?]; [now left|right; now right].
Qed.

(** How many transfers of the history count as an interaction with [k]. *)
Definition interactionWith (w k from to : string) : bool :=
  ClusteringFacts.isInteraction w from to
  && String.eqb (otherAddress w from to) k.

Definition interactionsWith (txs : list Tx.t) (w k : string) : Z :=
  fold_right
    (fun tx acc =>
       len (filter (fun tr => interactionWith w k
                                (NativeTransfer.fromUserAccount tr)
                                (NativeTransfer.toUserAccount tr))
              (Tx.nativeTransfers tx))
       + len (filter (fun tr => interactionWith w k
                                  (TokenTransfer.fromUserAccount tr)
                                  (TokenTransfer.toUserAccount tr))
                (Tx.tokenTransfers tx))
       + acc)
    0 txs.

Lemma countOf_set m k v k' :
  countOf (JS.Map.set m k v) k' = if String.eqb k k' then v else countOf m k'.
Proof.
  unfold countOf. rewrite JSFacts.get_set. now destruct (String.eqb k k').
Qed.

Lemma countTransfer_countOf w from to st k :
  countOf (fst (countTransfer w from to st)) k
  = countOf (fst st) k + (if interactionWith w k from to then 1 else 0).
Proof.
  destruct st as [m n]. unfold countTransfer, interactionWith,
    ClusteringFacts.isInteraction. cbv zeta.
  destruct (JS.truthy _ && negb _); cbn [fst andb]; [|lia].
  rewrite countOf_set. fold (countOf m (otherAddress w from to)).
  destruct (String.eqb_spec (otherAddress w from to) k) as [->|Hne]; lia.
Qed.

Lemma fold_native_countOf w k l : forall st,
  countOf (fst (fold_left (countNative w) l st)) k
  = countOf (fst st) k
    + len (filter (fun tr => interactionWith w k
                               (NativeTransfer.fromUserAccount tr)
                               (NativeTransfer.toUserAccount tr)) l).
Proof.
  induction l as [|tr l IH]; intros st; simpl.
  - unfold len. simpl. lia.
  - rewrite IH. unfold countNative. rewrite countTransfer_countOf.
    destruct (interactionWith _ _ _ _);
      [rewrite ClusteringFacts.len_cons|]; lia.
Qed.

Lemma fold_token_countOf w k l : forall st,
  countOf (fst (fold_left (countToken w) l st)) k
  = countOf (fst st) k
    + len (filter (fun tr => interactionWith w k
                               (TokenTransfer.fromUserAccount tr)
                               (TokenTransfer.toUserAccount tr)) l).
Proof.
  induction l as [|tr l IH]; intros st; simpl.
  - unfold len. simpl. lia.
  - rewrite IH. unfold countToken. rewrite countTransfer_countOf.
    destruct (interactionWith _ _ _ _);
      [rewrite ClusteringFacts.len_cons|]; lia.
Qed.

Lemma fold_countTx_countOf w k txs : forall st,
  countOf (fst (fold_left (countTx w) txs st)) k
  = countOf (fst st) k + interactionsWith txs w k.
Proof.
  induction txs as [|tx txs IH]; intros st; simpl; [lia|].
  rewrite IH. unfold countTx.
  rewrite fold_token_countOf, fold_native_countOf. lia.
Qed.

(** What the counting loop keeps: distinct keys, none empty, none the
    target, every count at least 1, and the counts add up to the total. *)
Definition goodCounts (w : string) (st : Counts) : Prop :=
  NoDup (JS.Map.keys (fst st))
  /\ (forall k n, In (k, n) (fst st) ->
                  JS.truthy k = true /\ k <> w /\ 1 <= n)
  /\ sumCounts (fst st) = snd st.

Lemma countOf_nonneg w st k : goodCounts w st -> 0 <= countOf (fst st) k.
Proof.
  intros (_ & Hk & _). unfold countOf.
  destruct (JS.Map.get (fst st) k) as [n|] eqn:E; [|lia].
  apply JSFacts.get_In in E. apply Hk in E. lia.
Qed.

Lemma countTransfer_good w from to st :
  goodCounts w st -> goodCounts w (countTransfer w from to st).
Proof.
  intros Hg. pose proof (countOf_nonneg w st (otherAddress w from to) Hg) as Hc.
  destruct Hg as (Hnd & Hk & Hs). destruct st as [m n].
  unfold countTransfer. cbv zeta. cbn [fst snd] in *.
  destruct (JS.truthy (otherAddress w from to)) eqn:Et;
    [|exact (conj Hnd (conj Hk Hs))].
  destruct (String.eqb_spec (otherAddress w from to) w) as [E|Hne];
    [exact (conj Hnd (conj Hk Hs))|].
  cbn [andb negb]. fold (countOf m (otherAddress w from to)).
  unfold goodCounts. cbn [fst snd]. split; [|split].
  - now apply JSFacts.NoDup_keys_set.
  - intros k n0 H. apply In_set in H as [[-> ->]|H];
      [repeat split; (assumption || lia)|now apply (Hk k n0)].
  - rewrite sumCounts_set. lia.
Qed.

Lemma countInteractions_good txs w : goodCounts w (countInteractions txs w).
Proof.
  unfold countInteractions.
  assert (H0 : goodCounts w (@JS.Map.empty Z, 0)).
  { repeat split; try constructor; destruct H. }
  revert H0. generalize (@JS.Map.empty Z, 0) as st.
  induction txs as [|tx txs IH]; intros st Hst; simpl; [assumption|].
  apply IH. unfold countTx.
  assert (Hn : goodCounts w
                 (fold_left (countNative w) (Tx.nativeTransfers tx) st)).
  { revert st Hst. induction (Tx.nativeTransfers tx) as [|tr l IHl];
      intros st Hst; simpl; [assumption|].
    apply IHl. now apply countTransfer_good. }
  revert Hn. generalize (fold_left (countNative w) (Tx.nativeTransfers tx) st).
  intros st1 Hst1. revert st1 Hst1.
  induction (Tx.tokenTransfers tx) as [|tr l IHl]; intros st1 Hst1; simpl;
    [assumption|].
  apply IHl. now apply countTransfer_good.
Qed.

Lemma sumCounts_ge_size (m : JS.Map.t Z) :
  (forall k n, In (k, n) m -> 1 <= n) -> JS.Map.size m <= sumCounts m.
Proof.
  unfold JS.Map.size. induction m as [|[k v] m IH]; intros H; simpl.
  - lia.
  - assert (1 <= v) by (apply (H k); now left).
    assert (Z.of_nat (List.length m) <= sumCounts m)
      by (apply IH; intros k' n' Hin; apply (H k'); now right).
    cbn [List.length]. lia.
Qed.

Lemma countInteractions_exact (txs : list Tx.t) (w : string) :
  let m := fst (countInteractions txs w) in
  let total := snd (countInteractions txs w) in
  NoDup (JS.Map.keys m)
  /\ (forall k, In k (JS.Map.keys m) -> k <> ""%string /\ k <> w)
  /\ (forall k, countOf m k = interactionsWith txs w k)
  /\ sumCounts m = total
  /\ JS.Map.size m <= total.
Proof.
  intros m total. destruct (countInteractions_good txs w) as (Hnd & Hk & Hs).
  fold m in Hnd, Hk, Hs. fold total in Hs.
  split; [assumption|]. split; [|split; [|split; [assumption|]]].
  - intros k Hin. apply in_map_iff in Hin as [[k' n] [E Hin]].
    simpl in E. subst k'. destruct (Hk k n Hin) as (Ht & Hw & _).
    split; [|assumption]. intros ->. discriminate.
  - intros k. subst m. unfold countInteractions.
    rewrite fold_countTx_countOf. reflexivity.
  - rewrite <- Hs. apply sumCounts_ge_size. intros k n Hin.
    now apply (Hk k n).
Qed.

(** X9. The counter map of the detector: its keys are distinct, non-empty and
    never the target; the count kept for an address is the number of
    transfers of the history that interact with it; the counts add up to
    [totalInteractions], so there are never more counterparties than
    interactions. *)
Theorem interaction_counts_exact (txs : list Tx.t) (w : string) :
  let m := fst (countInteractions txs w) in
  let total := snd (countInteractions txs w) in
  NoDup (JS.Map.keys m)
  /\ (forall k, In k (JS.Map.keys m) -> k <> ""%string /\ k <> w)
  /\ (forall k, countOf m k = interactionsWith txs w k)
  /\ sumCounts m = total
  /\ JS.Map.size m <= total.
Proof. exact (countInteractions_exact txs w). Qed.


(** *** The ranking *)

Definition byCountDesc (a b : AddressFrequency) : Prop := count b <= count a.

Lemma sortedAddressesOf_sorted m total :
  Sorted byCountDesc (sortedAddressesOf m total).
Proof.
  unfold sortedAddressesOf.
  pose proof (JSFacts.sort_sorted (fun a b : string * Z => snd b - snd a)) as H.
  specialize (H ltac:(intros x y Hxy; lia) m).
  induction H as [|e l Hl IH Hhd]; simpl; constructor.
  - exact IH.
  - destruct Hhd as [|e' l' He]; simpl; constructor.
    unfold byCountDesc. simpl. lia.
Qed.

Lemma sortedAddressesOf_In m total a :
  In a (sortedAddressesOf m total)
  <-> exists k n, In (k, n) m /\ a = mkFreq k n (percentageOf n total).
Proof.
  unfold sortedAddressesOf. rewrite in_map_iff. split.
  - intros [[k n] [<- Hin]]. exists k, n. split; [|reflexivity].
    eapply Permutation_in; [|exact Hin].
    apply Permutation_sym, JSFacts.sort_perm.
  - intros (k & n & Hin & ->). exists (k, n). split; [reflexivity|].
    eapply Permutation_in; [|exact Hin]. apply JSFacts.sort_perm.
Qed.

Lemma Sorted_firstn {A} (R : A -> A -> Prop) n (l : list A) :
  Sorted R l -> Sorted R (firstn n l).
Proof.
  revert l. induction n as [|n IH]; intros l Hl; simpl; [constructor|].
  destruct l as [|x l]; [constructor|].
  apply Sorted_inv in Hl as [Hl Hhd]. constructor; [now apply IH|].
  destruct l as [|y l]; [destruct n; constructor|].
  apply HdRel_inv in Hhd. destruct n; constructor. exact Hhd.
Qed.

Lemma head_is_max (l : list AddressFrequency) a rest :
  Sorted byCountDesc l -> l = a :: rest ->
  forall b, In b l -> count b <= count a.
Proof.
  intros Hs -> b Hb.
  apply Sorted_StronglySorted in Hs;
    [|intros x y z Hxy Hyz; unfold byCountDesc in *; lia].
  apply StronglySorted_inv in Hs as [_ Hall].
  destruct Hb as [<-|Hb]; [lia|].
  rewrite Forall_forall in Hall. now apply Hall.
Qed.

(** X10. With at least 5 interactions, [topAddresses] holds at most 5 entries in
    descending order of count, each an entry of the counter map with its
    share [(count / total) * 100]; the dominant address is its first entry
    and no counterparty has a higher count. *)
Theorem top_addresses_ranked (txs : list Tx.t) (w : string) :
  5 <= ClusteringFacts.counterpartyInteractions txs w ->
  let r := detectClustering txs w in
  let m := fst (countInteractions txs w) in
  let total := snd (countInteractions txs w) in
  (List.length (topAddresses r) <= 5)%nat
  /\ Sorted byCountDesc (topAddresses r)
  /\ (forall a, In a (topAddresses r) ->
                In (address a, count a) m
                /\ percentage a = percentageOf (count a) total)
  /\ exists top,
       hd_error (topAddresses r) = Some top
       /\ dominantAddress r = Some (address top)
       /\ clusteringPercentage r = percentage top
       /\ forall k n, In (k, n) m -> n <= count top.
Proof.
  intros Hge r m total.
  rewrite <- ClusteringFacts.totalInteractions_count in Hge.
  fold total in Hge.
  pose proof (countInteractions_exact txs w) as (_ & _ & _ & Hsum & _).
  fold m total in Hsum.
  subst r. unfold detectClustering.
  destruct (countInteractions txs w) as [m' total'] eqn:Ec.
  cbn [fst snd] in m, total. subst m total.
  unfold ANALYSIS_CONFIG.MIN_TRANSACTIONS_FOR_PATTERN.
  destruct (Z.ltb_spec total' 5) as [Hlt|_]; [lia|].
  cbn [topAddresses dominantAddress clusteringPercentage].
  rewrite ClusteringFacts.hd_error_firstn.
  pose proof (sortedAddressesOf_sorted m' total') as Hsorted.
  assert (Hin : forall a, In a (sortedAddressesOf m' total') ->
                          In (address a, count a) m'
                          /\ percentage a = percentageOf (count a) total').
  { intros a Ha. apply sortedAddressesOf_In in Ha as (k & n & Hkn & ->).
    now split. }
  split; [apply firstn_le_length|].
  split; [now apply Sorted_firstn|].
  split.
  - intros a Ha. apply Hin.
    rewrite <- (firstn_skipn 5 (sortedAddressesOf m' total')).
    apply in_or_app. now left.
  - destruct (sortedAddressesOf m' total') as [|top rest] eqn:Es.
    + exfalso. destruct m' as [|[k n] m'].
      * simpl in Hsum. lia.
      * assert (Hk : In (mkFreq k n (percentageOf n total'))
                       (sortedAddressesOf ((k, n) :: m') total')).
        { apply sortedAddressesOf_In. exists k, n. split; [now left|easy]. }
        rewrite Es in Hk. destruct Hk.
    + exists top. cbn [hd_error]. repeat split.
      intros k n Hkn.
      assert (Hb : In (mkFreq k n (percentageOf n total')) (top :: rest)).
      { rewrite <- Es. apply sortedAddressesOf_In. now exists k, n. }
      apply (head_is_max (top :: rest) top rest Hsorted eq_refl) in Hb.
      exact Hb.
Qed.

Lemma top_addresses_ranked_witness :
  let r := detectClustering Scenarios.sixOfTen Scenarios.w in
  exists top,
    hd_error (topAddresses r) = Some top
    /\ dominantAddress r = Some (address top)
    /\ clusteringPercentage r = percentage top
    /\ forall k n,
         In (k, n) (fst (countInteractions Scenarios.sixOfTen Scenarios.w)) ->
         n <= count top.
Proof.
  apply (top_addresses_ranked Scenarios.sixOfTen Scenarios.w).
  vm_compute. discriminate.
Defined.

(** *** Detection, pattern and contribution *)

Lemma detected_pattern (txs : list Tx.t) (w : string) :
  detected (detectClustering txs w) = true
  <-> pattern (detectClustering txs w) <> none.
Proof.
  unfold detectClustering.
  destruct (countInteractions txs w) as [m total].
  destruct (total <? _); [cbn [detected pattern]; split; easy|].
  cbn [detected pattern]. rewrite ClusteringFacts.hd_error_firstn.
  destruct (sortedAddressesOf m total) as [|a l] eqn:E.
  - vm_compute. split; [discriminate|]. intros H. now elim H.
  - cbn [hd_error].
    change (JS.ofZ ANALYSIS_CONFIG.CLUSTER_THRESHOLD_PERCENTAGE)
      with 50%float.
    destruct (JS.geb (percentage a) 50%float) eqn:G.
    + unfold detectPattern. rewrite G. split; [discriminate|reflexivity].
    + cbn [orb]. destruct (detectPattern (a :: l) total); simpl;
        split; congruence.
Qed.

Lemma detected_iff_pattern (txs : list Tx.t) (w : string) :
  let r := detectClustering txs w in
  (detected r = true <-> pattern r <> none)
  /\ (detected r = true <-> 10 <= riskContribution r)
  /\ (detected r = false <-> riskContribution r = 0).
Proof.
  intros r. pose proof (detected_pattern txs w) as Hp. fold r in Hp.
  split; [exact Hp|].
  assert (Hr : riskContribution r = riskOf (detected r) (pattern r)).
  { subst r. unfold detectClustering.
    destruct (countInteractions txs w) as [m total].
    now destruct (total <? _). }
  assert (Hw : pattern r <> wash_trading).
  { subst r. unfold detectClustering.
    destruct (countInteractions txs w) as [m total].
    destruct (total <? _); [discriminate|]. cbn [pattern].
    destruct (ClusteringFacts.detectPattern_range
                (sortedAddressesOf m total) total) as [E|[E|[E|E]]];
      rewrite E; discriminate. }
  rewrite Hr. destruct (detected r) eqn:Ed.
  - assert (Hn : pattern r <> none) by now apply Hp.
    destruct (pattern r); try (now elim Hn); try (now elim Hw);
      vm_compute; split; split; intros; congruence.
  - simpl. split; split; intros; try reflexivity; try discriminate. lia.
Qed.

(** X11. For every result of [detectClustering]: clustering is detected exactly
    when the pattern is not "none", and exactly when the contribution is
    positive (then at least 10); an undetected result contributes 0. *)
Theorem clustering_detected_iff_pattern (txs : list Tx.t) (w : string) :
  let r := detectClustering txs w in
  (detected r = true <-> pattern r <> none)
  /\ (detected r = true <-> 10 <= riskContribution r)
  /\ (detected r = false <-> riskContribution r = 0).
Proof. exact (detected_iff_pattern txs w). Qed.

(** X12. On a result of [detectClustering] there is exactly one warning when
    clustering is detected and none otherwise; the recommended actions are
    none when undetected, three for "single_counterparty" and two for any
    other detected pattern. *)
Theorem clustering_warnings_and_actions
  (toFixed : float -> Z -> string) (txs : list Tx.t) (w : string) :
  let r := detectClustering txs w in
  len (generateClusteringWarnings toFixed r)
  = (if detected r then 1 else 0)
  /\ len (ClusteringActions.generateClusteringActions r)
     = (if detected r
        then if pattern_eqb (pattern r) single_counterparty then 3 else 2
        else 0).
Proof.
  intros r. destruct (detected_iff_pattern txs w) as (Hp & _ & _).
  fold r in Hp.
  assert (Hw : pattern r <> wash_trading).
  { subst r. unfold detectClustering.
    destruct (countInteractions txs w) as [m total].
    destruct (total <? _); [discriminate|]. cbn [pattern].
    destruct (ClusteringFacts.detectPattern_range
                (sortedAddressesOf m total) total) as [E|[E|[E|E]]];
      rewrite E; discriminate. }
  unfold generateClusteringWarnings,
    ClusteringActions.generateClusteringActions.
  destruct (detected r) eqn:Ed; [|split; reflexivity].
  assert (Hn : pattern r <> none) by now apply Hp.
  destruct (pattern r); try (now elim Hn); try (now elim Hw);
    split; reflexivity.
Qed.


(** *** The wash-trading pairs *)







(** *** The counterparties handed to the compliance batch *)

Lemma countAddress_fst w from to st :
  fst (countTransfer w from to st) = Helius.countAddress w from to (fst st).
Proof.
  destruct st as [m n]. unfold countTransfer, Helius.countAddress,
    otherAddress. cbv zeta.
  now destruct (JS.truthy _ && negb _).
Qed.

Lemma getInteractingAddresses_counts (txs : list Tx.t) (w : string) :
  Helius.getInteractingAddresses txs w = fst (countInteractions txs w).
Proof.
  unfold Helius.getInteractingAddresses, countInteractions.
  change (@JS.Map.empty Z) with (fst (@JS.Map.empty Z, 0)) at 1.
  generalize (@JS.Map.empty Z, 0) as st.
  induction txs as [|tx txs IH]; intros st; simpl; [reflexivity|].
  rewrite <- IH. f_equal. unfold Helius.countTxAddresses, countTx.
  assert (Hn : forall l st,
             fold_left
               (fun m tr => Helius.countAddress w
                              (NativeTransfer.fromUserAccount tr)
                              (NativeTransfer.toUserAccount tr) m)
               l (fst st)
             = fst (fold_left (countNative w) l st)).
  { induction l as [|tr l IHl]; intros s; simpl; [reflexivity|].
    rewrite <- IHl. unfold countNative. now rewrite countAddress_fst. }
  assert (Ht : forall l st,
             fold_left
               (fun m tr => Helius.countAddress w
                              (TokenTransfer.fromUserAccount tr)
                              (TokenTransfer.toUserAccount tr) m)
               l (fst st)
             = fst (fold_left (countToken w) l st)).
  { induction l as [|tr l IHl]; intros s; simpl; [reflexivity|].
    rewrite <- IHl. unfold countToken. now rewrite countAddress_fst. }
  now rewrite Hn, Ht.
Qed.

(** X14. [getInteractingAddresses] of the Helius service builds the very counter
    map of the clustering detector: same counterparties, same order, same
    counts; so the detector's count of unique addresses is the size of the
    map handed to the compliance batch. *)
Theorem interacting_addresses_are_the_clustering_counts
  (txs : list Tx.t) (w : string) :
  Helius.getInteractingAddresses txs w = fst (countInteractions txs w)
  /\ totalUniqueAddresses (detectClustering txs w)
     = JS.Map.size (Helius.getInteractingAddresses txs w).
Proof.
  split; [apply getInteractingAddresses_counts|].
  rewrite getInteractingAddresses_counts. unfold detectClustering.
  destruct (countInteractions txs w) as [m total]. cbn [fst].
  destruct (total <? ANALYSIS_CONFIG.MIN_TRANSACTIONS_FOR_PATTERN);
    reflexivity.
Qed.

End ClusteringInvariants.


(* ================================================================= *)
(** ** Further properties of the identity-asset detector *)

Module AssetsInvariants.
Import Assets.
Local Open Scope string_scope.

(** *** Strings *)

Lemma prefix_split (p s : string) :
  String.prefix p s = true -> exists r, s = p ++ r.
Proof.
  revert s. induction p as [|c p IH]; intros s H.
  - now exists s.
  - destruct s as [|c' s]; simpl in H; [discriminate|].
    destruct (Ascii.ascii_dec c c') as [->|Hne]; [|discriminate].
    destruct (IH s H) as [r ->]. now exists r.
Qed.

Lemma prefix_app (p r : string) : String.prefix p (p ++ r) = true.
Proof.
  induction p as [|c p IH]; simpl; [now destruct r|].
  destruct (Ascii.ascii_dec c c); [exact IH|congruence].
Qed.

Lemma includes_prefix (s n : string) :
  String.prefix n s = true -> JS.includes s n = true.
Proof. intros H. destruct s; cbn [JS.includes]; rewrite H; reflexivity. Qed.

Lemma includes_cons c (s n : string) :
  JS.includes s n = true -> JS.includes (String c s) n = true.
Proof. intros H. cbn [JS.includes]. rewrite H. apply orb_true_r. Qed.

Lemma includes_app_r (a b n : string) :
  JS.includes b n = true -> JS.includes (a ++ b) n = true.
Proof.
  intros H. induction a as [|c a IH]; [exact H|].
  change (String c a ++ b) with (String c (a ++ b)). now apply includes_cons.
Qed.

Lemma lowerChar_idempotent (c : ascii) :
  JS.lowerChar (JS.lowerChar c) = JS.lowerChar c.
Proof. destruct c as [[] [] [] [] [] [] [] []]; reflexivity. Qed.

Lemma toLowerCase_idempotent (s : string) :
  JS.toLowerCase (JS.toLowerCase s) = JS.toLowerCase s.
Proof.
  induction s as [|c s IH]; simpl; [reflexivity|].
  now rewrite lowerChar_idempotent, IH.
Qed.

Lemma toLowerCase_app (a b : string) :
  JS.toLowerCase (a ++ b) = JS.toLowerCase a ++ JS.toLowerCase b.
Proof. induction a as [|c a IH]; simpl; [reflexivity|now rewrite IH]. Qed.

(** The POAP test and the domain test read the description in lower case
    only: a description and its lower-cased form are classified alike. *)
Lemma classification_ignores_case (tx : Tx.t) :
  let lowered :=
    Tx.mk (Tx.signature tx) (Tx.timestamp tx)
      (JS.toLowerCase (Tx.description tx)) (Tx.feePayer tx)
      (Tx.accountData tx) (Tx.tokenTransfers tx) (Tx.nativeTransfers tx)
      (Tx.nft tx) in
  isPOAPorBadge (Tx.description lowered) = isPOAPorBadge (Tx.description tx)
  /\ isSOLDomainTransaction lowered = isSOLDomainTransaction tx.
Proof.
  unfold isPOAPorBadge, isSOLDomainTransaction. cbn [Tx.description
    Tx.accountData]. now rewrite toLowerCase_idempotent.
Qed.

(** *** The domain match *)

Lemma spanDomainChars_split (s run after : string) :
  spanDomainChars s = (run, after) ->
  s = run ++ after
  /\ Forall (fun c => isDomainChar c = true) (list_ascii_of_string run).
Proof.
  revert run after. induction s as [|c s IH]; intros run after H; simpl in H.
  - injection H as <- <-. split; [reflexivity|constructor].
  - destruct (isDomainChar c) eqn:Ec.
    + destruct (spanDomainChars s) as [run' after'] eqn:E.
      injection H as <- <-. destruct (IH run' after' eq_refl) as [-> Hf].
      split; [reflexivity|]. simpl. now constructor.
    + injection H as <- <-. split; [reflexivity|constructor].
Qed.

Lemma matchSolDomain_shape (s d : string) :
  matchSolDomain s = Some d ->
  exists label,
    d = label ++ ".sol"
    /\ label <> ""
    /\ Forall (fun c => isDomainChar c = true) (list_ascii_of_string label)
    /\ JS.includes s d = true.
Proof.
  induction s as [|c s IH]; intros H; [discriminate|].
  cbn [matchSolDomain] in H.
  destruct (spanDomainChars (String c s)) as [run after] eqn:E.
  destruct (negb (String.eqb run "") && String.prefix ".sol" after) eqn:Em.
  - injection H as <-. apply andb_prop in Em as [Hrun Hpre].
    apply spanDomainChars_split in E as [Es Hf].
    apply prefix_split in Hpre as [rest ->].
    exists run. split; [reflexivity|]. split.
    + intros ->. discriminate.
    + split; [assumption|]. apply includes_prefix. rewrite Es.
      replace (run ++ ".sol" ++ rest) with ((run ++ ".sol") ++ rest).
      * apply prefix_app.
      * clear. induction run as [|x run IH]; simpl; [reflexivity|].
        now rewrite IH.
  - destruct (IH H) as (label & Hd & Hl & Hf & Hi).
    exists label. repeat split; try assumption. now apply includes_cons.
Qed.

(** X15. A domain the regular expression extracts is a non-empty label of
    letters, digits, underscores and hyphens followed by ".sol", and it
    occurs verbatim in the description. *)
Theorem extracted_domain_shape (s d : string) :
  matchSolDomain s = Some d ->
  exists label,
    d = label ++ ".sol"
    /\ label <> ""
    /\ Forall (fun c => isDomainChar c = true) (list_ascii_of_string label)
    /\ JS.includes s d = true.
Proof. exact (matchSolDomain_shape s d). Qed.

Lemma extracted_domain_shape_witness :
  exists label,
    "my-name.sol" = label ++ ".sol"
    /\ label <> ""
    /\ Forall (fun c => isDomainChar c = true) (list_ascii_of_string label)
    /\ JS.includes "Registered my-name.sol today" "my-name.sol" = true.
Proof.
  apply (extracted_domain_shape "Registered my-name.sol today" "my-name.sol").
  reflexivity.
Defined.

Lemma matched_has_dot_sol (s d : string) :
  matchSolDomain s = Some d -> JS.includes s ".sol" = true.
Proof.
  induction s as [|c s IH]; intros H; [discriminate|].
  cbn [matchSolDomain] in H.
  destruct (spanDomainChars (String c s)) as [run after] eqn:E.
  destruct (negb (String.eqb run "") && String.prefix ".sol" after) eqn:Em.
  - apply andb_prop in Em as [_ Hpre].
    apply spanDomainChars_split in E as [Es _]. rewrite Es.
    apply includes_app_r. now apply includes_prefix.
  - apply includes_cons. now apply IH.
Qed.

Lemma includes_lower_sol (s : string) :
  JS.includes s ".sol" = true -> JS.includes (JS.toLowerCase s) ".sol" = true.
Proof.
  induction s as [|c s IH]; intros H; [discriminate|].
  change (JS.includes (String c s) ".sol")
    with (String.prefix ".sol" (String c s) || JS.includes s ".sol") in H.
  apply orb_prop in H as [H|H].
  - apply prefix_split in H as [r Hr]. rewrite Hr, toLowerCase_app.
    apply includes_prefix. apply prefix_app.
  - simpl JS.toLowerCase. apply includes_cons. now apply IH.
Qed.

Lemma extractDomainName_gate (tx : Tx.t) (d : string) :
  extractDomainName tx = Some d -> isSOLDomainTransaction tx = true.
Proof.
  unfold extractDomainName, isSOLDomainTransaction. intros H.
  apply matched_has_dot_sol in H. apply includes_lower_sol in H.
  now rewrite H.
Qed.

(** X16. Whenever a domain can be extracted from the description of a
    transaction, the transaction passes the domain test, whatever its
    accounts: the gate before the extraction never hides a domain. *)
Theorem extractable_domain_passes_gate (tx : Tx.t) (d : string) :
  extractDomainName tx = Some d -> isSOLDomainTransaction tx = true.
Proof. exact (extractDomainName_gate tx d). Qed.

Lemma extractable_domain_passes_gate_witness :
  isSOLDomainTransaction
    (Tx.mk "d1" 100 "Registered my-name.sol today" CexFacts.wallet0
       [] [] [] None) = true.
Proof.
  apply (extractable_domain_passes_gate _ "my-name.sol"). reflexivity.
Defined.


(** *** The detected domains *)

Section Domains.
Variable extractNFTName : string -> option string.

Lemma pushEventNft_domains tx l : forall st,
  acc_domains (fold_left (pushEventNft extractNFTName tx) l st)
  = acc_domains st.
Proof.
  induction l as [|n l IH]; intros st; simpl; [reflexivity|].
  rewrite IH. unfold pushEventNft. now destruct (isPOAPorBadge _).
Qed.

Lemma scanNftEvent_domains w st tx :
  acc_domains (scanNftEvent extractNFTName w st tx) = acc_domains st.
Proof.
  unfold scanNftEvent. destruct (Tx.nft tx) as [ev|]; [|reflexivity].
  destruct (_ || _); [apply pushEventNft_domains|reflexivity].
Qed.

Lemma scanTokenTransfer_domains w tx l : forall st,
  acc_domains (fold_left (scanTokenTransfer w tx) l st) = acc_domains st.
Proof.
  induction l as [|tr l IH]; intros st; simpl; [reflexivity|].
  rewrite IH. unfold scanTokenTransfer.
  destruct (_ && _); [|reflexivity].
  destruct (isPOAPorBadge _); destruct (negb (hasMint _ _)); reflexivity.
Qed.

Lemma scanDomain_domains st tx :
  acc_domains (scanDomain st tx)
  = match extractDomainName tx with
    | Some d => JS.StrSet.add (acc_domains st) d
    | None => acc_domains st
    end.
Proof.
  unfold scanDomain. destruct (extractDomainName tx) as [d|] eqn:E.
  - rewrite (extractDomainName_gate tx d E).
    assert (Ht : JS.truthy d = true).
    { apply matchSolDomain_shape in E as (label & -> & _).
      now destruct label. }
    rewrite Ht. unfold JS.StrSet.add. cbn [andb].
    now destruct (JS.arrIncludes (acc_domains st) d).
  - now destruct (isSOLDomainTransaction tx).
Qed.

Lemma scanTx_domains w st tx :
  acc_domains (scanTx extractNFTName w st tx)
  = match extractDomainName tx with
    | Some d => JS.StrSet.add (acc_domains st) d
    | None => acc_domains st
    end.
Proof.
  unfold scanTx. rewrite scanTokenTransfer_domains, scanDomain_domains.
  now rewrite scanNftEvent_domains.
Qed.

(** X17. [solDomainsDetected] lists, each once, exactly the domains that can be
    extracted from the description of some transaction of the history. *)
Theorem sol_domains_exact (txs : list Tx.t) (w : string) :
  let r := detectIdentityAssets extractNFTName txs w in
  NoDup (solDomainsDetected r)
  /\ forall d, In d (solDomainsDetected r)
               <-> exists tx, In tx txs /\ extractDomainName tx = Some d.
Proof.
  unfold detectIdentityAssets. cbn [solDomainsDetected].
  assert (H : forall l st,
             NoDup (acc_domains st) ->
             NoDup (acc_domains (fold_left (scanTx extractNFTName w) l st))
             /\ forall d,
                  In d (acc_domains (fold_left (scanTx extractNFTName w) l st))
                  <-> In d (acc_domains st)
                      \/ exists tx, In tx l /\ extractDomainName tx = Some d).
  { induction l as [|tx l IH]; intros st Hnd; simpl.
    - split; [assumption|]. intros d. split; [now left|].
      intros [H|[tx [[] _]]]. assumption.
    - assert (Hnd' : NoDup (acc_domains (scanTx extractNFTName w st tx))).
      { rewrite scanTx_domains. destruct (extractDomainName tx);
          [now apply CexInvariants.StrSet_add_NoDup|assumption]. }
      destruct (IH _ Hnd') as [Hn Hin]. split; [assumption|].
      intros d. rewrite Hin, scanTx_domains.
      destruct (extractDomainName tx) as [d0|] eqn:E.
      + rewrite CexInvariants.StrSet_add_In. split.
        * intros [[->|H]|[t [Ht Hd]]].
          -- right. exists tx. split; [now left|assumption].
          -- now left.
          -- right. exists t. split; [now right|assumption].
        * intros [H|[t [[<-|Ht] Hd]]].
          -- left. now right.
          -- left. left. congruence.
          -- right. now exists t.
      + split.
        * intros [H|[t [Ht Hd]]]; [now left|].
          right. exists t. split; [now right|assumption].
        * intros [H|[t [[<-|Ht] Hd]]]; [now left|congruence|].
          right. now exists t. }
  destruct (H txs acc0 ltac:(constructor)) as [Hn Hin].
  split; [assumption|]. intros d. rewrite Hin. simpl. split.
  - intros [[]|Hd]. assumption.
  - intros Hd. now right.
Qed.

(** X18. The contribution of the asset detector lies between 0 and 30; the
    exposure level is "none" exactly when nothing was detected, and then the
    contribution is 0. *)
Theorem assets_contribution_and_exposure (txs : list Tx.t) (w : string) :
  let r := detectIdentityAssets extractNFTName txs w in
  0 <= riskContribution r <= 30
  /\ (identityExposureLevel r = none <-> detected r = false)
  /\ (detected r = false -> riskContribution r = 0).
Proof.
  unfold detectIdentityAssets.
  cbn [riskContribution identityExposureLevel detected].
  set (st := fold_left (scanTx extractNFTName w) txs acc0).
  pose proof (CexInvariants.len_nonneg (acc_nfts st)) as Hn.
  pose proof (CexInvariants.len_nonneg (acc_poaps st)) as Hp.
  pose proof (CexInvariants.len_nonneg (acc_domains st)) as Hd.
  change (len (acc_nfts st)) with (Cex.len (acc_nfts st)).
  change (len (acc_poaps st)) with (Cex.len (acc_poaps st)).
  change (len (acc_domains st)) with (Cex.len (acc_domains st)).
  unfold Constants.POINT_DEDUCTIONS.NFT_POAP_EXPOSED,
    Constants.POINT_DEDUCTIONS.SOL_DOMAIN_EXPOSED, calculateExposureLevel.
  split; [lia|].
  destruct (Z.gtb_spec (Cex.len (acc_nfts st)) 0);
    destruct (Z.gtb_spec (Cex.len (acc_poaps st)) 0);
    destruct (Z.gtb_spec (Cex.len (acc_domains st)) 0);
    destruct (Z.eqb_spec (Cex.len (acc_nfts st) + Cex.len (acc_poaps st) * 2
                          + Cex.len (acc_domains st) * 3) 0);
    try lia; cbn [orb];
    try destruct (_ <=? 2)%Z; try destruct (_ <=? 5)%Z;
    (split; [split; easy|intros; (easy || lia)]).
Qed.

End Domains.

(** Two token transfers of one and the same NFT to the target, and no NFT
    event. *)
Definition sameTokenTwice : list Tx.t :=
  let w := CexFacts.wallet0 in
  let tr := TokenTransfer.mk AssetsFacts.madLad 1%float
              "Seller1xxxxxxxxxxxxxxxxxxxxxxxxxxxxxxxxxxxxx" w "NonFungible" in
  [ Tx.mk "tok_1" 100 "Transferred Mad Lad #1" w [] [tr] [] None;
    Tx.mk "tok_2" 300 "Transferred Mad Lad #1" w [] [tr] [] None ].

(** X19. In a history without NFT events no mint is listed twice, among the
    NFTs or among the POAPs: the token-transfer loop skips a mint that is
    already listed. *)
Theorem token_transfers_list_each_mint_once
  (extractNFTName : string -> option string) (txs : list Tx.t) (w : string) :
  (forall tx, In tx txs -> Tx.nft tx = None) ->
  let r := detectIdentityAssets extractNFTName txs w in
  NoDup (map mint (nftsDetected r)) /\ NoDup (map mint (poapsDetected r)).
Proof. exact (AssetsFacts.tokenPass_mints_distinct extractNFTName txs w). Qed.

Lemma token_transfers_list_each_mint_once_witness :
  let r := detectIdentityAssets (fun _ => None) sameTokenTwice
             CexFacts.wallet0 in
  NoDup (map mint (nftsDetected r)) /\ NoDup (map mint (poapsDetected r)).
Proof.
  apply (token_transfers_list_each_mint_once (fun _ => None) sameTokenTwice
           CexFacts.wallet0).
  intros tx [<-|[<-|[]]]; reflexivity.
Defined.

End AssetsInvariants.


(* ================================================================= *)
(** ** Further properties of the compliance mock *)

Module RangeInvariants.
Import Range.

Lemma arrIncludes_In (l : list string) (a : string) :
  JS.arrIncludes l a = true <-> In a l.
Proof. unfold JS.arrIncludes. apply JSFacts.existsb_eqb_In. Qed.

(** The length test of [checkRisk]. *)
Definition malformed (a : string) : bool :=
  negb (JS.truthy a) || (JS.strlen a <? 32) || (JS.strlen a >? 44).

Lemma listed_wellformed (a : string) :
  In a MOCK_SANCTIONED_ADDRESSES \/ In a MOCK_FLAGGED_ADDRESSES ->
  malformed a = false.
Proof.
  intros [H|H]; simpl in H;
    repeat (destruct H as [<-|H]; [reflexivity|]); destruct H.
Qed.

Lemma lists_disjoint (a : string) :
  In a MOCK_SANCTIONED_ADDRESSES -> ~ In a MOCK_FLAGGED_ADDRESSES.
Proof.
  intros H. simpl in H.
  repeat (destruct H as [<-|H];
          [intros F; simpl in F;
           repeat (destruct F as [F|F]; [discriminate|]); destruct F|]).
  destruct H.
Qed.

Lemma checkRisk_status (now : Z) (a : string) :
  let r := checkRisk now a in
  (status r = Sanctioned <-> In a MOCK_SANCTIONED_ADDRESSES)
  /\ (status r = Flagged <-> In a MOCK_FLAGGED_ADDRESSES)
  /\ (status r = Unknown
      <-> a = ""%string \/ JS.strlen a < 32 \/ 44 < JS.strlen a)
  /\ (status r = Sanctioned -> riskScore r = 100)
  /\ (status r = Flagged -> riskScore r = 65)
  /\ (status r = Unknown -> riskScore r = 0)
  /\ 0 <= riskScore r <= 100.
Proof.
  intros r. subst r.
  assert (Hm : malformed a = true
               <-> a = ""%string \/ JS.strlen a < 32 \/ 44 < JS.strlen a).
  { unfold malformed, JS.truthy.
    rewrite !orb_true_iff, negb_true_iff, negb_false_iff, String.eqb_eq.
    rewrite Z.ltb_lt, Z.gtb_lt. tauto. }
  pose proof (listed_wellformed a) as Hw.
  pose proof (lists_disjoint a) as Hdis.
  pose proof (RangeFacts.hashAddress_nonneg a) as Hh.
  unfold checkRisk. fold (malformed a).
  destruct (malformed a) eqn:Em.
  - cbn [status riskScore].
    repeat split; try discriminate; try lia; try tauto;
      intros H; exfalso;
      (assert (true = false) by (apply Hw; tauto)); discriminate.
  - assert (Hnm : ~ (a = ""%string \/ JS.strlen a < 32 \/ 44 < JS.strlen a))
      by (intros H; apply Hm in H; congruence).
    destruct (JS.arrIncludes MOCK_SANCTIONED_ADDRESSES a) eqn:Es.
    + apply arrIncludes_In in Es. cbn [status riskScore].
      repeat split; try discriminate; try lia; tauto.
    + assert (Hns : ~ In a MOCK_SANCTIONED_ADDRESSES)
        by (intros H; apply arrIncludes_In in H; congruence).
      destruct (JS.arrIncludes MOCK_FLAGGED_ADDRESSES a) eqn:Ef.
      * apply arrIncludes_In in Ef. cbn [status riskScore].
        repeat split; try discriminate; try lia; tauto.
      * assert (Hnf : ~ In a MOCK_FLAGGED_ADDRESSES)
          by (intros H; apply arrIncludes_In in H; congruence).
        cbn [status riskScore].
        assert (0 <= Z.rem (hashAddress a) 30 < 30).
        { rewrite Z.rem_mod_nonneg by lia. apply Z.mod_pos_bound. lia. }
        repeat split; try discriminate; try lia; tauto.
Qed.

(** X20. The status [checkRisk] answers is decided by the address alone:
    Sanctioned exactly for the addresses of the sanctioned list, Flagged
    exactly for those of the flagged list (the length test hides none of
    them, and no address is on both lists), Unknown exactly for the empty
    string and for lengths outside 32..44; the risk score is 100, 65 and 0
    for these, and always between 0 and 100. *)
Theorem checkRisk_status_exact (now : Z) (a : string) :
  let r := checkRisk now a in
  (status r = Sanctioned <-> In a MOCK_SANCTIONED_ADDRESSES)
  /\ (status r = Flagged <-> In a MOCK_FLAGGED_ADDRESSES)
  /\ (status r = Unknown
      <-> a = ""%string \/ JS.strlen a < 32 \/ 44 < JS.strlen a)
  /\ (status r = Sanctioned -> riskScore r = 100)
  /\ (status r = Flagged -> riskScore r = 65)
  /\ (status r = Unknown -> riskScore r = 0)
  /\ 0 <= riskScore r <= 100.
Proof. exact (checkRisk_status now a). Qed.

(** *** The hash *)

Lemma toInt32_range (z : Z) : - 2 ^ 31 <= toInt32 z < 2 ^ 31.
Proof.
  unfold toInt32.
  pose proof (Z.mod_pos_bound (z + 2 ^ 31) (2 ^ 32) ltac:(lia)). lia.
Qed.

Lemma hashStep_range (h : Z) (c : ascii) :
  - 2 ^ 31 <= hashStep h c < 2 ^ 31.
Proof.
  unfold hashStep, band. cbv zeta. rewrite Z.land_diag. apply toInt32_range.
Qed.

(** X21. [hashAddress] never answers a negative number and never more than 2^31
    (the absolute value of the least 32-bit integer). *)
Theorem hashAddress_range (a : string) : 0 <= hashAddress a <= 2 ^ 31.
Proof.
  unfold hashAddress.
  assert (H : forall l h, - 2 ^ 31 <= h < 2 ^ 31 ->
                          - 2 ^ 31 <= fold_left hashStep l h < 2 ^ 31).
  { induction l as [|c l IH]; intros h Hh; simpl; [assumption|].
    apply IH. apply hashStep_range. }
  specialize (H (list_ascii_of_string a) 0 ltac:(lia)). lia.
Qed.

(** *** Batches *)

Lemma fold_checkOne now l : forall acc,
  fold_left (checkOne now) l acc
  = (fst acc ++ filter (JS.arrIncludes MOCK_SANCTIONED_ADDRESSES)
                  (JS.Map.keys l),
     snd acc ++ filter (JS.arrIncludes MOCK_FLAGGED_ADDRESSES)
                  (JS.Map.keys l)).
Proof.
  induction l as [|[k n] l IH]; intros [s f].
  - cbn [fold_left JS.Map.keys map filter fst snd]. now rewrite !app_nil_r.
  - cbn [fold_left]. rewrite IH. unfold JS.Map.keys.
    cbn [map filter]. change (fst (k, n)) with k.
    unfold checkOne. change (fst (k, n)) with k.
    destruct (checkRisk_status now k) as (Hs & Hf & _).
    cbv zeta in Hs, Hf.
    pose proof (lists_disjoint k) as Hdis.
    rewrite <- !arrIncludes_In in Hs, Hf, Hdis.
    destruct (JS.arrIncludes MOCK_SANCTIONED_ADDRESSES k) eqn:Es.
    + rewrite (proj2 Hs eq_refl).
      destruct (JS.arrIncludes MOCK_FLAGGED_ADDRESSES k) eqn:Ef;
        [exfalso; apply (Hdis eq_refl); now apply arrIncludes_In|].
      cbn [fst snd]. unfold JS.push. now rewrite <- app_assoc.
    + destruct (JS.arrIncludes MOCK_FLAGGED_ADDRESSES k) eqn:Ef.
      * rewrite (proj2 Hf eq_refl). cbn [fst snd]. unfold JS.push.
        now rewrite <- app_assoc.
      * destruct (status (checkRisk now k)) eqn:E; try reflexivity.
        -- discriminate (proj1 Hs eq_refl).
        -- discriminate (proj1 Hf eq_refl).
Qed.

(** X22. [checkInteractingAddresses] partitions the counterparties: its
    sanctioned list is, in map order, the counterparties found on the
    sanctioned list, its flagged list those on the flagged list; no address
    is in both, and [totalChecked] is the size of the map. *)
Theorem interacting_addresses_partition (now : Z) (addresses : JS.Map.t Z) :
  let r := checkInteractingAddresses now addresses in
  sanctionedAddresses r
  = filter (JS.arrIncludes MOCK_SANCTIONED_ADDRESSES) (JS.Map.keys addresses)
  /\ flaggedAddresses r
     = filter (JS.arrIncludes MOCK_FLAGGED_ADDRESSES) (JS.Map.keys addresses)
  /\ (forall a, In a (sanctionedAddresses r) -> ~ In a (flaggedAddresses r))
  /\ totalChecked r = JS.Map.size addresses.
Proof.
  unfold checkInteractingAddresses. rewrite fold_checkOne. simpl.
  repeat split.
  intros a Hs Hf. apply filter_In in Hs as [_ Hs], Hf as [_ Hf].
  apply arrIncludes_In in Hs, Hf. now apply (lists_disjoint a).
Qed.

(** X23. [batchCheckRisk] answers in input order, one result per address: the
    results carry the addresses given, and their statuses are those
    [quickCheck] gives address by address. *)
Theorem batchCheckRisk_in_order (now : Z) (addresses : list string) :
  let results := RangeBatch.batchCheckRisk now addresses in
  map address results = addresses
  /\ map status results = map (RangeBatch.quickCheck now) addresses.
Proof.
  unfold RangeBatch.batchCheckRisk, RangeBatch.quickCheck.
  assert (H : forall l acc,
             fold_left (fun results a => JS.push results (checkRisk now a))
               l acc
             = acc ++ map (checkRisk now) l).
  { induction l as [|a l IH]; intros acc; simpl.
    - now rewrite app_nil_r.
    - rewrite IH. unfold JS.push. now rewrite <- app_assoc. }
  rewrite H. simpl. rewrite !map_map. split.
  - rewrite <- (map_id addresses) at 2. apply map_ext. intros a.
    RangeFacts.checkRisk_cases a reflexivity. reflexivity.
  - reflexivity.
Qed.

End RangeInvariants.


(* ================================================================= *)
(** ** Further properties of the engine and of the address helpers *)

Module EngineInvariants.
Import Constants Engine.

(** *** The score *)

(** What the wallet's own compliance status costs. *)
Definition complianceDeduction (s : Range.RiskStatus) : Z :=
  match s with
  | Range.Sanctioned => 50
  | Range.Flagged => 25
  | _ => 0
  end.

(** What [n] sanctioned counterparties cost: 20 each, 40 at most. *)
Definition counterpartyPenalty (n : Z) : Z :=
  if n >? 0 then Z.min (n * 20) 40 else 0.

(** The sum the aggregator subtracts: each detector's contribution when
    positive, the compliance deduction, the capped counterparty penalty and
    the wash-trading penalty. *)
Definition expectedDeductions (input : ScoreInput) : Z :=
  Z.max 0 (Cex.riskContribution (cexResult input))
  + Z.max 0 (Clustering.riskContribution (clusteringResult input))
  + Z.max 0 (Assets.riskContribution (assetsResult input))
  + complianceDeduction (Range.status (complianceResult input))
  + counterpartyPenalty
      (len (Range.sanctionedAddresses (addressRisks input)))
  + (if washTradingDetected input then 15 else 0).

Lemma deduct_total st why p :
  totalPoints (deductions (deduct st why p))
  = totalPoints (deductions st) + p
  /\ List.length (deductions (deduct st why p))
     = S (List.length (deductions st)).
Proof.
  unfold deduct. cbn [deductions]. rewrite EngineFacts.totalPoints_push.
  cbn [points]. split; [reflexivity|]. unfold JS.push.
  rewrite length_app. simpl. lia.
Qed.

(** After at most [n] steps the log adds up to [e]. *)
Definition tracks (st : ScoreOutput) (n : nat) (e : Z) : Prop :=
  totalPoints (deductions st) = e
  /\ (List.length (deductions st) <= n)%nat.

Lemma deduct_tracks st why p n e :
  tracks st n e -> tracks (deduct st why p) (S n) (e + p).
Proof.
  intros [Ht Hl]. destruct (deduct_total st why p) as [Ht' Hl'].
  split; [rewrite Ht'; lia|rewrite Hl'; lia].
Qed.

Lemma tracks_skip st n e : tracks st n e -> tracks st (S n) (e + 0).
Proof. intros [Ht Hl]. split; [lia|lia]. Qed.

Lemma tracks_eq st n e e' : tracks st n e -> e = e' -> tracks st n e'.
Proof. now intros H <-. Qed.

Lemma score_accounting (input : ScoreInput) :
  totalPoints (deductions (calculatePrivacyScore input))
  = expectedDeductions input
  /\ out_score (calculatePrivacyScore input)
     = clamp (100 - expectedDeductions input)
  /\ (List.length (deductions (calculatePrivacyScore input)) <= 6)%nat.
Proof.
  set (out := calculatePrivacyScore input).
  assert (H : totalPoints (deductions out) = expectedDeductions input
              /\ (List.length (deductions out) <= 6)%nat).
  { subst out. unfold calculatePrivacyScore, expectedDeductions.
    cbn [deductions].
    set (s0 := mkOutput 100 []).
    assert (H0 : tracks s0 0 0) by (split; [reflexivity|simpl; lia]).
    set (s1 := if Cex.riskContribution _ >? 0 then _ else s0).
    assert (H1 : tracks s1 1
                   (Z.max 0 (Cex.riskContribution (cexResult input)))).
    { subst s1.
      destruct (Z.gtb_spec (Cex.riskContribution (cexResult input)) 0).
      - eapply tracks_eq; [apply (deduct_tracks _ _ _ _ _ H0)|lia].
      - eapply tracks_eq; [apply (tracks_skip _ _ _ H0)|lia]. }
    set (s2 := if Clustering.riskContribution _ >? 0 then _ else s1).
    assert (H2 : tracks s2 2
                   (Z.max 0 (Cex.riskContribution (cexResult input))
                    + Z.max 0 (Clustering.riskContribution
                                 (clusteringResult input)))).
    { subst s2.
      destruct (Z.gtb_spec
                  (Clustering.riskContribution (clusteringResult input)) 0).
      - eapply tracks_eq; [apply (deduct_tracks _ _ _ _ _ H1)|lia].
      - eapply tracks_eq; [apply (tracks_skip _ _ _ H1)|lia]. }
    set (s3 := if Assets.riskContribution _ >? 0 then _ else s2).
    assert (H3 : tracks s3 3
                   (Z.max 0 (Cex.riskContribution (cexResult input))
                    + Z.max 0 (Clustering.riskContribution
                                 (clusteringResult input))
                    + Z.max 0 (Assets.riskContribution
                                 (assetsResult input)))).
    { subst s3.
      destruct (Z.gtb_spec (Assets.riskContribution (assetsResult input)) 0).
      - eapply tracks_eq; [apply (deduct_tracks _ _ _ _ _ H2)|lia].
      - eapply tracks_eq; [apply (tracks_skip _ _ _ H2)|lia]. }
    set (s4 := match Range.status _ with
               | Range.Sanctioned => _ | Range.Flagged => _ | _ => s3 end).
    assert (H4 : tracks s4 4
                   (Z.max 0 (Cex.riskContribution (cexResult input))
                    + Z.max 0 (Clustering.riskContribution
                                 (clusteringResult input))
                    + Z.max 0 (Assets.riskContribution
                                 (assetsResult input))
                    + complianceDeduction
                        (Range.status (complianceResult input)))).
    { subst s4. destruct (Range.status (complianceResult input));
        cbn [complianceDeduction];
        first [ eapply tracks_eq; [apply (deduct_tracks _ _ _ _ _ H3)|lia]
              | eapply tracks_eq; [apply (tracks_skip _ _ _ H3)|lia] ]. }
    set (s5 := if len _ >? 0 then _ else s4).
    assert (H5 : tracks s5 5
                   (Z.max 0 (Cex.riskContribution (cexResult input))
                    + Z.max 0 (Clustering.riskContribution
                                 (clusteringResult input))
                    + Z.max 0 (Assets.riskContribution
                                 (assetsResult input))
                    + complianceDeduction
                        (Range.status (complianceResult input))
                    + counterpartyPenalty
                        (len (Range.sanctionedAddresses
                                (addressRisks input))))).
    { subst s5. unfold counterpartyPenalty.
      destruct (len (Range.sanctionedAddresses (addressRisks input)) >? 0).
      - eapply tracks_eq; [apply (deduct_tracks _ _ _ _ _ H4)|lia].
      - eapply tracks_eq; [apply (tracks_skip _ _ _ H4)|lia]. }
    set (s6 := if washTradingDetected input then _ else s5).
    assert (H6 : tracks s6 6
                   (Z.max 0 (Cex.riskContribution (cexResult input))
                    + Z.max 0 (Clustering.riskContribution
                                 (clusteringResult input))
                    + Z.max 0 (Assets.riskContribution
                                 (assetsResult input))
                    + complianceDeduction
                        (Range.status (complianceResult input))
                    + counterpartyPenalty
                        (len (Range.sanctionedAddresses
                                (addressRisks input)))
                    + (if washTradingDetected input then 15 else 0))).
    { subst s6. destruct (washTradingDetected input).
      - eapply tracks_eq; [apply (deduct_tracks _ _ _ _ _ H5)|lia].
      - eapply tracks_eq; [apply (tracks_skip _ _ _ H5)|lia]. }
    exact H6. }
  destruct H as [Ht Hl]. split; [exact Ht|]. split; [|exact Hl].
  destruct (EngineFacts.calculatePrivacyScore_spec input) as [Hs _].
  fold out in Hs. now rewrite Hs, Ht.
Qed.

(** X24. The aggregator subtracts exactly [expectedDeductions]: a contribution
    that is zero or negative is skipped, the counterparty penalty is capped
    at 40, and the log holds at most six entries, whose points add up to
    that sum. *)
Theorem score_formula (input : ScoreInput) :
  let out := calculatePrivacyScore input in
  totalPoints (deductions out) = expectedDeductions input
  /\ out_score out = clamp (100 - expectedDeductions input)
  /\ (List.length (deductions out) <= 6)%nat.
Proof. exact (score_accounting input). Qed.



Lemma penalty_bounds (n : Z) :
  0 <= counterpartyPenalty n <= 40 /\ (0 < n -> 20 <= counterpartyPenalty n).
Proof.
  unfold counterpartyPenalty. destruct (Z.gtb_spec n 0); lia.
Qed.

Lemma rank_of_score (score : Z) :
  (score <= 50 -> 2 <= severityRank (determineRiskLevel score))
  /\ (score <= 75 -> 1 <= severityRank (determineRiskLevel score)).
Proof.
  unfold determineRiskLevel, SCORE_THRESHOLDS.CRITICAL,
    SCORE_THRESHOLDS.HIGH, SCORE_THRESHOLDS.MEDIUM.
  destruct (Z.leb_spec score 25); destruct (Z.leb_spec score 50);
    destruct (Z.leb_spec score 75); simpl; lia.
Qed.

(** X25. Whatever the detectors found, a sanctioned wallet scores at most 50 and
    is rated HIGH or CRITICAL, a flagged wallet scores at most 75 and is
    never rated LOW, a wallet that dealt with a sanctioned counterparty
    scores at most 80, and detected wash trading caps the score at 85. *)
Theorem findings_cap_the_score (input : ScoreInput) :
  let score := out_score (calculatePrivacyScore input) in
  (Range.status (complianceResult input) = Range.Sanctioned ->
   score <= 50 /\ 2 <= severityRank (determineRiskLevel score))
  /\ (Range.status (complianceResult input) = Range.Flagged ->
      score <= 75 /\ 1 <= severityRank (determineRiskLevel score))
  /\ (Range.sanctionedAddresses (addressRisks input) <> [] -> score <= 80)
  /\ (washTradingDetected input = true -> score <= 85).
Proof.
  intros score. destruct (score_accounting input) as (_ & Hs & _).
  fold score in Hs.
  pose proof (penalty_bounds
                (len (Range.sanctionedAddresses (addressRisks input))))
    as [Hp Hp'].
  assert (Hc : 0 <= complianceDeduction
                      (Range.status (complianceResult input)))
    by (destruct (Range.status (complianceResult input)); simpl; lia).
  unfold expectedDeductions, clamp in Hs.
  destruct (rank_of_score score) as [R50 R75].
  split; [|split; [|split]].
  - intros H. rewrite H in *. cbn [complianceDeduction] in *.
    assert (score <= 50) by (destruct (washTradingDetected input); lia).
    split; [assumption | now apply R50].
  - intros H. rewrite H in *. cbn [complianceDeduction] in *.
    assert (score <= 75) by (destruct (washTradingDetected input); lia).
    split; [assumption | now apply R75].
  - intros H.
    assert (0 < len (Range.sanctionedAddresses (addressRisks input))).
    { destruct (Range.sanctionedAddresses (addressRisks input));
        [now elim H|]. unfold len. simpl List.length. lia. }
    destruct (washTradingDetected input); lia.
  - intros H. rewrite H in Hs. lia.
Qed.

(** *** Warnings *)

Lemma in_map_warning sev cat msgs wn :
  In wn (map (mkWarning sev cat) msgs) ->
  severity wn = sev /\ category wn = cat.
Proof. intros H. apply in_map_iff in H as [m [<- _]]. now split. Qed.

Lemma collectWarnings_categories
  (toFixed : float -> Z -> string)
  (cexResult : Cex.CEXDetectionResult)
  (clusteringResult : Clustering.ClusteringResult)
  (assetsResult : Assets.AssetsDetectionResult)
  (complianceResult : Range.RangeCheckResult)
  (addressRisks : Range.AddressRisks) (wn : Warning) :
  In wn (collectWarnings toFixed cexResult clusteringResult assetsResult
           complianceResult addressRisks) ->
  category wn <> "error"%string.
Proof.
  unfold collectWarnings. intros Hin.
  repeat (apply in_app_or in Hin as [Hin|Hin]).
  - apply in_map_warning in Hin as [_ ->]. discriminate.
  - apply in_map_warning in Hin as [_ ->]. discriminate.
  - apply in_map_warning in Hin as [_ ->]. discriminate.
  - destruct (Range.status complianceResult); simpl in Hin;
      try (now destruct Hin); destruct Hin as [<-|[]]; discriminate.
  - destruct (len (Range.sanctionedAddresses addressRisks) >? 0);
      [|destruct Hin]. destruct Hin as [<-|[]]. discriminate.
Qed.

(** X26. A report's warnings include one of critical severity exactly when the
    wallet itself is sanctioned or dealt with a sanctioned counterparty, and
    none of them is in the "error" category of the degraded report. *)
Theorem critical_warning_iff_sanctions
  (toFixed : float -> Z -> string)
  (cexResult : Cex.CEXDetectionResult)
  (clusteringResult : Clustering.ClusteringResult)
  (assetsResult : Assets.AssetsDetectionResult)
  (complianceResult : Range.RangeCheckResult)
  (addressRisks : Range.AddressRisks) :
  let ws := collectWarnings toFixed cexResult clusteringResult assetsResult
              complianceResult addressRisks in
  ((exists wn, In wn ws /\ severity wn = critical)
   <-> Range.status complianceResult = Range.Sanctioned
       \/ Range.sanctionedAddresses addressRisks <> [])
  /\ forall wn, In wn ws -> category wn <> "error"%string.
Proof.
  intros ws. subst ws. split;
    [|intros wn; apply collectWarnings_categories].
  unfold collectWarnings. split.
  - intros [wn [Hin Hsev]].
    repeat (apply in_app_or in Hin as [Hin|Hin]).
    + apply in_map_warning in Hin as [E _]. congruence.
    + apply in_map_warning in Hin as [E _]. congruence.
    + apply in_map_warning in Hin as [E _]. congruence.
    + destruct (Range.status complianceResult); try (now left);
        simpl in Hin; try (now destruct Hin).
      destruct Hin as [<-|[]]. discriminate.
    + right. intros Hnil. rewrite Hnil in Hin. destruct Hin.
  - intros [Hs|Hs].
    + rewrite Hs. eexists. split.
      * do 3 (apply in_or_app; right). apply in_or_app. left.
        left. reflexivity.
      * reflexivity.
    + assert (Hg : (len (Range.sanctionedAddresses addressRisks) >? 0)
                   = true).
      { destruct (Range.sanctionedAddresses addressRisks);
          [now elim Hs|reflexivity]. }
      rewrite Hg. eexists. split.
      * do 4 (apply in_or_app; right). left. reflexivity.
      * reflexivity.
Qed.

(** *** The report *)

Lemma valid_not_malformed (address : string) :
  isValidSolanaAddress address = true ->
  negb (JS.truthy address) || (JS.strlen address <? 32)
  || (JS.strlen address >? 44) = false.
Proof.
  unfold isValidSolanaAddress. rewrite !andb_true_iff.
  intros [[_ Hlo] Hhi]. apply Z.leb_le in Hlo, Hhi.
  rewrite !orb_false_iff. repeat split.
  - unfold JS.truthy. rewrite negb_involutive.
    destruct address; [discriminate Hlo0 || (exfalso; cbn in Hlo; lia)|].
    reflexivity.
  - apply Z.ltb_ge. exact Hlo.
  - rewrite Z.gtb_ltb. apply Z.ltb_ge. exact Hhi.
Qed.

(** X27. For a well-formed address the report is assembled from one run of the
    detectors: it names the address, its tier and description are those of
    its score, the wallet's own compliance check never comes back Unknown,
    as many counterparties were screened as the clustering detector counted,
    and no warning is in the "error" category. *)
Theorem valid_address_report_is_consistent
  (toFixed : float -> Z -> string)
  (extractNFTName : string -> option string)
  (heliusService : Helius.Service) (now : Z) (address : string) :
  isValidSolanaAddress address = true ->
  let r := analyzeWallet toFixed extractNFTName heliusService now address in
  let d := detectorResults r in
  walletAddress r = address
  /\ riskLevel r = determineRiskLevel (score r)
  /\ riskDescription r = getRiskDescription (riskLevel r)
  /\ 0 <= score r <= 100
  /\ Range.address (compliance d) = address
  /\ Range.status (compliance d) <> Range.Unknown
  /\ Range.totalChecked (interactingAddressRisks d)
     = Clustering.totalUniqueAddresses (clustering d)
  /\ transactionsAnalyzed r = Clustering.totalTransactions (clustering d)
  /\ (forall wn, In wn (warnings r) -> category wn <> "error"%string).
Proof.
  intros Hv r d. subst d r. unfold analyzeWallet, analysis.
  rewrite Hv. cbn [negb].
  set (txs := if Helius.isReady heliusService then _ else _).
  cbn [walletAddress riskLevel riskDescription score detectorResults
       compliance interactingAddressRisks clustering transactionsAnalyzed
       warnings].
  split; [reflexivity|]. split; [reflexivity|]. split; [reflexivity|].
  split.
  { destruct (score_accounting
                (mkInput (Cex.detectCEXTransactions txs address)
                   (Clustering.detectClustering txs address)
                   (Assets.detectIdentityAssets extractNFTName txs address)
                   (Range.checkRisk now address)
                   (Range.checkInteractingAddresses now
                      (Helius.getInteractingAddresses txs address))
                   (Clustering.wash_detected
                      (Clustering.detectWashTrading txs address))))
      as (_ & -> & _).
    unfold clamp. lia. }
  split.
  { RangeFacts.checkRisk_cases address reflexivity. reflexivity. }
  split.
  { unfold Range.checkRisk. rewrite (valid_not_malformed _ Hv).
    destruct (JS.arrIncludes Range.MOCK_SANCTIONED_ADDRESSES address);
      [discriminate|].
    destruct (JS.arrIncludes Range.MOCK_FLAGGED_ADDRESSES address);
      discriminate. }
  split.
  { unfold Range.checkInteractingAddresses.
    destruct (fold_left _ _ _) as [sa fa]. cbn [Range.totalChecked].
    rewrite ClusteringInvariants.getInteractingAddresses_counts.
    unfold Clustering.detectClustering.
    destruct (Clustering.countInteractions txs address) as [m total].
    cbn [fst].
    destruct (total <? ANALYSIS_CONFIG.MIN_TRANSACTIONS_FOR_PATTERN);
      reflexivity. }
  split.
  { unfold Clustering.detectClustering.
    destruct (Clustering.countInteractions txs address) as [m total].
    destruct (total <? ANALYSIS_CONFIG.MIN_TRANSACTIONS_FOR_PATTERN);
      reflexivity. }
  intros wn. apply collectWarnings_categories.
Qed.

Lemma valid_address_report_is_consistent_witness :
  isValidSolanaAddress Scenarios.w = true
  /\ let r := analyzeWallet EngineFacts.noDigits EngineFacts.noName
                EngineFacts.offlineService 1700000000000 Scenarios.w in
     riskLevel r = determineRiskLevel (score r)
     /\ Range.status (compliance (detectorResults r)) <> Range.Unknown.
Proof.
  split; [reflexivity|].
  pose proof (valid_address_report_is_consistent EngineFacts.noDigits
                EngineFacts.noName EngineFacts.offlineService 1700000000000
                Scenarios.w eq_refl) as H.
  cbv zeta in H. destruct H as (_ & H1 & _ & _ & _ & H2 & _).
  split; [exact H1|exact H2].
Defined.

End EngineInvariants.

(* ================================================================= *)
(** ** Recommendations and the address abbreviation *)

Module RecommendationFacts.
Import Constants Recommendations.

Lemma in_withTool p cat t acts r :
  In r (map (withTool p cat t) acts) ->
  priority r = p /\ category r = cat
  /\ tool r = match t with Some x => Some (tool_name x) | None => None end
  /\ toolUrl r = match t with Some x => Some (url x) | None => None end.
Proof. intros H. apply in_map_iff in H as [a [<- _]]. now repeat split. Qed.

Lemma in_identity acts r :
  In r (map (fun act => mkRecommendation medium "Identity" act None None)
          acts) ->
  priority r = medium /\ category r = "Identity"%string
  /\ tool r = None /\ toolUrl r = None.
Proof. intros H. apply in_map_iff in H as [a [<- _]]. now repeat split. Qed.

Lemma findTool_In wanted t : findTool wanted = Some t -> In t RECOMMENDED_TOOLS.
Proof. unfold findTool. intros H. now apply find_some in H. Qed.

Lemma names_tool p cat wanted acts r :
  In r (map (withTool p cat (findTool wanted)) acts) ->
  String.eqb cat "Identity" = false ->
  findTool wanted <> None ->
  if String.eqb (category r) "Identity"
  then tool r = None /\ toolUrl r = None /\ priority r = medium
  else exists t, In t RECOMMENDED_TOOLS
                 /\ tool r = Some (tool_name t)
                 /\ toolUrl r = Some (url t).
Proof.
  intros Hin Hcat Hfound. apply in_withTool in Hin as (_ & Hc & Ht & Hu).
  rewrite Hc, Hcat. destruct (findTool wanted) as [t|] eqn:E;
    [|now elim Hfound].
  exists t. split; [now apply findTool_In in E|]. now split.
Qed.

(** X28. The general advice is given exactly below a score of 50, so not at 50
    itself, which is still rated HIGH; the compliance advice exactly when
    the wallet's status is not Clean.  Every recommendation outside the
    Identity category names a tool of [RECOMMENDED_TOOLS] with its url;
    those of the Identity category name none. *)
Theorem recommendations_by_score_and_status
  (cexResult : Cex.CEXDetectionResult)
  (clusteringResult : Clustering.ClusteringResult)
  (assetsResult : Assets.AssetsDetectionResult)
  (complianceResult : Range.RangeCheckResult) (score : Z) :
  let rs := generateRecommendations cexResult clusteringResult assetsResult
              complianceResult score in
  ((exists r, In r rs /\ category r = "General"%string) <-> score < 50)
  /\ ((exists r, In r rs /\ category r = "Compliance"%string)
      <-> Range.status complianceResult <> Range.Clean)
  /\ (forall r, In r rs ->
      if String.eqb (category r) "Identity"
      then tool r = None /\ toolUrl r = None /\ priority r = medium
      else exists t, In t RECOMMENDED_TOOLS
                     /\ tool r = Some (tool_name t)
                     /\ toolUrl r = Some (url t)).
Proof.
  intros rs. subst rs. unfold generateRecommendations.
  split; [|split].
  - split.
    + intros [r [Hin Hc]].
      repeat (apply in_app_or in Hin as [Hin|Hin]).
      * apply in_withTool in Hin as (_ & E & _). congruence.
      * apply in_withTool in Hin as (_ & E & _). congruence.
      * apply in_identity in Hin as (_ & E & _). congruence.
      * destruct (Range.status complianceResult); simpl in Hin;
          try (now destruct Hin); destruct Hin as [<-|[]]; discriminate.
      * destruct (Z.ltb_spec score 50); [assumption|destruct Hin].
    + intros Hlt. apply Z.ltb_lt in Hlt. rewrite Hlt.
      eexists. split.
      * do 4 (apply in_or_app; right). left. reflexivity.
      * reflexivity.
  - split.
    + intros [r [Hin Hc]].
      repeat (apply in_app_or in Hin as [Hin|Hin]).
      * apply in_withTool in Hin as (_ & E & _). congruence.
      * apply in_withTool in Hin as (_ & E & _). congruence.
      * apply in_identity in Hin as (_ & E & _). congruence.
      * destruct (Range.status complianceResult);
          [destruct Hin|discriminate..].
      * destruct (score <? 50); [|destruct Hin].
        destruct Hin as [<-|[]]. discriminate.
    + intros Hs. 
      assert (E : exists r,
                 In r (match Range.status complianceResult with
                       | Range.Clean => []
                       | _ =>
                           [ withTool high "Compliance"
                               (findTool "SANCTIONED_INTERACTION")
                               "Consult Range Protocol for compliance review and remediation options." ]
                       end)
                 /\ category r = "Compliance"%string).
      { destruct (Range.status complianceResult); [now elim Hs|..];
          (eexists; split; [left; reflexivity|reflexivity]). }
      destruct E as [r [Hin Hc]]. exists r. split; [|exact Hc].
      do 3 (apply in_or_app; right). apply in_or_app. now left.
  - intros r Hin.
    repeat (apply in_app_or in Hin as [Hin|Hin]).
    + now apply (names_tool _ _ _ _ _ Hin).
    + now apply (names_tool _ _ _ _ _ Hin).
    + apply in_identity in Hin as (-> & -> & -> & ->). cbn. tauto.
    + destruct (Range.status complianceResult); [destruct Hin|..];
        now apply (names_tool _ _ _ [_] _ Hin).
    + destruct (score <? 50); [|destruct Hin].
      now apply (names_tool _ _ _ [_] _ Hin).
Qed.

(** *** [shortenAddress] *)

Import RangeBatch.

Lemma length_app_string (a b : string) :
  String.length (a ++ b) = (String.length a + String.length b)%nat.
Proof. induction a as [|c a IH]; simpl; [reflexivity|now rewrite IH]. Qed.

Lemma substring_split (n : nat) : forall s : string,
  (n <= String.length s)%nat ->
  s = (substring 0 n s ++ substring n (String.length s - n) s)%string
  /\ String.length (substring 0 n s) = n.
Proof.
  induction n as [|n IH]; intros s Hn.
  - rewrite Nat.sub_0_r. destruct s as [|c s]; simpl; [now split|].
    split; [|reflexivity]. f_equal.
    clear Hn. induction s as [|c' s IHs]; simpl; [reflexivity|].
    now rewrite <- IHs.
  - destruct s as [|c s]; simpl in Hn; [lia|].
    destruct (IH s ltac:(lia)) as [Hs Hl]. cbn [substring String.length].
    split; [|now rewrite Hl]. cbn [append]. f_equal.
    replace (S (String.length s) - S n)%nat
      with (String.length s - n)%nat by lia.
    exact Hs.
Qed.

Lemma substring_skip (p r : string) (k m : nat) :
  substring (String.length p + k) m (p ++ r) = substring k m r.
Proof. induction p as [|c p IH]; simpl; [reflexivity|exact IH]. Qed.

Lemma substring_suffix (n : nat) : forall s : string,
  (n <= String.length s)%nat ->
  String.length (substring n (String.length s - n) s)
  = (String.length s - n)%nat.
Proof.
  intros s Hn. destruct (substring_split n s Hn) as [Hs Hl].
  apply (f_equal String.length) in Hs. rewrite length_app_string, Hl in Hs.
  lia.
Qed.

(** X29. [shortenAddress] leaves an address of at most twelve code units as it
    is; a longer one is cut into its first six code units, a middle part and
    its last four, and the middle part is replaced by three dots, which
    gives thirteen code units whatever the length. *)
Theorem shortenAddress_shape (address : string) :
  (JS.strlen address <= 12 -> shortenAddress address = address)
  /\ (12 < JS.strlen address ->
      exists first middle last : string,
        address = (first ++ middle ++ last)%string
        /\ String.length first = 6%nat /\ String.length last = 4%nat
        /\ shortenAddress address = (first ++ "..." ++ last)%string
        /\ JS.strlen (shortenAddress address) = 13).
Proof.
  unfold shortenAddress, JS.strlen. split.
  - intros H. apply Z.leb_le in H. now rewrite H.
  - intros H.
    assert (Hf : (Z.of_nat (String.length address) <=? 12) = false)
      by (apply Z.leb_gt; lia).
    rewrite Hf.
    destruct (substring_split 6 address ltac:(lia)) as [H6 L6].
    set (rest := substring 6 (String.length address - 6) address) in *.
    assert (Lr : String.length rest = (String.length address - 6)%nat)
      by (apply substring_suffix; lia).
    destruct (substring_split (String.length rest - 4) rest ltac:(lia))
      as [H4 Lm].
    assert (Ll : String.length
                   (substring (String.length rest - 4)
                      (String.length rest - (String.length rest - 4)) rest)
                 = 4%nat).
    { rewrite substring_suffix; lia. }
    exists (substring 0 6 address),
      (substring 0 (String.length rest - 4) rest),
      (substring (String.length rest - 4)
         (String.length rest - (String.length rest - 4)) rest).
    assert (Hlast : substring (String.length address - 4) 4 address
                    = substring (String.length rest - 4)
                        (String.length rest - (String.length rest - 4))
                        rest).
    { replace (String.length address - 4)%nat
        with (String.length (substring 0 6 address)
              + (String.length rest - 4))%nat by lia.
      replace (String.length rest - (String.length rest - 4))%nat
        with 4%nat by lia.
      rewrite H6 at 2. apply substring_skip. }
    rewrite Hlast. split; [now rewrite <- H4|]. split; [exact L6|].
    split; [exact Ll|]. split; [reflexivity|].
    rewrite !length_app_string, L6, Ll. reflexivity.
Qed.

End RecommendationFacts.

(* ================================================================= *)
(** ** The engine without a Helius key *)

Module OfflineMode.
Import Constants Engine.

(** The two made-up counterparties of the mock history hold a zero, which
    is no base58 digit. *)
Lemma mock_names_invalid :
  isValidSolanaAddress "RandomAddr123456789012345678901234567890123" = false
  /\ isValidSolanaAddress "MinterAddress12345678901234567890123456" = false.
Proof. split; vm_compute; reflexivity. Qed.

(** The counterparties of the mock history. *)
Definition binanceHot : string :=
  "5tzFkiKscXHK5ZXCGbXZxdw7gTjjD1mBwuoFbhUvuAi9".
Definition mockRandom : string :=
  "RandomAddr123456789012345678901234567890123".
Definition mockMinter : string := "MinterAddress12345678901234567890123456".

Section Mock.

Variable extractNFTName : string -> option string.
Variables (now : Z) (a : string).
Hypothesis Hvalid : isValidSolanaAddress a = true.
Hypothesis Hbinance : a <> "5tzFkiKscXHK5ZXCGbXZxdw7gTjjD1mBwuoFbhUvuAi9"%string.

Lemma target_truthy : JS.truthy a = true.
Proof.
  pose proof (EngineInvariants.valid_not_malformed a Hvalid) as H.
  rewrite !orb_false_iff in H. destruct H as [[H _] _].
  now apply negb_false_iff in H.
Qed.

Lemma target_self : String.eqb a a = true.
Proof. apply String.eqb_refl. Qed.

Lemma binance_other :
  String.eqb "5tzFkiKscXHK5ZXCGbXZxdw7gTjjD1mBwuoFbhUvuAi9" a = false.
Proof. apply String.eqb_neq. congruence. Qed.

Lemma random_other :
  String.eqb "RandomAddr123456789012345678901234567890123" a = false.
Proof.
  apply String.eqb_neq. intros E. rewrite <- E in Hvalid.
  now rewrite (proj1 mock_names_invalid) in Hvalid.
Qed.

Lemma minter_other :
  String.eqb "MinterAddress12345678901234567890123456" a = false.
Proof.
  apply String.eqb_neq. intros E. rewrite <- E in Hvalid.
  now rewrite (proj2 mock_names_invalid) in Hvalid.
Qed.

(** *** The CEX detector on the mock history *)

(** A transfer to the target from a registry address other than it. *)
Lemma scanTransfer_from_cex tx from amt st m :
  Cex.findCEXAddress from = Some m -> String.eqb from a = false ->
  Cex.scanTransfer tx a from a amt st = Cex.pushDeposit st tx m (Some amt).
Proof.
  intros Hm Hf. unfold Cex.scanTransfer. rewrite Hm, target_self, Hf.
  now destruct (Cex.findCEXAddress a).
Qed.

(** A transfer between the target and an address outside the registry. *)
Lemma scanTransfer_outside tx other amt st :
  Cex.findCEXAddress other = None -> String.eqb other a = false ->
  Cex.scanTransfer tx a a other amt st = st
  /\ Cex.scanTransfer tx a other a amt st = st.
Proof.
  intros Hm Hf. unfold Cex.scanTransfer. rewrite Hm, Hf.
  now destruct (Cex.findCEXAddress a).
Qed.

(** The target paying its own fee adds nothing. *)
Lemma scanFeePayer_self st tx :
  Tx.feePayer tx = a -> Cex.scanFeePayer a st tx = st.
Proof.
  intros Hf. unfold Cex.scanFeePayer. rewrite Hf, target_self.
  now destruct (Cex.findCEXAddress a).
Qed.

Lemma mock_cex :
  let r := Cex.detectCEXTransactions (generateMockTransactions now a) a in
  map Cex.exchangeName (Cex.deposits r) = ["Binance"%string]
  /\ map Cex.signature (Cex.deposits r) = ["mock_sig_1"%string]
  /\ Cex.withdrawals r = []
  /\ Cex.exchangesInvolved r = ["Binance"%string]
  /\ Cex.riskContribution r = 15.
Proof.
  unfold Cex.detectCEXTransactions, generateMockTransactions.
  cbn [fold_left]. unfold Cex.scanTx.
  rewrite !scanFeePayer_self by reflexivity.
  unfold Cex.scanTransfers.
  cbn [fold_left Tx.nativeTransfers Tx.tokenTransfers].
  unfold Cex.scanNative, Cex.scanToken.
  cbn [NativeTransfer.fromUserAccount NativeTransfer.toUserAccount
       NativeTransfer.amount TokenTransfer.fromUserAccount
       TokenTransfer.toUserAccount TokenTransfer.tokenAmount].
  rewrite (scanTransfer_from_cex _ binanceHot _ _ _ eq_refl binance_other).
  rewrite (proj1 (scanTransfer_outside _ mockRandom _ _ eq_refl random_other)).
  rewrite (proj2 (scanTransfer_outside _ mockMinter _ _ eq_refl minter_other)).
  repeat split.
Qed.

(** *** The clustering detector on the mock history *)

Definition bump (other : string) (st : Clustering.Counts)
  : Clustering.Counts :=
  (JS.Map.set (fst st) other
     (match JS.Map.get (fst st) other with Some n => n | None => 0 end + 1),
   snd st + 1).

Lemma countTransfer_other other st :
  JS.truthy other = true -> String.eqb other a = false ->
  Clustering.countTransfer a a other st = bump other st
  /\ Clustering.countTransfer a other a st = bump other st.
Proof.
  intros Ht Hf. unfold Clustering.countTransfer, Clustering.otherAddress.
  destruct st as [m n]. rewrite target_self, Hf, Ht, Hf. now split.
Qed.

Lemma mock_counts :
  Clustering.countInteractions (generateMockTransactions now a) a
  = ([ ("5tzFkiKscXHK5ZXCGbXZxdw7gTjjD1mBwuoFbhUvuAi9"%string, 1);
       ("RandomAddr123456789012345678901234567890123"%string, 1);
       ("MinterAddress12345678901234567890123456"%string, 1) ], 3).
Proof.
  unfold Clustering.countInteractions, generateMockTransactions.
  cbn [fold_left]. unfold Clustering.countTx.
  cbn [fold_left Tx.nativeTransfers Tx.tokenTransfers].
  unfold Clustering.countNative, Clustering.countToken.
  cbn [NativeTransfer.fromUserAccount NativeTransfer.toUserAccount
       TokenTransfer.fromUserAccount TokenTransfer.toUserAccount].
  rewrite (proj2 (countTransfer_other binanceHot _ eq_refl binance_other)).
  rewrite (proj1 (countTransfer_other mockRandom _ eq_refl random_other)).
  rewrite (proj2 (countTransfer_other mockMinter _ eq_refl minter_other)).
  reflexivity.
Qed.

Lemma mock_clustering :
  let r := Clustering.detectClustering (generateMockTransactions now a) a in
  Clustering.detected r = false
  /\ Clustering.totalUniqueAddresses r = 3
  /\ Clustering.riskContribution r = 0.
Proof.
  unfold Clustering.detectClustering. rewrite mock_counts.
  repeat split.
Qed.

Lemma recordTransfer_in ts m other amt :
  JS.truthy other = true -> String.eqb other a = false ->
  Clustering.recordTransfer a ts m (NativeTransfer.mk other a amt)
  = JS.Map.set m other
      (Clustering.mkTimeline
         (Clustering.sent (Clustering.timelineAt m other))
         (JS.push (Clustering.received (Clustering.timelineAt m other)) ts)).
Proof.
  intros Ht Hf. unfold Clustering.recordTransfer.
  cbn [NativeTransfer.fromUserAccount NativeTransfer.toUserAccount].
  now rewrite Hf, target_self, Ht.
Qed.

Lemma recordTransfer_out ts m other amt :
  JS.truthy other = true -> String.eqb other a = false ->
  Clustering.recordTransfer a ts m (NativeTransfer.mk a other amt)
  = JS.Map.set m other
      (Clustering.mkTimeline
         (JS.push (Clustering.sent (Clustering.timelineAt m other)) ts)
         (Clustering.received (Clustering.timelineAt m other))).
Proof.
  intros Ht Hf. unfold Clustering.recordTransfer.
  cbn [NativeTransfer.fromUserAccount NativeTransfer.toUserAccount].
  now rewrite target_self, Hf, Ht.
Qed.

Lemma mock_wash :
  Clustering.wash_detected
    (Clustering.detectWashTrading (generateMockTransactions now a) a)
  = false.
Proof.
  unfold Clustering.detectWashTrading, Clustering.buildTimelines,
    generateMockTransactions.
  cbn [fold_left]. unfold Clustering.recordTx.
  cbn [fold_left Tx.nativeTransfers Tx.timestamp].
  rewrite (recordTransfer_in _ _ binanceHot _ eq_refl binance_other).
  rewrite (recordTransfer_out _ _ mockRandom _ eq_refl random_other).
  reflexivity.
Qed.

(** *** The asset detector on the mock history *)

(** A token transfer to the target is treated as one to any other wallet
    that is its own recipient. *)
Lemma scanTokenTransfer_mine tx st mintOf amt from standard :
  Assets.scanTokenTransfer a tx st
    (TokenTransfer.mk mintOf amt from a standard)
  = Assets.scanTokenTransfer "w" tx st
      (TokenTransfer.mk mintOf amt from "w" standard).
Proof.
  unfold Assets.scanTokenTransfer. cbn [TokenTransfer.toUserAccount].
  now rewrite target_self.
Qed.

Lemma mock_assets :
  let r := Assets.detectIdentityAssets extractNFTName
             (generateMockTransactions now a) a in
  map Assets.mint (Assets.poapsDetected r)
  = ["MockMint123456789012345678901234567890"%string]
  /\ Assets.nftsDetected r = []
  /\ Assets.solDomainsDetected r = []
  /\ Assets.identityExposureLevel r = Assets.low
  /\ Assets.riskContribution r = 5.
Proof.
  unfold Assets.detectIdentityAssets, generateMockTransactions.
  cbn [fold_left]. unfold Assets.scanTx, Assets.scanNftEvent.
  cbn [Tx.nft Tx.tokenTransfers fold_left NftEvent.buyer NftEvent.nfts].
  rewrite target_self. cbn [orb fold_left].
  rewrite scanTokenTransfer_mine.
  vm_compute. repeat split.
Qed.

(** *** The compliance batch on the mock history *)

Lemma mock_risks :
  Range.checkInteractingAddresses now
    (Helius.getInteractingAddresses (generateMockTransactions now a) a)
  = Range.mkRisks [] [] 3.
Proof.
  rewrite ClusteringInvariants.getInteractingAddresses_counts, mock_counts.
  reflexivity.
Qed.

End Mock.

(** X30. Without a Helius key the engine analyses its built-in mock history, and
    for every well-formed address other than the Binance hot wallet of that
    history the findings are the same: three transactions, one Binance
    deposit and no withdrawal, no clustering, one POAP, three counterparties
    of which none is sanctioned or flagged.  The score is 80 less the
    deduction for the wallet's own compliance status, so every Clean address
    gets 80 and the tier LOW. *)
Theorem offline_analysis_scores_the_mock_history
  (toFixed : float -> Z -> string)
  (extractNFTName : string -> option string)
  (heliusService : Helius.Service) (now : Z) (address : string) :
  Helius.isReady heliusService = false ->
  isValidSolanaAddress address = true ->
  address <> binanceHot ->
  let r := analyzeWallet toFixed extractNFTName heliusService now address in
  let d := detectorResults r in
  transactionsAnalyzed r = 3
  /\ map Cex.exchangeName (Cex.deposits (cex d)) = ["Binance"%string]
  /\ Cex.withdrawals (cex d) = []
  /\ Clustering.detected (clustering d) = false
  /\ map Assets.mint (Assets.poapsDetected (assets d))
     = ["MockMint123456789012345678901234567890"%string]
  /\ interactingAddressRisks d = Range.mkRisks [] [] 3
  /\ score r
     = 80 - EngineInvariants.complianceDeduction
              (Range.status (compliance d))
  /\ (Range.status (compliance d) = Range.Clean ->
      score r = 80 /\ riskLevel r = LOW).
Proof.
  intros Hoff Hv Hb r d. subst d r. unfold analyzeWallet, analysis.
  rewrite Hv, Hoff. cbn [negb].
  cbn [transactionsAnalyzed detectorResults cex clustering assets
       interactingAddressRisks compliance score riskLevel].
  destruct (mock_cex now address Hv Hb) as (Hd & _ & Hw & _ & Hc).
  destruct (mock_clustering now address Hv Hb) as (Hcl & _ & Hcr).
  destruct (mock_assets extractNFTName now address)
    as (Hp & _ & _ & _ & Har).
  pose proof (mock_risks now address Hv Hb) as Hr.
  pose proof (mock_wash now address Hv Hb) as Hwash.
  cbv zeta in Hd, Hw, Hc, Hcl, Hcr, Hp, Har.
  assert (Hscore :
    out_score
      (calculatePrivacyScore
         (mkInput
            (Cex.detectCEXTransactions
               (generateMockTransactions now address) address)
            (Clustering.detectClustering
               (generateMockTransactions now address) address)
            (Assets.detectIdentityAssets extractNFTName
               (generateMockTransactions now address) address)
            (Range.checkRisk now address)
            (Range.checkInteractingAddresses now
               (Helius.getInteractingAddresses
                  (generateMockTransactions now address) address))
            (Clustering.wash_detected
               (Clustering.detectWashTrading
                  (generateMockTransactions now address) address))))
    = 80 - EngineInvariants.complianceDeduction
             (Range.status (Range.checkRisk now address))).
  { destruct (EngineInvariants.score_accounting
                (mkInput
                   (Cex.detectCEXTransactions
                      (generateMockTransactions now address) address)
                   (Clustering.detectClustering
                      (generateMockTransactions now address) address)
                   (Assets.detectIdentityAssets extractNFTName
                      (generateMockTransactions now address) address)
                   (Range.checkRisk now address)
                   (Range.checkInteractingAddresses now
                      (Helius.getInteractingAddresses
                         (generateMockTransactions now address) address))
                   (Clustering.wash_detected
                      (Clustering.detectWashTrading
                         (generateMockTransactions now address) address))))
      as (_ & -> & _).
    unfold EngineInvariants.expectedDeductions.
    cbn [cexResult clusteringResult assetsResult complianceResult
         addressRisks washTradingDetected].
    rewrite Hc, Hcr, Har, Hr, Hwash. cbn [Range.sanctionedAddresses].
    unfold clamp.
    destruct (Range.status (Range.checkRisk now address)); reflexivity. }
  split; [reflexivity|]. split; [exact Hd|]. split; [exact Hw|].
  split; [exact Hcl|]. split; [exact Hp|]. split; [exact Hr|].
  split; [exact Hscore|].
  intros Hclean. rewrite Hscore, Hclean. split; reflexivity.
Qed.

Lemma offline_analysis_scores_the_mock_history_witness :
  let r := analyzeWallet EngineFacts.noDigits EngineFacts.noName
             EngineFacts.offlineService 1700000000000 Scenarios.w in
  score r = 80 /\ riskLevel r = LOW.
Proof.
  pose proof (offline_analysis_scores_the_mock_history EngineFacts.noDigits
                EngineFacts.noName EngineFacts.offlineService 1700000000000
                Scenarios.w eq_refl eq_refl) as H.
  apply H; [discriminate|reflexivity].
Defined.

End OfflineMode.
